(** * jupyterlab-blockly: the toolbox filter, the manager and the document mapper

    A shallow embedding of

      - [BlocklyManager] of [packages/blockly/src/manager.ts]: the filter
        is in module [Manager], the rest of the class in section
        [BlocklyManager];
      - the second revision of that class (file [part_000]), whose filter
        adds the separator bookkeeping and compares identifiers as they
        are written: module [Part000];
      - [BlocklyPanel._load] and [BlocklyPanel._onSave] of the widget:
        section [BlocklyPanel].

    JavaScript objects are records of optional keys ([None] is an absent
    key).  The filter mutates the toolbox in place; here it returns the
    mutated tree, and a toolbox is a tree: no object occurs in it twice.
    A [TypeError] is a completion of its own.  [Map]s and the kernel-spec
    catalogue are finite maps; emitted signals, requests to the session
    and messages to the user are logged in the state. *)

From Stdlib Require Import String Ascii ZArith.
From stdpp Require Import gmap strings list fin_maps.

Local Open Scope string_scope.
Local Open Scope list_scope.

(** ** Strings *)

(** [String.prototype.toUpperCase] and [toLowerCase], on ASCII text: the
    letters a-z and A-Z are mapped, every other byte is kept. *)
Definition upper_ascii (c : ascii) : ascii :=
  let n := nat_of_ascii c in
  if (97 <=? n)%nat && (n <=? 122)%nat then ascii_of_nat (n - 32) else c.

Definition lower_ascii (c : ascii) : ascii :=
  let n := nat_of_ascii c in
  if (65 <=? n)%nat && (n <=? 90)%nat then ascii_of_nat (n + 32) else c.

Fixpoint toUpperCase (s : string) : string :=
  match s with
  | EmptyString => EmptyString
  | String c r => String (upper_ascii c) (toUpperCase r)
  end.

Fixpoint toLowerCase (s : string) : string :=
  match s with
  | EmptyString => EmptyString
  | String c r => String (lower_ascii c) (toLowerCase r)
  end.

(** [Array.prototype.includes] on an array of strings. *)
Definition includes (l : list string) (x : string) : bool :=
  bool_decide (x ∈ l).

(** Membership "under case-insensitive comparison": some entry of the list
    equals the identifier once both are brought to one case. *)
Definition member_ci (l : list string) (x : string) : Prop :=
  ∃ a, a ∈ l ∧ toLowerCase a = toLowerCase x.

(** ** The toolbox tree *)

(** The values the filter writes into [hidden] and [disabled]: the code
    writes booleans in some branches and the strings 'true' / 'false' in
    others. *)
Inductive flag : Type :=
  | FBool (b : bool)
  | FStr (s : string).

#[global] Instance flag_eq_dec : EqDecision flag.
Proof. solve_decision. Defined.

(** One object of a toolbox's [contents] array ([ToolboxItemInfo]).  Only
    the keys the manager reads or writes are kept. *)
#[warnings="-register-all"]
Inductive ToolboxItemInfo : Type := mkItem {
  kind : option string;
  type : option string;
  custom : option string;
  contents : option (list ToolboxItemInfo);
  hidden : option flag;
  disabled : option flag;
  disabledReasons : option (list string)
}.

(** The node reached by a path of indices through a tree whose arrays are
    entered by [children] (the filter of each revision decides which
    arrays it enters). *)
Fixpoint node_at (children : ToolboxItemInfo → option (list ToolboxItemInfo))
    (p : list nat) (l : list ToolboxItemInfo) : option ToolboxItemInfo :=
  match p with
  | [] => None
  | i :: q =>
      match l !! i with
      | None => None
      | Some it =>
          match q with
          | [] => Some it
          | _ :: _ =>
              match children it with
              | Some cs => node_at children q cs
              | None => None
              end
          end
      end
  end.

(** The array reached by a path: the root array for the empty path, the
    children of the node at the path otherwise. *)
Definition array_at (children : ToolboxItemInfo → option (list ToolboxItemInfo))
    (p : list nat) (l : list ToolboxItemInfo) : option (list ToolboxItemInfo) :=
  match p with
  | [] => Some l
  | _ :: _ => node_at children p l ≫= children
  end.

(** [Array.prototype.forEach] with a callback that mutates the element it
    is given and the variables it closes over: the callback takes the
    closed-over state and the element, and returns both. *)
Definition forEach {A S : Type} (f : S → A → A * S) : list A → S → list A * S :=
  fix go (l : list A) (s : S) : list A * S :=
    match l with
    | [] => ([], s)
    | x :: r =>
        let '(x', s1) := f s x in
        let '(r', s2) := go r s1 in
        (x' :: r', s2)
    end.

(** The state a [forEach] loop over [l], started in [s], has reached when
    it arrives at index [i]. *)
Definition state_before {A S : Type} (f : S → A → A * S)
    (l : list A) (s : S) (i : nat) : S :=
  (forEach f (take i l) s).2.

(** How a call ends: normally with a value, or by a thrown [TypeError]. *)
Inductive completion (S : Type) : Type :=
  | Normal (s : S)
  | Throw.
Arguments Normal {S} s.
Arguments Throw {S}.

(** [forEach] with a callback that may throw: the loop stops at the first
    throw, the elements after it are not visited. *)
Definition forEachE {A S : Type} (f : S → A → A * completion S)
  : list A → S → list A * completion S :=
  fix go (l : list A) (s : S) : list A * completion S :=
    match l with
    | [] => ([], Normal s)
    | x :: r =>
        match f s x with
        | (x', Normal s1) => let '(r', c) := go r s1 in (x' :: r', c)
        | (x', Throw) => (x' :: r, Throw)
        end
    end.

Definition not_allowed_reason : string := "This block is not allowed".

(** Assignments to the keys of an item. *)
Definition set_hidden (v : flag) (it : ToolboxItemInfo) : ToolboxItemInfo :=
  mkItem (kind it) (type it) (custom it) (contents it)
         (Some v) (disabled it) (disabledReasons it).

Definition set_disabled (v : flag) (it : ToolboxItemInfo) : ToolboxItemInfo :=
  mkItem (kind it) (type it) (custom it) (contents it)
         (hidden it) (Some v) (disabledReasons it).

Definition set_disabledReasons (v : list string) (it : ToolboxItemInfo)
  : ToolboxItemInfo :=
  mkItem (kind it) (type it) (custom it) (contents it)
         (hidden it) (disabled it) (Some v).

(** The state of the children after the recursive call has mutated them. *)
Definition with_contents (cs : list ToolboxItemInfo) (it : ToolboxItemInfo)
  : ToolboxItemInfo :=
  mkItem (kind it) (type it) (custom it) (Some cs)
         (hidden it) (disabled it) (disabledReasons it).

(** [blockInfo.disabled = false; blockInfo.disabledReasons = []] and
    [blockInfo.disabled = true; blockInfo.disabledReasons = [...]]. *)
Definition enable_block (it : ToolboxItemInfo) : ToolboxItemInfo :=
  set_disabledReasons [] (set_disabled (FBool false) it).

Definition disable_block (it : ToolboxItemInfo) : ToolboxItemInfo :=
  set_disabledReasons [not_allowed_reason] (set_disabled (FBool true) it).

(** The variants of the data model, as a filter tells them apart. *)
Inductive shape : Type :=
  | Category
  | DynamicCategory (custom : string)
  | Block (type : option string)
  | Separator
  | Unknown.

#[global] Instance shape_eq_dec : EqDecision shape.
Proof. solve_decision. Defined.

(** ** The second revision of the manager (separator bookkeeping) *)
Module Part000.

(** The two counters of [_filterContents]. *)
Record counters : Type := mkCounters { visible : nat; lastSeparator : nat }.

Definition incr (st : counters) : counters :=
  mkCounters (S (visible st)) (lastSeparator st).

(** [this._allowedBlocks === undefined || this._allowedBlocks.includes(x)] *)
Definition allowed (allow : option (list string)) (x : string) : bool :=
  match allow with
  | None => true
  | Some l => includes l x
  end.

(** ["kind" in itemInfo && itemInfo.kind === s] *)
Definition kind_is (it : ToolboxItemInfo) (s : string) : bool :=
  bool_decide (kind it = Some s).

(** The separator branch. *)
Definition visit_separator (st : counters) (itemInfo : ToolboxItemInfo)
  : ToolboxItemInfo * counters :=
  if (lastSeparator st =? visible st)%nat
  then (set_hidden (FBool true) itemInfo, st)
  else (itemInfo, mkCounters (visible st) (visible st)).

(** The callback of [contents.forEach] in [_filterContents]. *)
Fixpoint visit (allow : option (list string)) (st : counters)
    (itemInfo : ToolboxItemInfo) {struct itemInfo} : ToolboxItemInfo * counters :=
  match contents itemInfo with
  | Some categoryContents =>
      (* "contents" in itemInfo *)
      let '(cs', inner) :=
        forEach (visit allow) categoryContents (mkCounters 0 0) in
      if (0 <? visible inner)%nat
      then (set_hidden (FStr "false") (with_contents cs' itemInfo), incr st)
      else (set_hidden (FStr "true") (with_contents cs' itemInfo), st)
  | None =>
      match type itemInfo with
      | Some t =>
          (* "type" in itemInfo *)
          if allowed allow t
          then (enable_block itemInfo, incr st)
          else (disable_block itemInfo, st)
      | None =>
          match (if kind_is itemInfo "CATEGORY" then custom itemInfo else None) with
          | Some c =>
              (* kind === "CATEGORY" && "custom" in itemInfo *)
              if allowed allow c
              then (set_disabled (FStr "false") itemInfo, incr st)
              else (set_disabled (FStr "true") itemInfo, st)
          | None =>
              if kind_is itemInfo "SEP"
              then visit_separator st itemInfo
              else (itemInfo, st)
          end
      end
  end.

Definition _filterContents (allow : option (list string))
    (contents : list ToolboxItemInfo) : list ToolboxItemInfo * nat :=
  let '(contents', st) := forEach (visit allow) contents (mkCounters 0 0) in
  (contents', visible st).

(** This revision enters the [contents] of every item that has one. *)
Definition children (it : ToolboxItemInfo) : option (list ToolboxItemInfo) :=
  contents it.

(** The counters with which the filter visits the node at a path. *)
Fixpoint state_at (allow : option (list string)) (p : list nat)
    (l : list ToolboxItemInfo) (st : counters) : counters :=
  match p with
  | [] => st
  | i :: q =>
      match q with
      | [] => state_before (visit allow) l st i
      | _ :: _ =>
          match l !! i ≫= children with
          | Some cs => state_at allow q cs (mkCounters 0 0)
          | None => st
          end
      end
  end.

(** Several runs of the filter in a row, one per allow-list. *)
Definition filter_runs (allows : list (option (list string)))
    (contents : list ToolboxItemInfo) : list ToolboxItemInfo :=
  foldl (λ cs allow, (_filterContents allow cs).1) contents allows.

(** This revision's filter has no throwing expression; the same function
    with its completion made explicit. *)
Definition _filterContents_c (allow : option (list string))
    (contents : list ToolboxItemInfo)
    : list ToolboxItemInfo * completion nat :=
  ((_filterContents allow contents).1, Normal (_filterContents allow contents).2).

(** The branch [visit] takes on an item. *)
Definition classify (it : ToolboxItemInfo) : shape :=
  match contents it with
  | Some _ => Category
  | None =>
      match type it with
      | Some t => Block (Some t)
      | None =>
          match (if kind_is it "CATEGORY" then custom it else None) with
          | Some c => DynamicCategory c
          | None => if kind_is it "SEP" then Separator else Unknown
          end
      end
  end.

(** A block or dynamic category the last run left enabled. *)
Definition leaf_visible (it : ToolboxItemInfo) : bool :=
  match classify it with
  | Block _ => bool_decide (disabled it = Some (FBool false))
  | DynamicCategory _ => bool_decide (disabled it = Some (FStr "false"))
  | _ => false
  end.

(** An item that counts as visible content of its array. *)
Definition unit_visible (it : ToolboxItemInfo) : bool :=
  match classify it with
  | Category => bool_decide (hidden it = Some (FStr "false"))
  | _ => leaf_visible it
  end.

(** The number of visible leaves at or below an item. *)
Fixpoint visible_leaves (it : ToolboxItemInfo) : nat :=
  match contents it with
  | Some cs => sum_list (List.map visible_leaves cs)
  | None => if leaf_visible it then 1 else 0
  end.

Definition separator_hidden (it : ToolboxItemInfo) : bool :=
  bool_decide (hidden it = Some (FBool true)).

Definition visible_separator (it : ToolboxItemInfo) : bool :=
  match classify it with
  | Separator => negb (separator_hidden it)
  | _ => false
  end.

(** No separator at or below the item carries [hidden = true], as in a
    toolbox that no run of the filter has reduced yet. *)
Fixpoint separators_shown (it : ToolboxItemInfo) : bool :=
  match contents it with
  | Some cs => forallb separators_shown cs
  | None =>
      match classify it with
      | Separator => negb (separator_hidden it)
      | _ => true
      end
  end.

(** A scan of one array: [seen] tells whether visible content has
    appeared since the previous visible separator, or since the start.
    Every visible separator must come after such content. *)
Fixpoint no_redundant_separator (seen : bool) (l : list ToolboxItemInfo) : bool :=
  match l with
  | [] => true
  | it :: r =>
      if visible_separator it
      then seen && no_redundant_separator false r
      else no_redundant_separator (seen || unit_visible it) r
  end.

(** The same scan, asking in addition that a separator is hidden only
    when no visible content has appeared. *)
Fixpoint separators_exact (seen : bool) (l : list ToolboxItemInfo) : bool :=
  match l with
  | [] => true
  | it :: r =>
      match classify it with
      | Separator =>
          if separator_hidden it
          then negb seen && separators_exact seen r
          else seen && separators_exact false r
      | _ => separators_exact (seen || unit_visible it) r
      end
  end.

(** The number of items of an array that count as visible content. *)
Definition count_visible (l : list ToolboxItemInfo) : nat :=
  length (List.filter unit_visible l).

End Part000.

(** ** [packages/blockly/src/manager.ts] *)
Module Manager.

(** [this._allowedBlocks === undefined ||
     this._allowedBlocks.includes(x.toLowerCase())] *)
Definition allowed (allow : option (list string)) (x : string) : bool :=
  match allow with
  | None => true
  | Some l => includes l (toLowerCase x)
  end.

(** ['kind' in itemInfo] and [itemInfo.kind.toUpperCase() === s] *)
Definition kind_is (it : ToolboxItemInfo) (s : string) : bool :=
  match kind it with
  | Some k => bool_decide (toUpperCase k = s)
  | None => false
  end.

(** The block branch.  [blockInfo.type.toLowerCase()] throws when the
    object has no [type]; it is evaluated only when the allow-list is
    defined. *)
Definition visit_block (allow : option (list string)) (visible : nat)
    (itemInfo : ToolboxItemInfo) : ToolboxItemInfo * completion nat :=
  match allow, type itemInfo with
  | None, _ => (enable_block itemInfo, Normal (S visible))
  | Some l, None => (itemInfo, Throw)
  | Some l, Some t =>
      if includes l (toLowerCase t)
      then (enable_block itemInfo, Normal (S visible))
      else (disable_block itemInfo, Normal visible)
  end.

(** The callback of [contents.forEach] in [_filterContents]; the state is
    the counter [visible].  The two [console.log] calls are left out. *)
Fixpoint visit (allow : option (list string)) (visible : nat)
    (itemInfo : ToolboxItemInfo) {struct itemInfo}
    : ToolboxItemInfo * completion nat :=
  if kind_is itemInfo "CATEGORY" then
    match contents itemInfo with
    | Some categoryContents =>
        match forEachE (visit allow) categoryContents 0 with
        | (cs', Normal n) =>
            if (0 <? n)%nat
            then (set_hidden (FStr "false") (with_contents cs' itemInfo),
                  Normal (S visible))
            else (set_hidden (FStr "true") (with_contents cs' itemInfo),
                  Normal visible)
        | (cs', Throw) => (with_contents cs' itemInfo, Throw)
        end
    | None =>
        match custom itemInfo with
        | Some c =>
            if allowed allow c
            then (set_hidden (FStr "false") itemInfo, Normal (S visible))
            else (set_hidden (FStr "true") itemInfo, Normal visible)
        | None => (itemInfo, Normal visible)
        end
    end
  else if kind_is itemInfo "BLOCK" then visit_block allow visible itemInfo
  else (itemInfo, Normal visible).

Definition _filterContents (allow : option (list string))
    (contents : list ToolboxItemInfo)
    : list ToolboxItemInfo * completion nat :=
  forEachE (visit allow) contents 0.

(** The branch [visit] takes on an item; this revision has no branch for
    separators. *)
Definition classify (it : ToolboxItemInfo) : shape :=
  if kind_is it "CATEGORY" then
    match contents it with
    | Some _ => Category
    | None =>
        match custom it with
        | Some c => DynamicCategory c
        | None => Unknown
        end
    end
  else if kind_is it "BLOCK" then Block (type it)
  else Unknown.

(** This revision enters the [contents] of the items of kind category
    only. *)
Definition children (it : ToolboxItemInfo) : option (list ToolboxItemInfo) :=
  if kind_is it "CATEGORY" then contents it else None.

(** A block or dynamic category the last run left enabled. *)
Definition leaf_visible (it : ToolboxItemInfo) : bool :=
  match classify it with
  | Block _ => bool_decide (disabled it = Some (FBool false))
  | DynamicCategory _ => bool_decide (hidden it = Some (FStr "false"))
  | _ => false
  end.

(** An item that counts as visible content of its array. *)
Definition unit_visible (it : ToolboxItemInfo) : bool :=
  match classify it with
  | Category => bool_decide (hidden it = Some (FStr "false"))
  | _ => leaf_visible it
  end.

(** The number of visible leaves at or below an item. *)
Fixpoint visible_leaves (it : ToolboxItemInfo) : nat :=
  match contents it with
  | Some cs =>
      if kind_is it "CATEGORY" then sum_list (List.map visible_leaves cs)
      else if leaf_visible it then 1 else 0
  | None => if leaf_visible it then 1 else 0
  end.

(** Every object of kind block that the filter reaches has a [type]. *)
Fixpoint blocks_typed (it : ToolboxItemInfo) : bool :=
  if kind_is it "CATEGORY" then
    match contents it with
    | Some cs => forallb blocks_typed cs
    | None => true
    end
  else if kind_is it "BLOCK" then
    match type it with Some _ => true | None => false end
  else true.

(** What a run that completes leaves in an item. *)
Definition mark (allow : option (list string)) (it : ToolboxItemInfo)
  : ToolboxItemInfo :=
  (visit allow 0 it).1.

(** A completion whose count is taken from a start value [v]. *)
Definition shift (v : nat) (c : completion nat) : completion nat :=
  match c with
  | Normal k => Normal (v + k)
  | Throw => Throw
  end.

(** The number of items of an array that count as visible content. *)
Definition count_visible (l : list ToolboxItemInfo) : nat :=
  length (List.filter unit_visible l).

End Manager.

(** ** The manager class

    Both revisions have the same fields and methods around their
    [_filterContents] ([_description] and [setDescription] exist in
    [manager.ts] only), so the class is written once, over the filter. *)

(** [KernelSpec.ISpecModel], the keys that are read. *)
Module KernelSpec.
Record ISpecModel : Type := mkSpec {
  name : string;
  language : string;
  display_name : string
}.
End KernelSpec.

(** A [Blockly.Generator] is an opaque capability; it is identified by its
    [name_]. *)
Record Generator : Type := mkGenerator { name_ : string }.

(** [BlocklyRegistry]: the two [Map]s the manager reads.  A registered
    toolbox is represented by its [contents] array, which the filter
    mutates in place: the registry is part of the state. *)
Record BlocklyRegistry : Type := mkRegistry {
  toolboxes : gmap string (list ToolboxItemInfo);
  generators : gmap string Generator
}.

(** [ISessionContext]: the kernel-spec catalogue
    ([specsManager.specs.kernelspecs], own keys only) and the
    [changeKernel] requests received so far. *)
Record ISessionContext : Type := mkSession {
  kernelspecs : gmap string KernelSpec.ISpecModel;
  changeKernel_calls : list string
}.

(** [BlocklyManager.Change] *)
Inductive Change : Type := toolbox | kernel | description.

(** The fields of a [BlocklyManager]; [_changed] is the list of the
    signals emitted so far, oldest first. *)
Record BlocklyManager : Type := mkManager {
  _description : option string;
  _toolbox : string;
  _allowedBlocks : option (list string);
  _generator : option Generator;
  _registry : BlocklyRegistry;
  _selectedKernel : option KernelSpec.ISpecModel;
  _sessionContext : ISessionContext;
  _changed : list Change
}.

(** [IChangedArgs<KernelConnection, KernelConnection, 'kernel'>]; a kernel
    connection is represented by its [name], [None] is [null]. *)
Record IChangedArgs : Type := mkArgs {
  oldValue : option string;
  newValue : option string
}.

Definition emit (c : Change) (m : BlocklyManager) : BlocklyManager :=
  mkManager (_description m) (_toolbox m) (_allowedBlocks m) (_generator m)
            (_registry m) (_selectedKernel m) (_sessionContext m)
            (_changed m ++ [c]).

Definition with_toolbox (n : string) (m : BlocklyManager) : BlocklyManager :=
  mkManager (_description m) n (_allowedBlocks m) (_generator m)
            (_registry m) (_selectedKernel m) (_sessionContext m) (_changed m).

Definition with_allowedBlocks (a : option (list string)) (m : BlocklyManager)
  : BlocklyManager :=
  mkManager (_description m) (_toolbox m) a (_generator m)
            (_registry m) (_selectedKernel m) (_sessionContext m) (_changed m).

Definition with_registry (r : BlocklyRegistry) (m : BlocklyManager)
  : BlocklyManager :=
  mkManager (_description m) (_toolbox m) (_allowedBlocks m) (_generator m)
            r (_selectedKernel m) (_sessionContext m) (_changed m).

Definition with_description (d : string) (m : BlocklyManager) : BlocklyManager :=
  mkManager (Some d) (_toolbox m) (_allowedBlocks m) (_generator m)
            (_registry m) (_selectedKernel m) (_sessionContext m) (_changed m).

Definition with_kernel (k : KernelSpec.ISpecModel) (g : option Generator)
    (m : BlocklyManager) : BlocklyManager :=
  mkManager (_description m) (_toolbox m) (_allowedBlocks m) g
            (_registry m) (Some k) (_sessionContext m) (_changed m).

Definition with_session (s : ISessionContext) (m : BlocklyManager)
  : BlocklyManager :=
  mkManager (_description m) (_toolbox m) (_allowedBlocks m) (_generator m)
            (_registry m) (_selectedKernel m) s (_changed m).

Section BlocklyManager.

(** [this._filterContents], with [this._allowedBlocks] made an argument. *)
Variable filterContents :
  option (list string) → list ToolboxItemInfo →
  list ToolboxItemInfo * completion nat.

(** [get kernel()]: [this._selectedKernel?.name || 'No kernel'] *)
Definition get_kernel (m : BlocklyManager) : string :=
  match _selectedKernel m with
  | Some k =>
      if bool_decide (KernelSpec.name k = "") then "No kernel"
      else KernelSpec.name k
  | None => "No kernel"
  end.

Definition getToolbox (m : BlocklyManager) : string := _toolbox m.

Definition getAllowedBlocks (m : BlocklyManager) : option (list string) :=
  _allowedBlocks m.

Definition _filterToolbox (m : BlocklyManager)
  : BlocklyManager * completion unit :=
  match toolboxes (_registry m) !! _toolbox m with
  | Some contents =>
      let r := filterContents (_allowedBlocks m) contents in
      (with_registry
         (mkRegistry (<[_toolbox m := r.1]> (toolboxes (_registry m)))
                     (generators (_registry m))) m,
       match r.2 with Normal _ => Normal tt | Throw => Throw end)
  | None => (m, Normal tt)
  end.

Definition setToolbox (name : string) (m : BlocklyManager)
  : BlocklyManager * completion unit :=
  if bool_decide (_toolbox m ≠ name) then
    let m1 :=
      with_toolbox
        (match toolboxes (_registry m) !! name with
         | Some _ => name
         | None => "default"
         end) m in
    match _filterToolbox m1 with
    | (m2, Normal _) => (emit toolbox m2, Normal tt)
    | (m2, Throw) => (m2, Throw)
    end
  else (m, Normal tt).

(** [listToolboxes]: the registered names, as [{label, value}] pairs.
    The order of a [Map] is the insertion order; the order of the list
    is not modelled. *)
Definition listToolboxes (m : BlocklyManager) : list (string * string) :=
  (λ kv, (kv.1, kv.1)) <$> map_to_list (toolboxes (_registry m)).

Definition setAllowedBlocks (allowedBlocks : option (list string))
    (m : BlocklyManager) : BlocklyManager * completion unit :=
  match _filterToolbox (with_allowedBlocks allowedBlocks m) with
  | (m2, Normal _) => (emit toolbox m2, Normal tt)
  | (m2, Throw) => (m2, Throw)
  end.

(** [selectKernel]: only forwards the request to the session. *)
Definition selectKernel (name : string) (m : BlocklyManager) : BlocklyManager :=
  with_session
    (mkSession (kernelspecs (_sessionContext m))
               (changeKernel_calls (_sessionContext m) ++ [name])) m.

(** [listKernels]: [{label, value}] for the specs whose language has a
    generator (the order of the list is not modelled). *)
Definition listKernels (m : BlocklyManager) : list (string * string) :=
  omap (λ kv : string * KernelSpec.ISpecModel,
          match generators (_registry m) !! KernelSpec.language kv.2 with
          | Some _ => Some (KernelSpec.display_name kv.2, KernelSpec.name kv.2)
          | None => None
          end)
       (map_to_list (kernelspecs (_sessionContext m))).

Definition _onKernelChanged (args : IChangedArgs) (m : BlocklyManager)
  : BlocklyManager :=
  match newValue args with
  | Some name =>
      match kernelspecs (_sessionContext m) !! name with
      | Some spec =>
          emit kernel
            (with_kernel spec
               (generators (_registry m) !! KernelSpec.language spec) m)
      | None => m
      end
  | None => m
  end.

Definition getDescription (m : BlocklyManager) : option string :=
  _description m.

Definition setDescription (d : string) (m : BlocklyManager) : BlocklyManager :=
  emit description (with_description d m).

(** The constructor; the allow-list is still undefined when it runs the
    filter. *)
Definition new (registry : BlocklyRegistry) (sessionContext : ISessionContext)
  : BlocklyManager * completion unit :=
  match _filterToolbox
          (mkManager None "default" None None registry None sessionContext [])
  with
  | (m, Normal _) =>
      (mkManager (_description m) (_toolbox m) (_allowedBlocks m)
                 (generators (_registry m) !! "python")
                 (_registry m) (_selectedKernel m) (_sessionContext m) [],
       Normal tt)
  | (m, Throw) => (m, Throw)
  end.

End BlocklyManager.

(** ** The widget: [BlocklyPanel._load] and [BlocklyPanel._onSave] *)

(** JSON values as JavaScript sees them ([PartialJSONValue]); numbers are
    integral, an object is the list of its own keys. *)
#[warnings="-register-all"]
Inductive JSValue : Type :=
  | VUndefined
  | VNull
  | VBool (b : bool)
  | VNumber (n : Z)
  | VString (s : string)
  | VArray (l : list JSValue)
  | VObject (fields : list (string * JSValue)).

(** [v[k]] for a value [v] that is neither [null] nor [undefined], and a
    key [k] that no string, number, boolean or array has. *)
Definition get (v : JSValue) (k : string) : JSValue :=
  match v with
  | VObject fields =>
      match List.find (λ kv : string * JSValue, String.eqb kv.1 k) fields with
      | Some kv => kv.2
      | None => VUndefined
      end
  | _ => VUndefined
  end.


(** The truthiness of a value in a condition. *)
Definition truthy (v : JSValue) : bool :=
  match v with
  | VUndefined | VNull => false
  | VBool b => b
  | VNumber n => negb (n =? 0)%Z
  | VString s => negb (String.eqb s "")
  | VArray _ | VObject _ => true
  end.

(** The operands of a string concatenation; a value operand is converted
    by [ToString], which is not spelled out. *)
Inductive part : Type :=
  | Lit (s : string)
  | Val (v : JSValue).

(** What the user is shown. *)
Inductive effect : Type :=
  | showErrorMessage (title : string) (message : list part)
  | console_warn (message : list part).

(** [DocumentRegistry.SaveState] *)
Inductive SaveState : Type := started | completed | failed.

(** A [BlocklyPanel]: the document model as JSON, the manager, the
    workspace held by the layout, and the messages shown so far. *)
Record BlocklyPanel : Type := mkPanel {
  _context_model : JSValue;
  _manager : BlocklyManager;
  layout_workspace : JSValue;
  shown : list effect
}.

Definition set_workspace (w : JSValue) (p : BlocklyPanel) : BlocklyPanel :=
  mkPanel (_context_model p) (_manager p) w (shown p).

Definition set_manager (m : BlocklyManager) (p : BlocklyPanel) : BlocklyPanel :=
  mkPanel (_context_model p) m (layout_workspace p) (shown p).

Definition show (e : effect) (p : BlocklyPanel) : BlocklyPanel :=
  mkPanel (_context_model p) (_manager p) (layout_workspace p) (shown p ++ [e]).

Definition fromJSON (v : JSValue) (p : BlocklyPanel) : BlocklyPanel :=
  mkPanel v (_manager p) (layout_workspace p) (shown p).

(** The three messages of [_load]. *)
Definition unknown_toolbox (toolbox : JSValue) : effect :=
  showErrorMessage "Unknown toolbox"
    [Lit "The toolbox '"; Val toolbox;
     Lit "' is not available. Using default toolbox."].

Definition unknown_kernel (kernel : JSValue) : effect :=
  console_warn [Lit "Unknown kernel in blockly file: "; Val kernel].

Definition unsupported_format (fileFormat : JSValue) : effect :=
  showErrorMessage "Unsupported file format"
    [Lit "The file format '"; Val fileFormat;
     Lit "' is not supported by the Blockly editor."].

Section BlocklyPanel.

Variable filterContents :
  option (list string) → list ToolboxItemInfo →
  list ToolboxItemInfo * completion nat.

(** [listX().find(value => value.value === v)] is truthy *)
Definition find_value (l : list (string * string)) (v : JSValue) : bool :=
  match v with
  | VString s =>
      match List.find (λ value : string * string, String.eqb value.2 s) l with
      | Some _ => true
      | None => false
      end
  | _ => false
  end.

(** [if (metadata['toolbox']) { ... }] *)
Definition load_toolbox (metadata : JSValue) (p : BlocklyPanel)
  : BlocklyPanel * completion unit :=
  let toolbox := get metadata "toolbox" in
  if truthy toolbox then
    match toolbox with
    | VString name =>
        if find_value (listToolboxes (_manager p)) toolbox then
          let r := setToolbox filterContents name (_manager p) in
          (set_manager r.1 p, r.2)
        else (show (unknown_toolbox toolbox) p, Normal tt)
    | _ => (show (unknown_toolbox toolbox) p, Normal tt)
    end
  else (p, Normal tt).

(** [if (metadata['kernel'] && metadata['kernel'] !== 'No kernel') { ... }] *)
Definition load_kernel (metadata : JSValue) (p : BlocklyPanel) : BlocklyPanel :=
  let kernel := get metadata "kernel" in
  if truthy kernel then
    match kernel with
    | VString name =>
        if String.eqb name "No kernel" then p
        else if find_value (listKernels (_manager p)) kernel then
          set_manager (selectKernel name (_manager p)) p
        else show (unknown_kernel kernel) p
    | _ => show (unknown_kernel kernel) p
    end
  else p.

(** [_load]; [fileContent] is [this._context.model.toJSON()].  Reading a
    key of [null] throws. *)
Definition _load (p : BlocklyPanel) : BlocklyPanel * completion unit :=
  let fileContent := _context_model p in
  match fileContent with
  | VNull | VUndefined => (p, Throw)
  | _ =>
      let fileFormat := get fileContent "format" in
      match fileFormat with
      | VUndefined =>
          if truthy (get fileContent "blocks")
          then (set_workspace fileContent p, Normal tt)
          else (show (unsupported_format fileFormat) p, Normal tt)
      | VNumber 2 =>
          let p1 := set_workspace (get fileContent "workspace") p in
          let metadata := get fileContent "metadata" in
          if truthy metadata then
            match load_toolbox metadata p1 with
            | (p2, Normal _) => (load_kernel metadata p2, Normal tt)
            | (p2, Throw) => (p2, Throw)
            end
          else (p1, Normal tt)
      | _ => (show (unsupported_format fileFormat) p, Normal tt)
      end
  end.

(** [_onSave] *)
Definition _onSave (state : SaveState) (p : BlocklyPanel) : BlocklyPanel :=
  match state with
  | started =>
      let workspace := layout_workspace p in
      let fileContent :=
        VObject
          [("format", VNumber 2);
           ("workspace", workspace);
           ("metadata",
             VObject [("toolbox", VString (getToolbox (_manager p)));
                      ("kernel", VString (get_kernel (_manager p)))])] in
      fromJSON fileContent p
  | _ => p
  end.

End BlocklyPanel.

(** Modelled from the spec: the session, whose code is not part of the
    sources, answers a [changeKernel] request it accepts by the
    kernel-changed notification for the requested kernel ("state updates
    arrive asynchronously via Session Binding's notification once the
    session confirms the switch"). *)
Definition session_confirms (name : string) (m : BlocklyManager)
  : BlocklyManager :=
  _onKernelChanged
    (mkArgs (KernelSpec.name <$> _selectedKernel m) (Some name)) m.

(** ** Notions used in the statements, and examples *)

(** An allow-list of lower-case identifiers. *)
Definition lowercase (l : list string) : Prop :=
  Forall (λ a, toLowerCase a = a) l.

(** What the empty allow-list leaves in an item, by variant;
    [dynamic_flag] is the key a revision writes on a dynamic category. *)
Definition emptied (dynamic_flag : ToolboxItemInfo → option flag)
    (s : shape) (it it' : ToolboxItemInfo) : Prop :=
  match s with
  | Block _ =>
      disabled it' = Some (FBool true) ∧
      disabledReasons it' = Some ["This block is not allowed"]
  | Category => hidden it' = Some (FStr "true")
  | DynamicCategory _ => dynamic_flag it' = Some (FStr "true")
  | Separator => hidden it' = Some (FBool true)
  | Unknown => it' = it
  end.

(** A toolbox used in the examples: three blocks with two separators
    between them, and a category. *)
Definition example_block (t : string) : ToolboxItemInfo :=
  mkItem (Some "BLOCK") (Some t) None None None None None.

Definition example_separator : ToolboxItemInfo :=
  mkItem (Some "SEP") None None None None None None.

Definition example_category (cs : list ToolboxItemInfo) : ToolboxItemInfo :=
  mkItem (Some "CATEGORY") None None (Some cs) None None None.

Definition example_dynamic (c : string) : ToolboxItemInfo :=
  mkItem (Some "CATEGORY") None (Some c) None None None None.

Definition example_toolbox : list ToolboxItemInfo :=
  [example_block "a"; example_separator; example_block "b";
   example_separator; example_block "c";
   example_category [example_block "a"; example_block "c"];
   example_dynamic "variable"].

Definition python_spec : KernelSpec.ISpecModel :=
  KernelSpec.mkSpec "python3" "python" "Python 3".

Definition julia_spec : KernelSpec.ISpecModel :=
  KernelSpec.mkSpec "julia" "julia" "Julia".

Definition example_session : ISessionContext :=
  mkSession (<["python3" := python_spec]> (<["julia" := julia_spec]> ∅)) [].

Definition example_registry : BlocklyRegistry :=
  mkRegistry (<["default" := example_toolbox]> ∅)
             (<["python" := mkGenerator "Python"]> ∅).

Definition example_manager : BlocklyManager :=
  mkManager None "default" None None example_registry None example_session [].

Definition example_document : JSValue :=
  VObject
    [("format", VNumber 2);
     ("workspace", VObject [("blocks", VObject [])]);
     ("metadata",
       VObject [("toolbox", VString "missing"); ("kernel", VString "julia")])].


Definition robot_registry : BlocklyRegistry :=
  mkRegistry
    (<["robot" := [example_block "move"]]>
       (<["" := []]> (<["default" := example_toolbox]> ∅)))
    (<["python" := mkGenerator "Python"]> ∅).

(** A kernel spec that carries the name the manager uses for "none". *)
Definition sentinel_spec : KernelSpec.ISpecModel :=
  KernelSpec.mkSpec "No kernel" "python" "Python (unnamed)".

Definition robot_session : ISessionContext :=
  mkSession
    (<["python3" := python_spec]> (<["No kernel" := sentinel_spec]> ∅)) [].

(** The panel that saves: toolbox [t], kernel [k]. *)
Definition saving_panel (t : string) (k : KernelSpec.ISpecModel)
  : BlocklyPanel :=
  mkPanel VNull
    (mkManager None t None (Some (mkGenerator "Python")) robot_registry
       (Some k) robot_session [])
    (VObject [("blocks", VObject [])]) [].

(** A panel that loads: default toolbox, no kernel yet. *)
Definition loading_panel : BlocklyPanel :=
  mkPanel VNull
    (mkManager None "default" None (Some (mkGenerator "Python")) robot_registry
       None robot_session [])
    VUndefined [].

(** ** Notions used in the further properties *)

(** What the filter reads of an item: the item without the three keys the
    filter writes, at every depth. *)
Fixpoint skeleton (it : ToolboxItemInfo) : ToolboxItemInfo :=
  mkItem (kind it) (type it) (custom it)
         (match contents it with
          | Some cs => Some (List.map skeleton cs)
          | None => None
          end)
         None None None.

(** The second allow-list permits whatever the first permits; the
    undefined allow-list permits everything. *)
Definition allow_le (a a' : option (list string)) : Prop :=
  match a', a with
  | None, _ => True
  | Some l', Some l => l ⊆ l'
  | Some _, None => False
  end.



(** [get toolbox()]: [this._registry.toolboxes.get(this._toolbox)] *)
Definition get_toolbox (m : BlocklyManager) : option (list ToolboxItemInfo) :=
  toolboxes (_registry m) !! _toolbox m.

(** [get mimeType()]; [getMimeTypeByLanguage] is the method of the
    editor's mime-type service, called with [{name: language}]. *)
Definition get_mimeType (getMimeTypeByLanguage : string → string)
    (m : BlocklyManager) : string :=
  match _selectedKernel m with
  | Some k => getMimeTypeByLanguage (KernelSpec.language k)
  | None => "text/plain"
  end.

(** The calls a manager receives during its life: its public methods that
    change something, and the session's kernel-changed signal
    ([setDescription] is a method of [manager.ts] only). *)
Inductive call : Type :=
  | call_setToolbox (name : string)
  | call_setAllowedBlocks (allowedBlocks : option (list string))
  | call_selectKernel (name : string)
  | call_setDescription (d : string)
  | signal_kernelChanged (args : IChangedArgs).

(** The manager after a call.  A call that throws leaves the object as it
    was when the exception left the method. *)
Definition perform
    (F : option (list string) → list ToolboxItemInfo →
         list ToolboxItemInfo * completion nat)
    (c : call) (m : BlocklyManager) : BlocklyManager :=
  match c with
  | call_setToolbox name => (setToolbox F name m).1
  | call_setAllowedBlocks a => (setAllowedBlocks F a m).1
  | call_selectKernel name => selectKernel name m
  | call_setDescription d => setDescription d m
  | signal_kernelChanged args => _onKernelChanged args m
  end.

Definition perform_all
    (F : option (list string) → list ToolboxItemInfo →
         list ToolboxItemInfo * completion nat)
    (cs : list call) (m : BlocklyManager) : BlocklyManager :=
  foldl (λ m c, perform F c m) m cs.

(** The signal a call emits, when it emits one. *)
Definition signal_of (c : call) : option Change :=
  match c with
  | call_setToolbox _ | call_setAllowedBlocks _ => Some toolbox
  | call_selectKernel _ => None
  | call_setDescription _ => Some description
  | signal_kernelChanged _ => Some kernel
  end.

(** The generator is the one registered for the language of the selected
    kernel, for python while no kernel is selected. *)
Definition generator_bound (m : BlocklyManager) : Prop :=
  _generator m =
  generators (_registry m) !!
    match _selectedKernel m with
    | Some k => KernelSpec.language k
    | None => "python"
    end.

(** The manager that the constructor returns, after a sequence of
    calls.  The registry and the session's catalogue are written by these
    calls only. *)
Definition manager_after
    (F : option (list string) → list ToolboxItemInfo →
         list ToolboxItemInfo * completion nat)
    (registry : BlocklyRegistry) (sessionContext : ISessionContext)
    (cs : list call) : BlocklyManager :=
  perform_all F cs (new F registry sessionContext).1.

(** * Facts *)

(** ** Induction on the toolbox tree *)

Lemma item_ind' (P : ToolboxItemInfo → Prop) :
  (∀ it, (∀ cs, contents it = Some cs → Forall P cs) → P it) →
  ∀ it, P it.
Proof.
  intros step. fix IH 1. intros it. apply step.
  destruct it as [k ty cu [cs0|] h d dr]; simpl; intros cs Hcs;
    [injection Hcs as <- | discriminate].
  induction cs0 as [|c r IHr]; constructor; [apply IH | exact IHr].
Qed.

(** ** [forEach] *)

Section forEach_facts.
Context {A St : Type} (f : St → A → A * St).

Lemma forEach_cons x r s :
  forEach f (x :: r) s =
  ((f s x).1 :: (forEach f r (f s x).2).1, (forEach f r (f s x).2).2).
Proof.
  simpl. destruct (f s x) as [x' s1]. simpl.
  destruct (forEach f r s1) as [r' s2]. reflexivity.
Qed.

Lemma forEach_length l s : length (forEach f l s).1 = length l.
Proof.
  revert s. induction l as [|x r IH]; intros s; [reflexivity|].
  rewrite forEach_cons. simpl. by rewrite IH.
Qed.

Lemma state_before_0 l s : state_before f l s 0 = s.
Proof. unfold state_before. by rewrite take_0. Qed.

Lemma state_before_S x r s i :
  state_before f (x :: r) s (S i) = state_before f r (f s x).2 i.
Proof.
  unfold state_before. rewrite firstn_cons, forEach_cons. reflexivity.
Qed.

Lemma forEach_lookup l s i :
  (forEach f l s).1 !! i = (λ x, (f (state_before f l s i) x).1) <$> (l !! i).
Proof.
  revert s i. induction l as [|x r IH]; intros s i; [by destruct i|].
  rewrite forEach_cons. destruct i as [|i].
  - by rewrite state_before_0.
  - rewrite state_before_S. apply IH.
Qed.

Lemma forEach_elem l s x' :
  x' ∈ (forEach f l s).1 → ∃ x s', x ∈ l ∧ x' = (f s' x).1.
Proof.
  intros [i Hi]%list_elem_of_lookup. rewrite forEach_lookup in Hi.
  destruct (l !! i) as [x|] eqn:Hx; simplify_eq/=.
  exists x, (state_before f l s i). split; [|reflexivity].
  apply list_elem_of_lookup. eauto.
Qed.

(** Running the loop again on its own output changes nothing, when the
    callback has that property on every element. *)
Lemma forEach_idem l :
  Forall (λ x, ∀ s, f s (f s x).1 = f s x) l →
  ∀ s, forEach f (forEach f l s).1 s = forEach f l s.
Proof.
  induction 1 as [|x r Hx _ IH]; intros s; [reflexivity|].
  rewrite (forEach_cons x r s). simpl fst.
  rewrite forEach_cons, Hx, IH. reflexivity.
Qed.
End forEach_facts.

(** ** The filter of the second revision *)

Section part000_facts.
Import Part000.

Lemma part000_visit_unfold allow st it :
  visit allow st it =
  match contents it with
  | Some cs =>
      let r := forEach (visit allow) cs (mkCounters 0 0) in
      if (0 <? visible r.2)%nat
      then (set_hidden (FStr "false") (with_contents r.1 it), incr st)
      else (set_hidden (FStr "true") (with_contents r.1 it), st)
  | None =>
      match classify it with
      | Block (Some t) =>
          if allowed allow t then (enable_block it, incr st)
          else (disable_block it, st)
      | DynamicCategory c =>
          if allowed allow c then (set_disabled (FStr "false") it, incr st)
          else (set_disabled (FStr "true") it, st)
      | Separator => visit_separator st it
      | _ => (it, st)
      end
  end.
Proof.
  destruct it as [k ty cu [cs|] h d dr]; simpl.
  - destruct (forEach (visit allow) cs (mkCounters 0 0)); reflexivity.
  - unfold classify; simpl. destruct ty as [t|]; [reflexivity|].
    destruct (if kind_is _ "CATEGORY" then cu else None); [reflexivity|].
    destruct (kind_is _ "SEP"); reflexivity.
Qed.

Lemma part000_classify_category it :
  classify it = Category ↔ is_Some (contents it).
Proof.
  unfold classify. destruct (contents it) as [cs|].
  - split; eauto.
  - split; [|intros [? ?]; discriminate].
    destruct (type it); [discriminate|].
    destruct (if kind_is it "CATEGORY" then custom it else None);
      [discriminate|]. destruct (kind_is it "SEP"); discriminate.
Qed.

Lemma part000_classify_not_category it :
  contents it = None → classify it ≠ Category.
Proof. intros H Hc. apply part000_classify_category in Hc as [? ?]. congruence. Qed.

Lemma part000_classify_block_typed it o : classify it = Block o → ∃ t, o = Some t.
Proof.
  unfold classify. destruct (contents it); [discriminate|].
  destruct (type it) as [t|]; [intros [= <-]; eauto|].
  destruct (if kind_is it "CATEGORY" then custom it else None);
    [discriminate|]. destruct (kind_is it "SEP"); discriminate.
Qed.

(** The filter writes [hidden], [disabled], [disabledReasons] and the
    children only: the branch an item takes does not change. *)
Lemma part000_classify_same it it' :
  kind it' = kind it → type it' = type it → custom it' = custom it →
  (is_Some (contents it') ↔ is_Some (contents it)) →
  classify it' = classify it.
Proof.
  intros Hk Ht Hc Hcs. unfold classify, kind_is. rewrite Hk, Ht, Hc.
  destruct (contents it') as [cs'|], (contents it) as [cs|]; try reflexivity.
  - destruct Hcs as [[? Hcs] _]; [eauto | discriminate].
  - destruct Hcs as [_ [? Hcs]]; [eauto | discriminate].
Qed.

Lemma part000_classify_visit allow st it :
  classify (visit allow st it).1 = classify it.
Proof.
  rewrite part000_visit_unfold. destruct (contents it) as [cs|] eqn:Hcs.
  - cbv zeta. case_match; simpl; apply part000_classify_same; simpl; try done;
      rewrite Hcs; split; eauto.
  - destruct (classify it) as [|c|[t|]| |] eqn:Hcl;
      repeat case_match; try reflexivity;
      try (unfold visit_separator; case_match);
      simpl; rewrite <- Hcl; by apply part000_classify_same.
Qed.

Lemma part000_contents_visit allow st it :
  contents (visit allow st it).1 =
  (λ cs, (forEach (visit allow) cs (mkCounters 0 0)).1) <$> contents it.
Proof.
  rewrite part000_visit_unfold. destruct (contents it) as [cs|] eqn:Hcs.
  - cbv zeta. case_match; reflexivity.
  - repeat case_match; try (unfold visit_separator; case_match);
      simpl; by rewrite ?Hcs.
Qed.

(** Every node of the tree is visited once; the node found at a path
    after the run is the node found there before, as the callback left
    it. *)
Lemma part000_node_at_filter allow p : ∀ l st,
  node_at children p (forEach (visit allow) l st).1 =
  (λ it, (visit allow (state_at allow p l st) it).1) <$> node_at children p l.
Proof.
  induction p as [|i q IH]; intros l st; [reflexivity|].
  cbn [node_at state_at]. rewrite forEach_lookup.
  destruct (l !! i) as [it|] eqn:Hi; [|reflexivity]. cbn [fmap option_fmap option_map].
  destruct q as [|j q]; [reflexivity|].
  unfold children at 1 3 4. rewrite part000_contents_visit. cbn [mbind option_bind].
  destruct (contents it) as [cs|]; [|reflexivity].
  cbn [fmap option_fmap option_map]. apply IH.
Qed.

Lemma part000_array_at_filter allow p l :
  array_at children p (forEach (visit allow) l (mkCounters 0 0)).1 =
  (λ cs, (forEach (visit allow) cs (mkCounters 0 0)).1) <$> array_at children p l.
Proof.
  destruct p as [|i q]; [reflexivity|].
  unfold array_at. rewrite part000_node_at_filter.
  destruct (node_at children (i :: q) l) as [it|]; [|reflexivity].
  simpl. unfold children. by rewrite part000_contents_visit.
Qed.

Lemma part000_filter_fst allow l :
  (_filterContents allow l).1 = (forEach (visit allow) l (mkCounters 0 0)).1.
Proof.
  unfold _filterContents. by destruct (forEach _ _ _).
Qed.

(** What the callback leaves in an item of each variant. *)
Lemma part000_visit_category allow st it cs :
  contents it = Some cs →
  let r := forEach (visit allow) cs (mkCounters 0 0) in
  visit allow st it =
  if (0 <? visible r.2)%nat
  then (set_hidden (FStr "false") (with_contents r.1 it), incr st)
  else (set_hidden (FStr "true") (with_contents r.1 it), st).
Proof. intros Hcs. rewrite part000_visit_unfold, Hcs. reflexivity. Qed.

Lemma part000_visit_block allow st it t :
  classify it = Block (Some t) →
  visit allow st it =
  if allowed allow t then (enable_block it, incr st) else (disable_block it, st).
Proof.
  intros Hcl. rewrite part000_visit_unfold, Hcl.
  destruct (contents it) eqn:Hcs; [|reflexivity].
  assert (classify it = Category) by (apply part000_classify_category; eauto).
  congruence.
Qed.

Lemma part000_visit_dynamic allow st it c :
  classify it = DynamicCategory c →
  visit allow st it =
  if allowed allow c then (set_disabled (FStr "false") it, incr st)
  else (set_disabled (FStr "true") it, st).
Proof.
  intros Hcl. rewrite part000_visit_unfold, Hcl.
  destruct (contents it) eqn:Hcs; [|reflexivity].
  assert (classify it = Category) by (apply part000_classify_category; eauto).
  congruence.
Qed.

Lemma part000_visit_sep allow st it :
  classify it = Separator → visit allow st it = visit_separator st it.
Proof.
  intros Hcl. rewrite part000_visit_unfold, Hcl.
  destruct (contents it) eqn:Hcs; [|reflexivity].
  assert (classify it = Category) by (apply part000_classify_category; eauto).
  congruence.
Qed.

Lemma part000_visit_unknown allow st it :
  classify it = Unknown → visit allow st it = (it, st).
Proof.
  intros Hcl. rewrite part000_visit_unfold, Hcl.
  destruct (contents it) eqn:Hcs; [|reflexivity].
  assert (classify it = Category) by (apply part000_classify_category; eauto).
  congruence.
Qed.

(** The counter [visible] goes up by one exactly on the items that are
    left visible. *)
Lemma part000_visit_visible allow st it :
  visible (visit allow st it).2 =
  visible st + (if unit_visible (visit allow st it).1 then 1 else 0).
Proof.
  unfold unit_visible, leaf_visible. rewrite part000_classify_visit.
  destruct (classify it) as [|c|o| |] eqn:Hcl.
  - apply part000_classify_category in Hcl as [cs Hcs].
    rewrite (part000_visit_category _ _ _ _ Hcs). cbv zeta.
    case_match; simpl; lia.
  - rewrite (part000_visit_dynamic _ _ _ _ Hcl). case_match; simpl; lia.
  - destruct (part000_classify_block_typed _ _ Hcl) as [t ->].
    rewrite (part000_visit_block _ _ _ _ Hcl). case_match; simpl; lia.
  - rewrite (part000_visit_sep _ _ _ Hcl). unfold visit_separator.
    case_match; simpl; lia.
  - rewrite (part000_visit_unknown _ _ _ Hcl). simpl; lia.
Qed.

Lemma part000_forEach_visible allow l : ∀ st,
  visible (forEach (visit allow) l st).2 =
  visible st + count_visible (forEach (visit allow) l st).1.
Proof.
  induction l as [|x r IH]; intros st; [simpl; unfold count_visible; simpl; lia|].
  rewrite forEach_cons. cbn [fst snd]. rewrite IH, part000_visit_visible.
  unfold count_visible. simpl. case_match; simpl; lia.
Qed.

Lemma count_pos_sum (b : ToolboxItemInfo → bool) (w : ToolboxItemInfo → nat) l :
  Forall (λ x, b x = (0 <? w x)%nat) l →
  (0 <? length (List.filter b l))%nat = (0 <? sum_list (List.map w l))%nat.
Proof.
  induction 1 as [|x r Hx _ IH]; [reflexivity|].
  simpl. rewrite Hx.
  destruct (0 <? w x)%nat eqn:Hw; simpl.
  - apply Nat.ltb_lt in Hw. symmetry. apply Nat.ltb_lt. lia.
  - apply Nat.ltb_ge in Hw. rewrite IH. f_equal. lia.
Qed.

(** A visited item counts as visible exactly when a visible leaf lies at
    or below it. *)
Lemma part000_unit_visible_leaves allow it : ∀ st,
  unit_visible (visit allow st it).1 =
  (0 <? visible_leaves (visit allow st it).1)%nat.
Proof.
  induction it as [it IH] using item_ind'. intros st.
  destruct (contents it) as [cs|] eqn:Hcs.
  - specialize (IH cs eq_refl).
    assert (Hcl : classify (visit allow st it).1 = Category).
    { rewrite part000_classify_visit. apply part000_classify_category. eauto. }
    unfold unit_visible. rewrite Hcl.
    rewrite (part000_visit_category _ _ _ _ Hcs). cbv zeta.
    rewrite part000_forEach_visible. cbn [visible]. rewrite Nat.add_0_l.
    unfold count_visible.
    assert (Hsum : (0 <? length (List.filter unit_visible
                        (forEach (visit allow) cs (mkCounters 0 0)).1))%nat =
                   (0 <? sum_list (List.map visible_leaves
                        (forEach (visit allow) cs (mkCounters 0 0)).1))%nat).
    { apply count_pos_sum. apply Forall_forall. intros x' Hx'.
      apply forEach_elem in Hx' as (x & s' & Hx & ->).
      rewrite Forall_forall in IH. by apply IH. }
    rewrite Hsum. case_match; simpl; rewrite ?H; reflexivity.
  - assert (Hn : contents (visit allow st it).1 = None)
      by (by rewrite part000_contents_visit, Hcs).
    assert (Hcl : classify (visit allow st it).1 ≠ Category)
      by (by apply part000_classify_not_category).
    destruct (visit allow st it).1 as [k ty cu cs' h d dr] eqn:Hv.
    simpl in Hn; subst cs'. cbn [visible_leaves contents].
    unfold unit_visible in *. destruct (classify _); try done;
      by case_match.
Qed.

(** *** Separators *)

Lemma part000_visit_lastSeparator allow st it :
  classify it ≠ Separator →
  lastSeparator (visit allow st it).2 = lastSeparator st.
Proof.
  intros Hns. destruct (classify it) as [|c|o| |] eqn:Hcl; [| | |done|].
  - apply part000_classify_category in Hcl as [cs Hcs].
    rewrite (part000_visit_category _ _ _ _ Hcs). cbv zeta. by case_match.
  - rewrite (part000_visit_dynamic _ _ _ _ Hcl). by case_match.
  - destruct (part000_classify_block_typed _ _ Hcl) as [t ->].
    rewrite (part000_visit_block _ _ _ _ Hcl). by case_match.
  - by rewrite (part000_visit_unknown _ _ _ Hcl).
Qed.

Lemma part000_visible_separator_classify it :
  classify it ≠ Separator → visible_separator it = false.
Proof. unfold visible_separator. by destruct (classify it). Qed.

Lemma part000_unit_visible_separator it :
  classify it = Separator → unit_visible it = false.
Proof. unfold unit_visible, leaf_visible. by intros ->. Qed.

Lemma part000_scan_no_redundant allow l : ∀ st seen,
  (lastSeparator st ≤ visible st)%nat →
  (lastSeparator st ≠ visible st → seen = true) →
  no_redundant_separator seen (forEach (visit allow) l st).1 = true.
Proof.
  induction l as [|x r IH]; intros st seen Hle Hseen; [reflexivity|].
  rewrite forEach_cons. cbn [fst no_redundant_separator].
  destruct (decide (classify x = Separator)) as [Hcl|Hcl].
  - rewrite (part000_visit_sep _ _ _ Hcl). unfold visit_separator.
    destruct (lastSeparator st =? visible st)%nat eqn:Heq; cbn [fst snd].
    + assert (Hv : visible_separator (set_hidden (FBool true) x) = false).
      { unfold visible_separator, separator_hidden.
        replace (classify (set_hidden (FBool true) x)) with (classify x)
          by (symmetry; by apply part000_classify_same).
        rewrite Hcl. reflexivity. }
      rewrite Hv, part000_unit_visible_separator, orb_false_r.
      * by apply IH.
      * rewrite <- Hcl. by apply part000_classify_same.
    + apply Nat.eqb_neq in Heq. rewrite (Hseen Heq).
      destruct (visible_separator x); cbn [andb orb];
        apply IH; cbn [visible lastSeparator]; done.
  - rewrite part000_visible_separator_classify by (by rewrite part000_classify_visit).
    apply IH.
    + rewrite part000_visit_lastSeparator, part000_visit_visible by done. lia.
    + rewrite part000_visit_lastSeparator, part000_visit_visible by done.
      destruct (unit_visible _); [by rewrite orb_true_r|].
      rewrite Nat.add_0_r, orb_false_r. exact Hseen.
Qed.

Lemma part000_scan_exact allow l : ∀ st seen,
  (lastSeparator st ≤ visible st)%nat →
  seen = negb (lastSeparator st =? visible st)%nat →
  Forall (λ x, classify x = Separator → separator_hidden x = false) l →
  separators_exact seen (forEach (visit allow) l st).1 = true.
Proof.
  induction l as [|x r IH]; intros st seen Hle Hseen Hfresh; [reflexivity|].
  apply Forall_cons in Hfresh as [Hx Hr].
  rewrite forEach_cons. cbn [fst separators_exact]. rewrite part000_classify_visit.
  destruct (decide (classify x = Separator)) as [Hcl|Hcl].
  - rewrite Hcl, (part000_visit_sep _ _ _ Hcl). unfold visit_separator.
    destruct (lastSeparator st =? visible st)%nat eqn:Heq; cbn [fst snd].
    + unfold separator_hidden at 1. cbn [hidden set_hidden].
      rewrite bool_decide_eq_true_2 by done. subst seen. cbn [negb andb].
      apply IH; [done | by rewrite Heq | done].
    + rewrite (Hx Hcl). subst seen. cbn [negb andb].
      apply IH; cbn [visible lastSeparator]; [done| |done].
      by rewrite Nat.eqb_refl.
  - assert (Hgoal : separators_exact
              (seen || unit_visible (visit allow st x).1)
              (forEach (visit allow) r (visit allow st x).2).1 = true).
    { apply IH; [| |done].
      - rewrite part000_visit_lastSeparator, part000_visit_visible by done. lia.
      - rewrite part000_visit_lastSeparator, part000_visit_visible by done. subst seen.
        destruct (unit_visible _).
        + rewrite orb_true_r. symmetry. apply negb_true_iff, Nat.eqb_neq. lia.
        + by rewrite Nat.add_0_r, orb_false_r. }
    destruct (classify x); done.
Qed.

(** The elements of the array at a path are the nodes one step below. *)
Lemma part000_array_at_lookup p : ∀ l cs i x,
  array_at children p l = Some cs → cs !! i = Some x →
  node_at children (p ++ [i])%list l = Some x.
Proof.
  induction p as [|j q IH]; intros l cs i x Harr Hx.
  - injection Harr as ->. simpl. by rewrite Hx.
  - cbn [array_at] in Harr. cbn [app node_at] in *.
    destruct (l !! j) as [it|]; [|done].
    destruct q as [|j' q].
    + cbn [mbind option_bind] in Harr. cbn [app]. rewrite Harr.
      simpl. by rewrite Hx.
    + destruct (children it) as [cs0|]; [|done].
      cbn [mbind option_bind] in IH.
      specialize (IH cs0 cs i x Harr Hx). exact IH.
Qed.

(** *** The empty allow-list *)

Lemma forEach_fixed_state {A St : Type} (f : St → A → A * St) (s0 : St) l :
  Forall (λ x, (f s0 x).2 = s0) l → (forEach f l s0).2 = s0.
Proof.
  induction 1 as [|x r Hx _ IH]; [reflexivity|].
  rewrite forEach_cons. cbn [snd]. by rewrite Hx.
Qed.

Lemma part000_visit_empty_state it :
  (visit (Some []) (mkCounters 0 0) it).2 = mkCounters 0 0.
Proof.
  induction it as [it IH] using item_ind'.
  destruct (classify it) as [|c|o| |] eqn:Hcl.
  - apply part000_classify_category in Hcl as [cs Hcs].
    rewrite (part000_visit_category _ _ _ _ Hcs). cbv zeta.
    rewrite (forEach_fixed_state _ _ _ (IH cs Hcs)). reflexivity.
  - by rewrite (part000_visit_dynamic _ _ _ _ Hcl).
  - destruct (part000_classify_block_typed _ _ Hcl) as [t ->].
    by rewrite (part000_visit_block _ _ _ _ Hcl).
  - by rewrite (part000_visit_sep _ _ _ Hcl).
  - by rewrite (part000_visit_unknown _ _ _ Hcl).
Qed.

Lemma part000_forEach_empty_state l :
  (forEach (visit (Some [])) l (mkCounters 0 0)).2 = mkCounters 0 0.
Proof.
  apply forEach_fixed_state, Forall_forall. intros x _.
  apply part000_visit_empty_state.
Qed.

Lemma part000_state_at_empty p : ∀ l,
  state_at (Some []) p l (mkCounters 0 0) = mkCounters 0 0.
Proof.
  induction p as [|i q IH]; intros l; [reflexivity|].
  cbn [state_at]. destruct q as [|j q].
  - unfold state_before. apply part000_forEach_empty_state.
  - destruct (l !! i ≫= children); [apply IH | reflexivity].
Qed.

(** *** Running the filter again *)

Lemma part000_visit_idem allow it : ∀ st,
  visit allow st (visit allow st it).1 = visit allow st it.
Proof.
  induction it as [it IH] using item_ind'. intros st.
  destruct (classify it) as [|c|o| |] eqn:Hcl.
  - apply part000_classify_category in Hcl as [cs Hcs].
    pose proof (forEach_idem (visit allow) cs (IH cs Hcs) (mkCounters 0 0))
      as Hcs'.
    rewrite (part000_visit_category _ _ _ _ Hcs). cbv zeta.
    destruct (0 <? visible (forEach (visit allow) cs (mkCounters 0 0)).2)%nat
      eqn:Hpos; cbn [fst];
      erewrite part000_visit_category by reflexivity; cbv zeta;
      rewrite Hcs', Hpos; reflexivity.
  - rewrite (part000_visit_dynamic _ _ _ _ Hcl).
    destruct (allowed allow c) eqn:Ha; cbn [fst];
      erewrite part000_visit_dynamic
        by (rewrite <- Hcl; by apply part000_classify_same);
      rewrite Ha; reflexivity.
  - destruct (part000_classify_block_typed _ _ Hcl) as [t ->].
    rewrite (part000_visit_block _ _ _ _ Hcl).
    destruct (allowed allow t) eqn:Ha; cbn [fst];
      erewrite part000_visit_block
        by (rewrite <- Hcl; by apply part000_classify_same);
      rewrite Ha; reflexivity.
  - rewrite (part000_visit_sep _ _ _ Hcl). unfold visit_separator.
    destruct (lastSeparator st =? visible st)%nat eqn:Heq; cbn [fst].
    + rewrite part000_visit_sep by (rewrite <- Hcl; by apply part000_classify_same).
      unfold visit_separator. rewrite Heq. reflexivity.
    + rewrite (part000_visit_sep _ _ _ Hcl). unfold visit_separator.
      rewrite Heq. reflexivity.
  - rewrite (part000_visit_unknown _ _ _ Hcl). cbn [fst].
    by rewrite (part000_visit_unknown _ _ _ Hcl).
Qed.

Lemma part000_filter_idem allow l :
  _filterContents allow (_filterContents allow l).1 = _filterContents allow l.
Proof.
  rewrite part000_filter_fst. unfold _filterContents at 1 2.
  rewrite forEach_idem; [reflexivity|].
  apply Forall_forall. intros x _. apply part000_visit_idem.
Qed.

(** *** A hidden separator stays hidden *)

Lemma part000_visit_separator_cases st it :
  (visit_separator st it).1 = it ∨
  (visit_separator st it).1 = set_hidden (FBool true) it.
Proof. unfold visit_separator. case_match; eauto. Qed.

Lemma part000_node_at_filter_separator allow l p it :
  node_at children p l = Some it → classify it = Separator →
  ∃ it', node_at children p (_filterContents allow l).1 = Some it' ∧
         classify it' = Separator ∧
         (it' = it ∨ it' = set_hidden (FBool true) it).
Proof.
  intros Hp Hcl. rewrite part000_filter_fst, part000_node_at_filter, Hp.
  eexists; split; [reflexivity|]. split; [by rewrite part000_classify_visit|].
  rewrite (part000_visit_sep _ _ _ Hcl). apply part000_visit_separator_cases.
Qed.

Lemma part000_hidden_separator_stays allows : ∀ l p it,
  node_at children p l = Some it → classify it = Separator →
  hidden it = Some (FBool true) →
  ∃ it', node_at children p (filter_runs allows l) = Some it' ∧
         classify it' = Separator ∧ hidden it' = Some (FBool true).
Proof.
  induction allows as [|allow allows IH]; intros l p it Hp Hcl Hh.
  - exists it. done.
  - cbn [filter_runs foldl].
    destruct (part000_node_at_filter_separator allow l p it Hp Hcl)
      as (it' & Hp' & Hcl' & Hit').
    apply (IH _ p it'); [done..|].
    destruct Hit' as [-> | ->]; done.
Qed.

End part000_facts.

(** ** The filter of [manager.ts] *)

Section forEachE_facts.
Context {A St : Type} (f : St → A → A * completion St).

Lemma forEachE_cons x r s :
  forEachE f (x :: r) s =
  match (f s x).2 with
  | Normal s1 => ((f s x).1 :: (forEachE f r s1).1, (forEachE f r s1).2)
  | Throw => ((f s x).1 :: r, Throw)
  end.
Proof.
  simpl. destruct (f s x) as [x' [s1|]]; simpl; [|reflexivity].
  destruct (forEachE f r s1); reflexivity.
Qed.

Lemma forEachE_idem l :
  Forall (λ x, ∀ s, f s (f s x).1 = f s x) l →
  ∀ s, forEachE f (forEachE f l s).1 s = forEachE f l s.
Proof.
  induction 1 as [|x r Hx _ IH]; intros s; [reflexivity|].
  rewrite (forEachE_cons x r s).
  destruct (f s x).2 as [s1|] eqn:Hc; cbn [fst];
    rewrite forEachE_cons, Hx, Hc; [|reflexivity].
  rewrite IH. reflexivity.
Qed.

(** A loop that completes has visited every element. *)
Lemma forEachE_normal_inv x r s n :
  (forEachE f (x :: r) s).2 = Normal n →
  ∃ s1, (f s x).2 = Normal s1 ∧ (forEachE f r s1).2 = Normal n ∧
        (forEachE f (x :: r) s).1 = (f s x).1 :: (forEachE f r s1).1.
Proof.
  rewrite forEachE_cons. destruct (f s x).2 as [s1|]; [|done].
  intros H. exists s1. done.
Qed.
End forEachE_facts.

Section manager_filter_facts.
Import Manager.

Lemma manager_classify_category it :
  classify it = Category ↔
  kind_is it "CATEGORY" = true ∧ is_Some (contents it).
Proof.
  unfold classify. destruct (kind_is it "CATEGORY").
  - destruct (contents it) as [cs|].
    + split; eauto.
    + split; [by destruct (custom it)|]. intros [_ [? ?]]. done.
  - split; [by destruct (kind_is it "BLOCK")|]. by intros [? _].
Qed.

Lemma manager_children_category it :
  children it = if decide (classify it = Category) then contents it else None.
Proof.
  unfold children. case_decide as Hcl.
  - apply manager_classify_category in Hcl as [-> _]. reflexivity.
  - destruct (kind_is it "CATEGORY") eqn:Hk; [|reflexivity].
    destruct (contents it) eqn:Hcs; [|reflexivity].
    destruct Hcl. apply manager_classify_category. rewrite Hcs. eauto.
Qed.

Lemma manager_visit_category allow v it cs :
  classify it = Category → contents it = Some cs →
  visit allow v it =
  let r := forEachE (visit allow) cs 0 in
  match r.2 with
  | Normal n =>
      if (0 <? n)%nat
      then (set_hidden (FStr "false") (with_contents r.1 it), Normal (S v))
      else (set_hidden (FStr "true") (with_contents r.1 it), Normal v)
  | Throw => (with_contents r.1 it, Throw)
  end.
Proof.
  intros [Hk _]%manager_classify_category Hcs.
  destruct it as [k ty cu cs0 h d dr]. simpl in Hcs. subst cs0.
  cbn [visit]. rewrite Hk. cbn [contents].
  destruct (forEachE (visit allow) cs 0) as [cs' [n|]]; reflexivity.
Qed.

Lemma manager_visit_dynamic allow v it c :
  classify it = DynamicCategory c →
  visit allow v it =
  if allowed allow c then (set_hidden (FStr "false") it, Normal (S v))
  else (set_hidden (FStr "true") it, Normal v).
Proof.
  unfold classify. destruct it as [k ty cu cs h d dr]. cbn [visit].
  destruct (kind_is _ "CATEGORY").
  - cbn [contents custom]. destruct cs; [done|].
    destruct cu; [|done]. by intros [= ->].
  - by destruct (kind_is _ "BLOCK").
Qed.

Lemma manager_visit_block_eq allow v it o :
  classify it = Block o → visit allow v it = visit_block allow v it.
Proof.
  unfold classify. destruct it as [k ty cu cs h d dr]. cbn [visit].
  destruct (kind_is _ "CATEGORY").
  - cbn [contents custom]. destruct cs; [done|]. by destruct cu.
  - by destruct (kind_is _ "BLOCK").
Qed.

Lemma manager_classify_block_type it o : classify it = Block o → o = type it.
Proof.
  unfold classify. destruct (kind_is it "CATEGORY").
  - destruct (contents it); [done|]. by destruct (custom it).
  - destruct (kind_is it "BLOCK"); [by intros [= <-]|done].
Qed.

Lemma manager_visit_unknown allow v it :
  classify it = Unknown → visit allow v it = (it, Normal v).
Proof.
  unfold classify. destruct it as [k ty cu cs h d dr]. cbn [visit].
  destruct (kind_is _ "CATEGORY").
  - cbn [contents custom]. destruct cs; [done|]. by destruct cu.
  - by destruct (kind_is _ "BLOCK").
Qed.

Lemma manager_classify_separator_unknown it :
  Part000.classify it = Separator → classify it = Unknown.
Proof.
  unfold Part000.classify, classify.
  destruct (contents it); [done|]. destruct (type it); [done|].
  destruct (if Part000.kind_is it "CATEGORY" then custom it else None);
    [done|].
  unfold Part000.kind_is, kind_is.
  case_bool_decide as Hk; [|done]. rewrite Hk. intros _.
  by vm_compute.
Qed.

Lemma manager_classify_same it it' :
  kind it' = kind it → type it' = type it → custom it' = custom it →
  (is_Some (contents it') ↔ is_Some (contents it)) →
  classify it' = classify it.
Proof.
  intros Hk Ht Hc Hcs. unfold classify, kind_is. rewrite Hk, Ht, Hc.
  destruct (contents it') as [cs'|], (contents it) as [cs|]; try reflexivity.
  - destruct Hcs as [[? Hcs] _]; [eauto | discriminate].
  - destruct Hcs as [_ [? Hcs]]; [eauto | discriminate].
Qed.

(** This revision has no separator branch. *)
Lemma manager_classify_not_separator it : classify it ≠ Separator.
Proof.
  unfold classify. destruct (kind_is it "CATEGORY").
  - destruct (contents it); [done|]. by destruct (custom it).
  - by destruct (kind_is it "BLOCK").
Qed.

Lemma manager_visit_block_cases allow v it :
  (visit_block allow v it).1 = it ∨
  (visit_block allow v it).1 = enable_block it ∨
  (visit_block allow v it).1 = disable_block it.
Proof.
  unfold visit_block. destruct allow; [|eauto].
  destruct (type it); [|eauto]. case_match; eauto.
Qed.

Lemma manager_classify_visit allow v it :
  classify (visit allow v it).1 = classify it.
Proof.
  destruct (classify it) as [|c|o| |] eqn:Hcl.
  - pose proof Hcl as [_ [cs Hcs]]%manager_classify_category.
    rewrite (manager_visit_category _ _ _ _ Hcl Hcs). cbv zeta.
    rewrite <- Hcl.
    repeat case_match; apply manager_classify_same; simpl; try done;
      rewrite Hcs; split; eauto.
  - rewrite (manager_visit_dynamic _ _ _ _ Hcl), <- Hcl.
    case_match; by apply manager_classify_same.
  - rewrite (manager_visit_block_eq _ _ _ _ Hcl), <- Hcl.
    destruct (manager_visit_block_cases allow v it) as [-> | [-> | ->]];
      by apply manager_classify_same.
  - by destruct (manager_classify_not_separator it).
  - by rewrite manager_visit_unknown.
Qed.

Lemma manager_visit_shift allow v it :
  visit allow v it = (mark allow it, shift v (visit allow 0 it).2).
Proof.
  unfold mark. destruct (classify it) as [|c|o| |] eqn:Hcl.
  - pose proof Hcl as [_ [cs Hcs]]%manager_classify_category.
    rewrite !(manager_visit_category _ _ _ _ Hcl Hcs). cbv zeta.
    repeat case_match; simpl; repeat f_equal; lia.
  - rewrite !(manager_visit_dynamic _ _ _ _ Hcl).
    case_match; simpl; repeat f_equal; lia.
  - rewrite !(manager_visit_block_eq _ _ _ _ Hcl). unfold visit_block.
    repeat case_match; simpl; repeat f_equal; lia.
  - by destruct (manager_classify_not_separator it).
  - rewrite !manager_visit_unknown by done. simpl. repeat f_equal; lia.
Qed.

Lemma manager_visit_fst allow v it : (visit allow v it).1 = mark allow it.
Proof. by rewrite manager_visit_shift. Qed.

(** A run that completes has marked every item of the array. *)
Lemma manager_forEachE_normal_marks allow l : ∀ v n,
  (forEachE (visit allow) l v).2 = Normal n →
  (forEachE (visit allow) l v).1 = mark allow <$> l.
Proof.
  induction l as [|x r IH]; intros v n Hn; [reflexivity|].
  apply forEachE_normal_inv in Hn as (s1 & Hx & Hr & ->).
  rewrite manager_visit_fst, (IH _ _ Hr). reflexivity.
Qed.

Lemma manager_forEachE_normal_all allow l : ∀ v n,
  (forEachE (visit allow) l v).2 = Normal n →
  Forall (λ x, ∃ k, (visit allow 0 x).2 = Normal k) l.
Proof.
  induction l as [|x r IH]; intros v n Hn; [constructor|].
  apply forEachE_normal_inv in Hn as (s1 & Hx & Hr & _).
  constructor; [|by eapply IH].
  rewrite manager_visit_shift in Hx. cbn [snd] in Hx.
  destruct (visit allow 0 x).2; [eauto | done].
Qed.

Lemma manager_contents_mark_category allow it cs k :
  classify it = Category → contents it = Some cs →
  (visit allow 0 it).2 = Normal k →
  ∃ n, (forEachE (visit allow) cs 0).2 = Normal n ∧
       contents (mark allow it) = Some (mark allow <$> cs) ∧
       hidden (mark allow it) =
         Some (FStr (if (0 <? n)%nat then "false" else "true")) ∧
       k = (if (0 <? n)%nat then 1 else 0).
Proof.
  intros Hcl Hcs. unfold mark.
  rewrite (manager_visit_category _ _ _ _ Hcl Hcs). cbv zeta.
  destruct (forEachE (visit allow) cs 0).2 as [n|] eqn:Hn; [|done].
  rewrite (manager_forEachE_normal_marks _ _ _ _ Hn).
  intros Hk. exists n. split; [done|].
  destruct (0 <? n)%nat; simpl in *; by simplify_eq.
Qed.

Lemma manager_children_mark allow it k :
  (visit allow 0 it).2 = Normal k →
  children (mark allow it) =
  (λ cs : list ToolboxItemInfo, mark allow <$> cs) <$> children it.
Proof.
  intros Hk. rewrite !manager_children_category.
  assert (Hm : classify (mark allow it) = classify it)
    by apply manager_classify_visit.
  rewrite Hm. case_decide as Hcl; [|reflexivity].
  pose proof Hcl as [_ [cs Hcs]]%manager_classify_category.
  destruct (manager_contents_mark_category _ _ _ _ Hcl Hcs Hk) as (n & _ & -> & _).
  by rewrite Hcs.
Qed.

(** After a run that completes, the node at a path is the node that was
    there, marked. *)
Lemma manager_node_at_filter allow p : ∀ l,
  Forall (λ x, ∃ k, (visit allow 0 x).2 = Normal k) l →
  node_at children p (mark allow <$> l) = mark allow <$> node_at children p l.
Proof.
  induction p as [|i q IH]; intros l Hl; [reflexivity|].
  cbn [node_at]. rewrite list_lookup_fmap.
  destruct (l !! i) as [it|] eqn:Hi; [|reflexivity].
  cbn [fmap option_fmap option_map].
  destruct q as [|j q]; [reflexivity|].
  rewrite Forall_forall in Hl.
  destruct (Hl it) as [k Hk]; [by eapply list_elem_of_lookup_2|].
  rewrite (manager_children_mark _ _ _ Hk).
  rewrite manager_children_category. case_decide as Hcl; [|reflexivity].
  pose proof Hcl as [_ [cs Hcs]]%manager_classify_category. rewrite Hcs.
  cbn [fmap option_fmap option_map]. apply IH.
  destruct (manager_contents_mark_category _ _ _ _ Hcl Hcs Hk) as (n & Hn & _).
  by eapply manager_forEachE_normal_all.
Qed.

Lemma manager_filter_normal allow l n :
  (_filterContents allow l).2 = Normal n →
  (_filterContents allow l).1 = mark allow <$> l ∧
  ∀ p, node_at children p (_filterContents allow l).1 =
       mark allow <$> node_at children p l.
Proof.
  unfold _filterContents. intros Hn.
  rewrite (manager_forEachE_normal_marks _ _ _ _ Hn). split; [done|].
  intros p. apply manager_node_at_filter. by eapply manager_forEachE_normal_all.
Qed.

(** The counter goes up by one exactly on the items left visible. *)
Lemma manager_visit_counts allow it k :
  (visit allow 0 it).2 = Normal k →
  k = (if unit_visible (mark allow it) then 1 else 0).
Proof.
  intros Hk. unfold unit_visible, leaf_visible.
  assert (Hm : classify (mark allow it) = classify it)
    by apply manager_classify_visit.
  rewrite Hm. destruct (classify it) as [|c|o| |] eqn:Hcl.
  - pose proof Hcl as [_ [cs Hcs]]%manager_classify_category.
    destruct (manager_contents_mark_category _ _ _ _ Hcl Hcs Hk)
      as (n & _ & _ & -> & ->).
    by destruct (0 <? n)%nat.
  - unfold mark. rewrite (manager_visit_dynamic _ _ _ _ Hcl) in Hk |- *.
    destruct (allowed allow c); simpl in *; by simplify_eq.
  - unfold mark. rewrite (manager_visit_block_eq _ _ _ _ Hcl) in Hk |- *.
    unfold visit_block in *.
    repeat case_match; simpl in *; by simplify_eq.
  - by destruct (manager_classify_not_separator it).
  - rewrite manager_visit_unknown in Hk by done. by simplify_eq/=.
Qed.

Lemma manager_forEachE_counts allow l : ∀ v n,
  (forEachE (visit allow) l v).2 = Normal n →
  n = v + count_visible (mark allow <$> l).
Proof.
  induction l as [|x r IH]; intros v n Hn.
  - simpl in Hn. simplify_eq. unfold count_visible. simpl. lia.
  - apply forEachE_normal_inv in Hn as (s1 & Hx & Hr & _).
    rewrite manager_visit_shift in Hx. cbn [snd] in Hx.
    destruct (visit allow 0 x).2 as [k|] eqn:Hk; [|done].
    apply manager_visit_counts in Hk. simpl in Hx. simplify_eq.
    rewrite (IH _ _ Hr). unfold count_visible. cbn [fmap list_fmap List.filter].
    destruct (unit_visible (mark allow x)); simpl; lia.
Qed.

Lemma manager_visible_leaves_leaf it :
  classify it ≠ Category →
  visible_leaves it = if leaf_visible it then 1 else 0.
Proof.
  intros Hcl. destruct it as [k ty cu [cs|] h d dr]; [|reflexivity].
  cbn [visible_leaves contents].
  destruct (kind_is _ "CATEGORY") eqn:Hk; [|reflexivity].
  destruct Hcl. apply manager_classify_category. rewrite Hk. simpl. eauto.
Qed.

Lemma manager_visible_leaves_category it cs :
  classify it = Category → contents it = Some cs →
  visible_leaves it = sum_list (List.map visible_leaves cs).
Proof.
  intros [Hk _]%manager_classify_category Hcs.
  destruct it as [k ty cu cs0 h d dr]. simpl in Hcs. subst.
  cbn [visible_leaves contents]. by rewrite Hk.
Qed.

(** After a run that completes, an item counts as visible exactly when
    a visible leaf lies at or below it. *)
Lemma manager_unit_visible_leaves allow it : ∀ k,
  (visit allow 0 it).2 = Normal k →
  unit_visible (mark allow it) = (0 <? visible_leaves (mark allow it))%nat.
Proof.
  induction it as [it IH] using item_ind'. intros k Hk.
  assert (Hm : classify (mark allow it) = classify it)
    by apply manager_classify_visit.
  destruct (decide (classify it = Category)) as [Hcl|Hcl].
  - pose proof Hcl as [_ [cs Hcs]]%manager_classify_category.
    destruct (manager_contents_mark_category _ _ _ _ Hcl Hcs Hk)
      as (n & Hn & Hcs' & Hh & _).
    rewrite (manager_visible_leaves_category _ _ (eq_trans Hm Hcl) Hcs').
    unfold unit_visible. rewrite Hm, Hcl, Hh.
    pose proof (manager_forEachE_counts _ _ _ _ Hn) as ->. rewrite Nat.add_0_l.
    unfold count_visible.
    assert (Hsum : (0 <? length (List.filter unit_visible (mark allow <$> cs)))%nat =
                   (0 <? sum_list (List.map visible_leaves (mark allow <$> cs)))%nat).
    { apply count_pos_sum. apply Forall_fmap, Forall_forall.
      intros x Hx. specialize (IH cs Hcs). rewrite Forall_forall in IH.
      pose proof (manager_forEachE_normal_all _ _ _ _ Hn) as Hall.
      rewrite Forall_forall in Hall. destruct (Hall x Hx) as [kx Hkx].
      by apply (IH x Hx kx). }
    rewrite Hsum.
    destruct (0 <? sum_list _)%nat;
      [by apply bool_decide_eq_true_2 | by apply bool_decide_eq_false_2].
  - rewrite manager_visible_leaves_leaf by congruence.
    unfold unit_visible. rewrite Hm.
    destruct (classify it); try done; by case_match.
Qed.

(** *** Running the filter again *)

Lemma manager_visit_idem allow it : ∀ v,
  visit allow v (visit allow v it).1 = visit allow v it.
Proof.
  induction it as [it IH] using item_ind'. intros v.
  destruct (classify it) as [|c|o| |] eqn:Hcl.
  - pose proof Hcl as [_ [cs Hcs]]%manager_classify_category.
    pose proof (forEachE_idem (visit allow) cs (IH cs Hcs) 0) as Hcs'.
    rewrite (manager_visit_category _ _ _ _ Hcl Hcs). cbv zeta.
    destruct (forEachE (visit allow) cs 0).2 as [n|] eqn:Hn;
      [destruct (0 <? n)%nat eqn:Hpos|]; cbn [fst];
      (erewrite manager_visit_category;
         [|rewrite <- Hcl; apply manager_classify_same; simpl; try done;
           rewrite Hcs; split; eauto
          |reflexivity]);
      cbv zeta; rewrite Hcs', Hn, ?Hpos; reflexivity.
  - rewrite (manager_visit_dynamic _ _ _ _ Hcl).
    destruct (allowed allow c) eqn:Ha; cbn [fst];
      erewrite manager_visit_dynamic
        by (rewrite <- Hcl; by apply manager_classify_same);
      rewrite Ha; reflexivity.
  - rewrite (manager_visit_block_eq _ _ _ _ Hcl). unfold visit_block.
    destruct allow as [l|]; [destruct (type it) as [t|] eqn:Hty;
      [destruct (includes l (toLowerCase t)) eqn:Hin|]|]; cbn [fst];
      (erewrite manager_visit_block_eq
         by (rewrite <- Hcl; by apply manager_classify_same));
      unfold visit_block; cbn [type enable_block disable_block
        set_disabled set_disabledReasons]; rewrite ?Hty, ?Hin; reflexivity.
  - by destruct (manager_classify_not_separator it).
  - rewrite (manager_visit_unknown _ _ _ Hcl). cbn [fst].
    by rewrite (manager_visit_unknown _ _ _ Hcl).
Qed.

Lemma manager_filter_idem allow l :
  _filterContents allow (_filterContents allow l).1 = _filterContents allow l.
Proof.
  unfold _filterContents. apply forEachE_idem, Forall_forall.
  intros x _. apply manager_visit_idem.
Qed.

(** *** When the filter completes *)

Lemma manager_forEachE_completes allow l :
  Forall (λ x, ∃ k, (visit allow 0 x).2 = Normal k) l →
  ∀ v, ∃ n, (forEachE (visit allow) l v).2 = Normal n.
Proof.
  induction 1 as [|x r [k Hk] _ IH]; intros v; [by eexists|].
  rewrite forEachE_cons, manager_visit_shift, Hk. cbn [snd shift]. apply IH.
Qed.

Lemma manager_visit_typed_completes allow it :
  blocks_typed it = true → ∃ k, (visit allow 0 it).2 = Normal k.
Proof.
  induction it as [it IH] using item_ind'. intros Ht.
  destruct (classify it) as [|c|o| |] eqn:Hcl.
  - pose proof Hcl as [Hk [cs Hcs]]%manager_classify_category.
    rewrite (manager_visit_category _ _ _ _ Hcl Hcs). cbv zeta.
    destruct (manager_forEachE_completes allow cs) with (v := 0) as [n Hn].
    { specialize (IH cs Hcs). rewrite Forall_forall in IH |- *.
      intros x Hx. apply (IH x Hx).
      destruct it as [kd ty cu cs0 h d dr]. simpl in Hcs. subst cs0.
      cbn [blocks_typed contents] in Ht. rewrite Hk in Ht.
      rewrite forallb_forall in Ht. apply Ht. by apply list_elem_of_In. }
    rewrite Hn. case_match; by eexists.
  - rewrite (manager_visit_dynamic _ _ _ _ Hcl). case_match; by eexists.
  - rewrite (manager_visit_block_eq _ _ _ _ Hcl). unfold visit_block.
    destruct allow as [l|]; [|by eexists].
    destruct (type it) as [t|] eqn:Hty; [case_match; by eexists|].
    exfalso. revert Hcl Ht. unfold classify.
    destruct it as [kd ty cu cs h d dr]. cbn [blocks_typed].
    destruct (kind_is _ "CATEGORY"); cbn [contents custom].
    + destruct cs; [done|]. by destruct cu.
    + destruct (kind_is _ "BLOCK"); [|done]. simpl in Hty. by rewrite Hty.
  - by destruct (manager_classify_not_separator it).
  - rewrite (manager_visit_unknown _ _ _ Hcl). by eexists.
Qed.

Lemma manager_filter_typed_completes allow l :
  forallb blocks_typed l = true →
  ∃ n, (_filterContents allow l).2 = Normal n.
Proof.
  intros Ht. apply manager_forEachE_completes, Forall_forall. intros x Hx.
  apply manager_visit_typed_completes. rewrite forallb_forall in Ht.
  apply Ht. by apply list_elem_of_In.
Qed.

Lemma manager_visit_undefined_completes it : ∃ k, (visit None 0 it).2 = Normal k.
Proof.
  induction it as [it IH] using item_ind'.
  destruct (classify it) as [|c|o| |] eqn:Hcl.
  - pose proof Hcl as [Hk [cs Hcs]]%manager_classify_category.
    rewrite (manager_visit_category _ _ _ _ Hcl Hcs). cbv zeta.
    destruct (manager_forEachE_completes None cs (IH cs Hcs) 0) as [n ->].
    case_match; by eexists.
  - rewrite (manager_visit_dynamic _ _ _ _ Hcl). case_match; by eexists.
  - rewrite (manager_visit_block_eq _ _ _ _ Hcl). by eexists.
  - by destruct (manager_classify_not_separator it).
  - rewrite (manager_visit_unknown _ _ _ Hcl). by eexists.
Qed.

Lemma manager_filter_undefined_completes l :
  ∃ n, (_filterContents None l).2 = Normal n.
Proof.
  apply manager_forEachE_completes, Forall_forall. intros x _.
  apply manager_visit_undefined_completes.
Qed.

Lemma manager_filter_completes allow l :
  allow = None ∨ forallb blocks_typed l = true →
  ∃ n, (_filterContents allow l).2 = Normal n.
Proof.
  intros [-> | Ht];
    [apply manager_filter_undefined_completes
    |by apply manager_filter_typed_completes].
Qed.

(** A run that completes has completed on every node it reached. *)
Lemma manager_node_completes allow p : ∀ l it,
  Forall (λ x, ∃ k, (visit allow 0 x).2 = Normal k) l →
  node_at children p l = Some it →
  ∃ k, (visit allow 0 it).2 = Normal k.
Proof.
  induction p as [|i q IH]; intros l it Hl Hp; [done|].
  cbn [node_at] in Hp. destruct (l !! i) as [x|] eqn:Hx; [|done].
  rewrite Forall_forall in Hl.
  destruct (Hl x) as [k Hk]; [by eapply list_elem_of_lookup_2|].
  destruct q as [|j q]; [simplify_eq; eauto|].
  rewrite manager_children_category in Hp.
  case_decide as Hcl; [|done].
  pose proof Hcl as [_ [cs Hcs]]%manager_classify_category.
  rewrite Hcs in Hp.
  destruct (manager_contents_mark_category _ _ _ _ Hcl Hcs Hk)
    as (n & Hn & _).
  apply (IH cs); [|done]. by eapply manager_forEachE_normal_all.
Qed.

(** After a run that completes: the node at a path, and the completion of
    the callback on the node that was there. *)
Lemma manager_filter_node allow l n p it :
  (_filterContents allow l).2 = Normal n →
  node_at children p l = Some it →
  node_at children p (_filterContents allow l).1 = Some (mark allow it) ∧
  ∃ k, (visit allow 0 it).2 = Normal k.
Proof.
  intros Hn Hp. destruct (manager_filter_normal _ _ _ Hn) as [_ Hnode].
  rewrite Hnode, Hp. split; [done|].
  eapply manager_node_completes; [|done].
  by eapply manager_forEachE_normal_all.
Qed.

End manager_filter_facts.

(** * The claims about the filter *)

Lemma member_ci_lowercase l t :
  lowercase l → toLowerCase t ∈ l ↔ member_ci l t.
Proof.
  intros Hl. unfold lowercase in Hl. rewrite Forall_forall in Hl. split.
  - intros Hin. exists (toLowerCase t). split; [done|]. by apply Hl.
  - intros (a & Ha & Heq). by rewrite <- Heq, (Hl a Ha).
Qed.

Lemma includes_true l x : includes l x = true ↔ x ∈ l.
Proof. unfold includes. apply bool_decide_eq_true. Qed.

Lemma part000_allowed_iff allow t :
  Part000.allowed allow t = true ↔ allow = None ∨ ∃ l, allow = Some l ∧ t ∈ l.
Proof.
  destruct allow as [l|]; simpl.
  - rewrite includes_true. split; [eauto|]. by intros [?|(? & [= <-] & ?)].
  - split; eauto.
Qed.

Lemma manager_allowed_iff allow t :
  Manager.allowed allow t = true ↔
  allow = None ∨ ∃ l, allow = Some l ∧ toLowerCase t ∈ l.
Proof.
  destruct allow as [l|]; simpl.
  - rewrite includes_true. split; [eauto|]. by intros [?|(? & [= <-] & ?)].
  - split; eauto.
Qed.

Lemma manager_mark_block allow it t :
  Manager.classify it = Block (Some t) →
  Manager.mark allow it =
  if Manager.allowed allow t then enable_block it else disable_block it.
Proof.
  intros Hcl. unfold Manager.mark.
  rewrite (manager_visit_block_eq _ _ _ _ Hcl). unfold Manager.visit_block.
  rewrite <- (manager_classify_block_type _ _ Hcl).
  destruct allow as [l|]; [|done]. simpl.
  by destruct (includes l (toLowerCase t)).
Qed.

(** Claim C1, as the code has it.  A block is left enabled exactly when
    the allow-list is undefined or contains its type: the second revision
    looks the type up as it is written, [manager.ts] looks up the
    lower-cased type (when the allow-list is undefined or the blocks of
    the tree all have a type, so that the run completes).  The entries of
    the allow-list are never normalised, so the test of [manager.ts] is
    membership under case-insensitive comparison when the allow-list is
    lower-case.  In both revisions [disabled] becomes the negation of the
    visibility and [disabledReasons] the one-element list with the fixed
    reason when the block is not visible, the empty list when it is. *)
Theorem block_marking (allow : option (list string))
    (tree : list ToolboxItemInfo) (p : list nat) (it : ToolboxItemInfo)
    (t : string) :
  (node_at Part000.children p tree = Some it →
   Part000.classify it = Block (Some t) →
   ∃ it', node_at Part000.children p (Part000._filterContents allow tree).1
            = Some it' ∧
     disabled it' = Some (FBool (negb (Part000.allowed allow t))) ∧
     disabledReasons it' =
       Some (if Part000.allowed allow t then []
             else ["This block is not allowed"]) ∧
     (Part000.allowed allow t = true ↔
      allow = None ∨ ∃ l, allow = Some l ∧ t ∈ l))
  ∧
  (node_at Manager.children p tree = Some it →
   Manager.classify it = Block (Some t) →
   allow = None ∨ forallb Manager.blocks_typed tree = true →
   ∃ it' n, (Manager._filterContents allow tree).2 = Normal n ∧
     node_at Manager.children p (Manager._filterContents allow tree).1
       = Some it' ∧
     disabled it' = Some (FBool (negb (Manager.allowed allow t))) ∧
     disabledReasons it' =
       Some (if Manager.allowed allow t then []
             else ["This block is not allowed"]) ∧
     (Manager.allowed allow t = true ↔
      allow = None ∨ ∃ l, allow = Some l ∧ toLowerCase t ∈ l) ∧
     (∀ l, allow = Some l → lowercase l →
           (Manager.allowed allow t = true ↔ member_ci l t))).
Proof.
  split.
  - intros Hp Hcl.
    rewrite part000_filter_fst, part000_node_at_filter, Hp.
    eexists; split; [reflexivity|].
    rewrite (part000_visit_block _ _ _ _ Hcl).
    split_and!; [| |apply part000_allowed_iff];
      by destruct (Part000.allowed allow t).
  - intros Hp Hcl Hok.
    destruct (manager_filter_completes allow tree Hok) as [n Hn].
    destruct (manager_filter_node _ _ _ _ _ Hn Hp) as [Hp' _].
    exists (Manager.mark allow it), n.
    split; [done|]. split; [done|].
    rewrite (manager_mark_block _ _ _ Hcl).
    split_and!; try by destruct (Manager.allowed allow t).
    + apply manager_allowed_iff.
    + intros l -> Hl. simpl. rewrite includes_true.
      by apply member_ci_lowercase.
Qed.

Lemma block_marking_witness :
  let b := mkItem (Some "block") (Some "Controls_If") None None None None None in
  let c := mkItem (Some "category") None None (Some [b]) None None None in
  (∃ it',
     node_at Part000.children [0; 0]
       (Part000._filterContents (Some ["controls_if"]) [c]).1 = Some it' ∧
     disabled it' = Some (FBool true))
  ∧
  (∃ it',
     node_at Manager.children [0; 0]
       (Manager._filterContents (Some ["controls_if"]) [c]).1 = Some it' ∧
     disabled it' = Some (FBool false) ∧ disabledReasons it' = Some []).
Proof.
  intros b c.
  destruct (block_marking (Some ["controls_if"]) [c] [0; 0] b "Controls_If")
    as [H0 H1].
  split.
  - destruct H0 as (it' & Hp & Hd & _); [reflexivity..|].
    exists it'. split; [exact Hp | exact Hd].
  - destruct H1 as (it' & n & _ & Hp & Hd & Hr & _);
      [reflexivity | reflexivity | right; reflexivity |].
    exists it'. split; [exact Hp|]. split; [exact Hd | exact Hr].
Defined.

(** Claim C1 as written fails in both revisions.  The second revision
    disables the block [Foo] under the allow-list [foo]; [manager.ts]
    disables the block [foo] under the allow-list [Foo].  In both cases
    the type is a member of the allow-list under case-insensitive
    comparison. *)
Lemma block_marking_not_case_insensitive :
  let Foo := mkItem (Some "block") (Some "Foo") None None None None None in
  let foo := mkItem (Some "block") (Some "foo") None None None None None in
  (member_ci ["foo"] "Foo" ∧
   Part000._filterContents (Some ["foo"]) [Foo] = ([disable_block Foo], 0) ∧
   disabled (disable_block Foo) = Some (FBool true))
  ∧
  (member_ci ["Foo"] "foo" ∧
   Manager._filterContents (Some ["Foo"]) [foo]
     = ([disable_block foo], Normal 0) ∧
   disabled (disable_block foo) = Some (FBool true)).
Proof.
  intros Foo foo. split.
  - split; [|by vm_compute].
    exists "foo". split; [by apply list_elem_of_singleton|reflexivity].
  - split; [|by vm_compute].
    exists "Foo". split; [by apply list_elem_of_singleton|reflexivity].
Qed.

Lemma separators_shown_node p : ∀ l it,
  forallb Part000.separators_shown l = true →
  node_at Part000.children p l = Some it →
  Part000.separators_shown it = true.
Proof.
  induction p as [|i q IH]; intros l it Hl Hp; [done|].
  cbn [node_at] in Hp. destruct (l !! i) as [x|] eqn:Hx; [|done].
  assert (Hsx : Part000.separators_shown x = true).
  { rewrite forallb_forall in Hl. apply Hl, list_elem_of_In.
    by eapply list_elem_of_lookup_2. }
  destruct q as [|j q]; [by simplify_eq|].
  unfold Part000.children in Hp at 1.
  destruct (contents x) as [cs|] eqn:Hcs; [|done].
  apply (IH cs); [|done].
  destruct x as [k ty cu cs0 h d dr]. simpl in Hcs. subst cs0. exact Hsx.
Qed.

Lemma separators_shown_array p l cs :
  forallb Part000.separators_shown l = true →
  array_at Part000.children p l = Some cs →
  Forall (λ x, Part000.classify x = Separator →
               Part000.separator_hidden x = false) cs.
Proof.
  intros Hl Harr.
  assert (Hcs : forallb Part000.separators_shown cs = true).
  { destruct p as [|i q]; [by simplify_eq/=|].
    cbn [array_at] in Harr.
    destruct (node_at Part000.children (i :: q) l) as [it|] eqn:Hit; [|done].
    pose proof (separators_shown_node _ _ _ Hl Hit) as Hs.
    cbn [mbind option_bind] in Harr. unfold Part000.children in Harr.
    destruct it as [k ty cu cs0 h d dr]. simpl in Harr. subst cs0.
    exact Hs. }
  apply Forall_forall. intros x Hx Hcl.
  rewrite forallb_forall in Hcs.
  specialize (Hcs x (proj1 (list_elem_of_In _ _) Hx)).
  destruct (contents x) as [cs'|] eqn:Hcx.
  - assert (Part000.classify x = Category)
      by (apply part000_classify_category; eauto). congruence.
  - destruct x as [k ty cu cs0 h d dr]. simpl in Hcx. subst cs0.
    cbn [Part000.separators_shown contents] in Hcs. rewrite Hcl in Hcs.
    by apply negb_true_iff.
Qed.

(** The flag of a category after a run, against the leaves below it. *)
Lemma hidden_iff_no_leaf (b : bool) (leaves : nat) (h : option flag) :
  h = Some (FStr (if b then "false" else "true")) →
  bool_decide (h = Some (FStr "false")) = (0 <? leaves)%nat →
  (h = Some (FStr "true") ∨ h = Some (FStr "false")) ∧
  (h = Some (FStr "true") ↔ leaves = 0).
Proof.
  intros -> Hu. destruct b.
  - rewrite bool_decide_eq_true_2 in Hu by done.
    symmetry in Hu. apply Nat.ltb_lt in Hu.
    split; [by right|]. split; [done|lia].
  - rewrite bool_decide_eq_false_2 in Hu by done.
    symmetry in Hu. apply Nat.ltb_ge in Hu.
    split; [by left|]. split; [lia|done].
Qed.

(** Claim C2, as the code has it.  After a run, in both revisions (in
    [manager.ts] when the run completes: the allow-list is undefined or
    the blocks of the tree all have a type), a static category is hidden
    exactly when no visible leaf lies below it.  In the second revision,
    in every array of the tree, each separator that is visible after the
    run comes after visible content that follows the previous visible
    separator: no two visible separators are consecutive and none leads.
    When no separator was hidden before the run, a separator is hidden
    after it exactly when no visible content appeared since the previous
    visible separator.  [manager.ts] leaves every separator as it is. *)
Theorem filter_invariant (allow : option (list string))
    (tree : list ToolboxItemInfo) :
  (∀ p it',
     node_at Part000.children p (Part000._filterContents allow tree).1
       = Some it' →
     Part000.classify it' = Category →
     (hidden it' = Some (FStr "true") ∨ hidden it' = Some (FStr "false")) ∧
     (hidden it' = Some (FStr "true") ↔ Part000.visible_leaves it' = 0))
  ∧
  (∀ p sibs,
     array_at Part000.children p (Part000._filterContents allow tree).1
       = Some sibs →
     Part000.no_redundant_separator false sibs = true ∧
     (forallb Part000.separators_shown tree = true →
      Part000.separators_exact false sibs = true))
  ∧
  (allow = None ∨ forallb Manager.blocks_typed tree = true →
   ∃ n, (Manager._filterContents allow tree).2 = Normal n ∧
   (∀ p it',
      node_at Manager.children p (Manager._filterContents allow tree).1
        = Some it' →
      Manager.classify it' = Category →
      (hidden it' = Some (FStr "true") ∨ hidden it' = Some (FStr "false")) ∧
      (hidden it' = Some (FStr "true") ↔ Manager.visible_leaves it' = 0)) ∧
   (∀ p it,
      node_at Manager.children p tree = Some it →
      Part000.classify it = Separator →
      node_at Manager.children p (Manager._filterContents allow tree).1
        = Some it)).
Proof.
  split_and!.
  - intros p it'. rewrite part000_filter_fst, part000_node_at_filter.
    destruct (node_at Part000.children p tree) as [it|]; [|done].
    intros [= <-] Hcl.
    pose proof (part000_unit_visible_leaves allow it
                  (Part000.state_at allow p tree (Part000.mkCounters 0 0)))
      as Hu.
    unfold Part000.unit_visible in Hu. rewrite Hcl in Hu.
    rewrite part000_classify_visit in Hcl.
    apply part000_classify_category in Hcl as [cs Hcs].
    revert Hu. rewrite (part000_visit_category _ _ _ _ Hcs). cbv zeta.
    set (n := Part000.visible _).
    intros Hu. apply (hidden_iff_no_leaf (0 <? n)%nat); [|exact Hu].
    by destruct (0 <? n)%nat.
  - intros p sibs. rewrite part000_filter_fst, part000_array_at_filter.
    destruct (array_at Part000.children p tree) as [cs|] eqn:Harr; [|done].
    intros [= <-]. split.
    + apply part000_scan_no_redundant; simpl; [lia|done].
    + intros Hshown. apply part000_scan_exact; simpl; [lia|done|].
      by eapply separators_shown_array.
  - intros Hok.
    destruct (manager_filter_completes allow tree Hok) as [n Hn].
    exists n. split; [done|]. split.
    + destruct (manager_filter_normal _ _ _ Hn) as [_ Hnode].
      intros p it'. rewrite Hnode.
      destruct (node_at Manager.children p tree) as [it|] eqn:Hp; [|done].
      intros [= <-] Hcl.
      destruct (manager_filter_node _ _ _ _ _ Hn Hp) as [_ [k Hk]].
      pose proof (manager_unit_visible_leaves allow it k Hk) as Hu.
      unfold Manager.unit_visible in Hu. rewrite Hcl in Hu.
      assert (Hcl0 : Manager.classify it = Category)
        by (rewrite <- Hcl; symmetry; apply manager_classify_visit).
      pose proof Hcl0 as [_ [cs Hcs]]%manager_classify_category.
      destruct (manager_contents_mark_category _ _ _ _ Hcl0 Hcs Hk)
        as (m & _ & _ & Hh & _).
      by apply (hidden_iff_no_leaf (0 <? m)%nat).
    + intros p it Hp Hsep%manager_classify_separator_unknown.
      destruct (manager_filter_node _ _ _ _ _ Hn Hp) as [-> _].
      unfold Manager.mark. by rewrite (manager_visit_unknown _ _ _ Hsep).
Qed.

Lemma filter_invariant_witness :
  (let out := (Part000._filterContents (Some ["c"]) example_toolbox).1 in
   (hidden <$> out !! 5 = Some (Some (FStr "false")) ∧
    Part000.visible_leaves <$> out !! 5 = Some 1) ∧
   Part000.no_redundant_separator false out = true ∧
   Part000.separators_exact false out = true) ∧
  (∃ n it',
     (Manager._filterContents (Some ["c"]) example_toolbox).2 = Normal n ∧
     (Manager._filterContents (Some ["c"]) example_toolbox).1 !! 5 = Some it' ∧
     (hidden it' = Some (FStr "true") ↔ Manager.visible_leaves it' = 0)).
Proof.
  destruct (filter_invariant (Some ["c"]) example_toolbox) as (_ & Hsep & Hm).
  split.
  - split; [by vm_compute|].
    destruct (Hsep [] (Part000._filterContents (Some ["c"]) example_toolbox).1
                eq_refl) as [H1 H2].
    split; [exact H1 | apply H2; reflexivity].
  - destruct Hm as (n & Hn & Hcat & _); [right; reflexivity|].
    exists n. eexists. split; [exact Hn|]. split; [reflexivity|].
    apply (Hcat [5]); reflexivity.
Defined.

(** Claim C2 as written fails.  [manager.ts] has no separator branch: two
    separators at the head of a toolbox are left as they are, so the first
    leads and the two are consecutive.  In the second revision a separator
    that a previous run has hidden stays hidden when visible content
    precedes it. *)
Lemma filter_invariant_separators_fail :
  (Manager._filterContents None [example_separator; example_separator]
     = ([example_separator; example_separator], Normal 0) ∧
   Part000.no_redundant_separator false
     [example_separator; example_separator] = false)
  ∧
  (let s := set_hidden (FBool true) example_separator in
   Part000._filterContents None [example_block "a"; s]
     = ([enable_block (example_block "a"); s], 1) ∧
   Part000.separators_exact false [enable_block (example_block "a"); s]
     = false).
Proof. by vm_compute. Qed.

Lemma count_visible_zero allow l :
  Forall (λ x, ∀ k, (Manager.visit allow 0 x).2 = Normal k → k = 0) l →
  Forall (λ x, ∃ k, (Manager.visit allow 0 x).2 = Normal k) l →
  Manager.count_visible (Manager.mark allow <$> l) = 0.
Proof.
  induction 1 as [|c r Hc _ IHr]; intros Hall; [done|].
  apply Forall_cons in Hall as [[kc Hkc] Hall].
  unfold Manager.count_visible in *. cbn [fmap list_fmap List.filter].
  pose proof (manager_visit_counts _ _ _ Hkc) as Hcount.
  rewrite (Hc kc Hkc) in Hcount.
  destruct (Manager.unit_visible (Manager.mark allow c)); [done|].
  by apply IHr.
Qed.

Lemma visit_empty_zero x : ∀ k,
  (Manager.visit (Some []) 0 x).2 = Normal k → k = 0.
Proof.
  induction x as [x IH] using item_ind'. intros k Hk.
  destruct (Manager.classify x) as [|c|o| |] eqn:Hcl.
  - pose proof Hcl as [_ [cs Hcs]]%manager_classify_category.
    destruct (manager_contents_mark_category _ _ _ _ Hcl Hcs Hk)
      as (m & Hm & _ & _ & ->).
    replace m with 0; [done|].
    pose proof (manager_forEachE_counts _ _ _ _ Hm) as ->.
    rewrite count_visible_zero; [done|by apply IH|].
    by eapply manager_forEachE_normal_all.
  - rewrite (manager_visit_dynamic _ _ _ _ Hcl) in Hk.
    simpl in Hk. by simplify_eq.
  - rewrite (manager_visit_block_eq _ _ _ _ Hcl) in Hk.
    unfold Manager.visit_block in Hk. destruct (type x); simpl in Hk;
      by simplify_eq.
  - by destruct (manager_classify_not_separator x).
  - rewrite (manager_visit_unknown _ _ _ Hcl) in Hk.
    by simplify_eq/=.
Qed.

Lemma part000_empty_allow_list tree p it :
  node_at Part000.children p tree = Some it →
  ∃ it', node_at Part000.children p (Part000._filterContents (Some []) tree).1
           = Some it' ∧
         emptied disabled (Part000.classify it) it it'.
Proof.
  intros Hp. rewrite part000_filter_fst, part000_node_at_filter, Hp.
  eexists; split; [reflexivity|].
  rewrite part000_state_at_empty.
  destruct (Part000.classify it) as [|c|o| |] eqn:Hcl; simpl.
  - apply part000_classify_category in Hcl as [cs Hcs].
    rewrite (part000_visit_category _ _ _ _ Hcs). cbv zeta.
    by rewrite part000_forEach_empty_state.
  - by rewrite (part000_visit_dynamic _ _ _ _ Hcl).
  - destruct (part000_classify_block_typed _ _ Hcl) as [t ->].
    by rewrite (part000_visit_block _ _ _ _ Hcl).
  - by rewrite (part000_visit_sep _ _ _ Hcl).
  - by rewrite (part000_visit_unknown _ _ _ Hcl).
Qed.

Lemma manager_empty_marks it k :
  (Manager.visit (Some []) 0 it).2 = Normal k →
  emptied hidden (Manager.classify it) it (Manager.mark (Some []) it).
Proof.
  intros Hk. destruct (Manager.classify it) as [|c|o| |] eqn:Hcl; simpl.
  - pose proof Hcl as [_ [cs Hcs]]%manager_classify_category.
    destruct (manager_contents_mark_category _ _ _ _ Hcl Hcs Hk)
      as (m & _ & _ & Hh & Hkm).
    rewrite Hh. rewrite (visit_empty_zero _ _ Hk) in Hkm.
    by destruct (0 <? m)%nat.
  - unfold Manager.mark. by rewrite (manager_visit_dynamic _ _ _ _ Hcl).
  - unfold Manager.mark.
    rewrite (manager_visit_block_eq _ _ _ _ Hcl) in Hk |- *.
    unfold Manager.visit_block in *. by destruct (type it).
  - by destruct (manager_classify_not_separator it).
  - unfold Manager.mark. by rewrite (manager_visit_unknown _ _ _ Hcl).
Qed.

(** Claim C4, as the code has it.  Under the empty allow-list every block
    is disabled with the fixed reason, every dynamic category is flagged
    (the second revision writes [disabled], [manager.ts] writes [hidden])
    and every static category is hidden, in both revisions ([manager.ts]:
    on a tree whose blocks all have a type).  The second revision hides
    every separator; [manager.ts] has no separator branch and leaves a
    separator as it is, like every object it does not recognise. *)
Theorem empty_allow_list (tree : list ToolboxItemInfo) (p : list nat)
    (it : ToolboxItemInfo) :
  (node_at Part000.children p tree = Some it →
   ∃ it', node_at Part000.children p (Part000._filterContents (Some []) tree).1
            = Some it' ∧
          emptied disabled (Part000.classify it) it it')
  ∧
  (node_at Manager.children p tree = Some it →
   forallb Manager.blocks_typed tree = true →
   ∃ it', (Manager._filterContents (Some []) tree).2 = Normal 0 ∧
          node_at Manager.children p (Manager._filterContents (Some []) tree).1
            = Some it' ∧
          emptied hidden (Manager.classify it) it it' ∧
          (Part000.classify it = Separator → it' = it)).
Proof.
  split; [apply part000_empty_allow_list|].
  intros Hp Hty.
  destruct (manager_filter_typed_completes (Some []) tree Hty) as [n Hn].
  destruct (manager_filter_node _ _ _ _ _ Hn Hp) as [Hp' [k Hk]].
  assert (n = 0) as ->.
  { pose proof (manager_forEachE_counts _ _ _ _ Hn) as ->.
    rewrite count_visible_zero; [done| |].
    - apply Forall_forall. intros x _. apply visit_empty_zero.
    - by eapply manager_forEachE_normal_all. }
  exists (Manager.mark (Some []) it).
  split; [done|]. split; [done|]. split; [by eapply manager_empty_marks|].
  intros Hsep%manager_classify_separator_unknown.
  unfold Manager.mark. by rewrite (manager_visit_unknown _ _ _ Hsep).
Qed.

Lemma empty_allow_list_witness :
  (∃ it', node_at Part000.children [3]
            (Part000._filterContents (Some []) example_toolbox).1 = Some it' ∧
          hidden it' = Some (FBool true))
  ∧
  (∃ it', node_at Manager.children [5; 1]
            (Manager._filterContents (Some []) example_toolbox).1 = Some it' ∧
          disabled it' = Some (FBool true) ∧
          disabledReasons it' = Some ["This block is not allowed"]).
Proof.
  split.
  - destruct (empty_allow_list example_toolbox [3] example_separator)
      as [H _].
    destruct H as (it' & Hp & Hh); [reflexivity|]. by exists it'.
  - destruct (empty_allow_list example_toolbox [5; 1] (example_block "c"))
      as [_ H].
    destruct H as (it' & _ & Hp & Hh & _); [reflexivity..|]. by exists it'.
Defined.

(** Claim C4 as written fails in [manager.ts]: under the empty allow-list
    a separator is not hidden, the run leaves it untouched. *)
Lemma empty_allow_list_separator_shown :
  Manager._filterContents (Some []) [example_separator]
    = ([example_separator], Normal 0) ∧
  hidden example_separator = None.
Proof. by vm_compute. Qed.

(** Claim C9.  A second run of the filter with the same allow-list
    returns the tree and the count of the first run, in both revisions
    (in [manager.ts] also when the run stops with a [TypeError]). *)
Theorem filter_idempotent (allow : option (list string))
    (tree : list ToolboxItemInfo) :
  Part000._filterContents allow (Part000._filterContents allow tree).1
    = Part000._filterContents allow tree
  ∧
  Manager._filterContents allow (Manager._filterContents allow tree).1
    = Manager._filterContents allow tree.
Proof.
  split; [apply part000_filter_idem | apply manager_filter_idem].
Qed.

(** Claim C10.  In the second revision the filter either hides a
    separator (writes [hidden = true]) or leaves it as it is.  Hence a
    separator that is hidden stays hidden through every sequence of later
    runs, whatever their allow-lists; in particular every separator is
    hidden after a run with the empty allow-list and stays so after the
    runs that follow, for instance a run with the undefined allow-list. *)
Theorem separator_never_shown_again (tree : list ToolboxItemInfo)
    (p : list nat) (it : ToolboxItemInfo)
    (allows : list (option (list string))) :
  node_at Part000.children p tree = Some it →
  Part000.classify it = Separator →
  (∀ allow, ∃ it',
     node_at Part000.children p (Part000._filterContents allow tree).1
       = Some it' ∧
     (it' = it ∨ it' = set_hidden (FBool true) it))
  ∧
  (hidden it = Some (FBool true) →
   ∃ it', node_at Part000.children p (Part000.filter_runs allows tree)
            = Some it' ∧
          Part000.classify it' = Separator ∧
          hidden it' = Some (FBool true))
  ∧
  (∃ it', node_at Part000.children p
            (Part000.filter_runs (Some [] :: allows) tree) = Some it' ∧
          Part000.classify it' = Separator ∧
          hidden it' = Some (FBool true)).
Proof.
  intros Hp Hcl. split_and!.
  - intros allow.
    destruct (part000_node_at_filter_separator allow tree p it Hp Hcl)
      as (it' & Hp' & _ & Hit').
    by exists it'.
  - by apply part000_hidden_separator_stays.
  - destruct (part000_empty_allow_list tree p it Hp) as (it1 & Hp1 & He).
    rewrite Hcl in He. simpl in He.
    cbn [Part000.filter_runs foldl].
    apply (part000_hidden_separator_stays allows _ p it1); [done| |done].
    rewrite part000_filter_fst, part000_node_at_filter, Hp in Hp1.
    simplify_eq/=. by rewrite part000_classify_visit.
Qed.

Lemma separator_never_shown_again_witness :
  ∃ it',
    node_at Part000.children [1]
      (Part000.filter_runs [Some []; None] example_toolbox) = Some it' ∧
    Part000.classify it' = Separator ∧ hidden it' = Some (FBool true).
Proof.
  destruct (separator_never_shown_again example_toolbox [1]
              example_separator [None]) as (_ & _ & H); [reflexivity..|].
  exact H.
Defined.

(** * The claims about the manager *)

Section manager_facts.
Variable F :
  option (list string) → list ToolboxItemInfo →
  list ToolboxItemInfo * completion nat.

Lemma _filterToolbox_fields m :
  let r := _filterToolbox F m in
  _toolbox r.1 = _toolbox m ∧ _changed r.1 = _changed m ∧
  _allowedBlocks r.1 = _allowedBlocks m ∧
  _selectedKernel r.1 = _selectedKernel m ∧
  _generator r.1 = _generator m ∧
  _sessionContext r.1 = _sessionContext m ∧
  generators (_registry r.1) = generators (_registry m) ∧
  (∀ k, is_Some (toolboxes (_registry r.1) !! k) ↔
        is_Some (toolboxes (_registry m) !! k)).
Proof.
  unfold _filterToolbox.
  destruct (toolboxes (_registry m) !! _toolbox m) as [cs|] eqn:Hcs;
    cbn; split_and!; try done.
  intros k. destruct (decide (_toolbox m = k)) as [<-|Hne].
  - rewrite lookup_insert_eq, Hcs. split; eauto.
  - by rewrite lookup_insert_ne.
Qed.

Lemma _filterToolbox_completion m :
  (_filterToolbox F m).2 = Normal tt ∨
  ((_filterToolbox F m).2 = Throw ∧
   ∃ cs, toolboxes (_registry m) !! _toolbox m = Some cs ∧
         (F (_allowedBlocks m) cs).2 = Throw).
Proof.
  unfold _filterToolbox.
  destruct (toolboxes (_registry m) !! _toolbox m) as [cs|]; [|by left].
  cbn. destruct (F (_allowedBlocks m) cs).2 eqn:Hc; [by left|].
  right. split; [done|]. by exists cs.
Qed.

(** [setToolbox] with a name other than the current one. *)
Lemma setToolbox_other name m :
  _toolbox m ≠ name →
  let resolved :=
    match toolboxes (_registry m) !! name with
    | Some _ => name
    | None => "default"
    end in
  let r := setToolbox F name m in
  _toolbox r.1 = resolved ∧
  (r.2 = Normal tt ∧ _changed r.1 = _changed m ++ [toolbox] ∨
   r.2 = Throw ∧ _changed r.1 = _changed m ∧
   ∃ cs, toolboxes (_registry m) !! resolved = Some cs ∧
         (F (_allowedBlocks m) cs).2 = Throw).
Proof.
  intros Hne resolved. unfold setToolbox.
  rewrite bool_decide_eq_true_2 by done. fold resolved.
  pose proof (_filterToolbox_fields (with_toolbox resolved m))
    as (Ht & Hc & _).
  pose proof (_filterToolbox_completion (with_toolbox resolved m)) as Hcomp.
  destruct (_filterToolbox F (with_toolbox resolved m)) as [m2 [[]|]];
    cbn in *.
  - split; [done|]. left. by rewrite Hc.
  - split; [done|]. right. destruct Hcomp as [|[_ Hcs]]; [done|].
    by rewrite Hc.
Qed.

Lemma setToolbox_same m : setToolbox F (_toolbox m) m = (m, Normal tt).
Proof. unfold setToolbox. by rewrite bool_decide_eq_false_2 by naive_solver. Qed.

End manager_facts.

Lemma Part000_filter_completes allow cs :
  (Part000._filterContents_c allow cs).2 ≠ Throw.
Proof. done. Qed.

(** Claim C3, as the code has it.  [setToolbox] with the current name
    changes nothing and emits nothing.  With a name that is not registered
    and differs from the current one it makes ["default"] the active
    toolbox and emits one ["toolbox"] notification, also when the active
    toolbox was ["default"] already.  (In [manager.ts] the notification
    follows the filter run: it is emitted when the run completes, which it
    does when the allow-list is undefined or the blocks of the default
    toolbox all have a type.) *)
Theorem setToolbox_unregistered (m : BlocklyManager) :
  (setToolbox Part000._filterContents_c (_toolbox m) m = (m, Normal tt) ∧
   setToolbox Manager._filterContents (_toolbox m) m = (m, Normal tt))
  ∧
  (∀ name,
     toolboxes (_registry m) !! name = None → name ≠ _toolbox m →
     (let r := setToolbox Part000._filterContents_c name m in
      _toolbox r.1 = "default" ∧ r.2 = Normal tt ∧
      _changed r.1 = _changed m ++ [toolbox])
     ∧
     (let r := setToolbox Manager._filterContents name m in
      _toolbox r.1 = "default" ∧
      (r.2 = Normal tt → _changed r.1 = _changed m ++ [toolbox]) ∧
      (_allowedBlocks m = None ∨
       (∀ cs, toolboxes (_registry m) !! "default" = Some cs →
              forallb Manager.blocks_typed cs = true) →
       r.2 = Normal tt))).
Proof.
  split; [by rewrite !setToolbox_same|].
  intros name Hreg Hne. split.
  - destruct (setToolbox_other Part000._filterContents_c name m)
      as [Ht Hc]; [done|]. rewrite Hreg in Ht, Hc.
    cbv zeta. split; [done|].
    destruct Hc as [[? ?]|(_ & _ & cs & _ & Hthrow)]; [done|].
    by destruct (Part000_filter_completes _ _ Hthrow).
  - destruct (setToolbox_other Manager._filterContents name m)
      as [Ht Hc]; [done|]. rewrite Hreg in Ht, Hc.
    cbv zeta. split; [done|]. split.
    + intros Hn. destruct Hc as [[_ ?]|[Hthrow _]]; [done|congruence].
    + intros Hok. destruct Hc as [[? _]|(_ & _ & cs & Hcs & Hthrow)];
        [done|].
      destruct (manager_filter_completes (_allowedBlocks m) cs) as [n Hn];
        [|congruence].
      destruct Hok as [?|Hty]; [by left | right; by apply Hty].
Qed.

Lemma setToolbox_unregistered_witness :
  _toolbox (setToolbox Manager._filterContents "nonexistent" example_manager).1
    = "default" ∧
  _changed (setToolbox Manager._filterContents "nonexistent" example_manager).1
    = [toolbox] ∧
  _changed (setToolbox Part000._filterContents_c "nonexistent" example_manager).1
    = [toolbox].
Proof.
  destruct (setToolbox_unregistered example_manager) as [_ H].
  destruct (H "nonexistent") as [(_ & _ & Hc) (Ht & Hc' & Hn)];
    [reflexivity | done |].
  split; [exact Ht|]. split; [|exact Hc].
  apply Hc', Hn. by left.
Defined.

(** Claim C3 as written fails: when the active toolbox is ["default"]
    already, [setToolbox] with a name that is not registered does emit a
    ["toolbox"] notification, in both revisions. *)
Lemma setToolbox_unregistered_emits :
  _toolbox example_manager = "default" ∧
  toolboxes (_registry example_manager) !! "nonexistent" = None ∧
  _changed example_manager = [] ∧
  _changed (setToolbox Manager._filterContents "nonexistent" example_manager).1
    = [toolbox] ∧
  _changed (setToolbox Part000._filterContents_c "nonexistent" example_manager).1
    = [toolbox].
Proof. by vm_compute. Qed.

(** Claim C5.  A kernel-changed event whose new kernel is in the
    catalogue makes that spec the selected kernel, makes the generator the
    registry entry for the spec's language (no generator at all when none
    is registered for it, whatever the generator was before), and emits
    one ["kernel"] notification; nothing else changes. *)
Theorem kernel_changed_known (m : BlocklyManager) (args : IChangedArgs)
    (name : string) (spec : KernelSpec.ISpecModel) :
  newValue args = Some name →
  kernelspecs (_sessionContext m) !! name = Some spec →
  let m' := _onKernelChanged args m in
  _selectedKernel m' = Some spec ∧
  _generator m' = generators (_registry m) !! KernelSpec.language spec ∧
  (generators (_registry m) !! KernelSpec.language spec = None →
   _generator m' = None) ∧
  _changed m' = _changed m ++ [kernel] ∧
  _toolbox m' = _toolbox m ∧ _allowedBlocks m' = _allowedBlocks m ∧
  _registry m' = _registry m ∧ _sessionContext m' = _sessionContext m ∧
  _description m' = _description m.
Proof.
  intros Hnew Hspec. unfold _onKernelChanged. rewrite Hnew, Hspec. simpl.
  split_and!; try done.
Qed.

Lemma kernel_changed_known_witness :
  let m := mkManager None "default" None (Some (mkGenerator "Python"))
             example_registry None example_session [] in
  let m' := _onKernelChanged (mkArgs None (Some "julia")) m in
  _selectedKernel m' = Some julia_spec ∧ _generator m' = None ∧
  _changed m' = [kernel].
Proof.
  intros m.
  destruct (kernel_changed_known m (mkArgs None (Some "julia")) "julia"
              julia_spec) as (Hk & _ & Hg & Hc & _); [reflexivity..|].
  split; [exact Hk|]. split; [apply Hg; reflexivity | exact Hc].
Defined.

(** Claim C6.  A kernel-changed event without a new kernel, or whose new
    kernel is not in the catalogue, leaves the manager as it is: no field
    changes and nothing is emitted. *)
Theorem kernel_changed_unknown (m : BlocklyManager) (args : IChangedArgs) :
  (newValue args = None ∨
   ∃ name, newValue args = Some name ∧
           kernelspecs (_sessionContext m) !! name = None) →
  _onKernelChanged args m = m.
Proof.
  unfold _onKernelChanged. intros [-> | (name & -> & ->)]; reflexivity.
Qed.

Lemma kernel_changed_unknown_witness :
  let m := mkManager None "default" None (Some (mkGenerator "Python"))
             example_registry (Some python_spec) example_session [toolbox] in
  _onKernelChanged (mkArgs (Some "python3") (Some "ruby")) m = m ∧
  _onKernelChanged (mkArgs (Some "python3") None) m = m.
Proof.
  intros m. split.
  - apply kernel_changed_unknown. right. exists "ruby". split; reflexivity.
  - apply kernel_changed_unknown. left. reflexivity.
Defined.

(** * The claims about the document mapper *)

Lemma find_value_spec (l : list (string * string)) (s : string) :
  find_value l (VString s) = true ↔ ∃ v, v ∈ l ∧ v.2 = s.
Proof.
  unfold find_value.
  destruct (List.find _ l) as [v|] eqn:Hf.
  - apply find_some in Hf as [Hin Heq]. apply String.eqb_eq in Heq.
    split; [|done]. intros _. exists v. split; [|done].
    by apply list_elem_of_In.
  - split; [done|]. intros (v & Hin & Heq).
    apply list_elem_of_In in Hin.
    pose proof (find_none _ _ Hf v Hin) as Hv. simpl in Hv.
    apply String.eqb_neq in Hv. done.
Qed.

Lemma find_toolbox_spec (m : BlocklyManager) (s : string) :
  find_value (listToolboxes m) (VString s) = true ↔
  is_Some (toolboxes (_registry m) !! s).
Proof.
  rewrite find_value_spec. unfold listToolboxes. split.
  - intros (v & Hin & <-). apply list_elem_of_fmap in Hin as ([k cs] & -> & Hin).
    apply elem_of_map_to_list in Hin. simpl. eauto.
  - intros [cs Hcs]. exists (s, s). split; [|done].
    apply list_elem_of_fmap. exists (s, cs). split; [done|].
    by apply elem_of_map_to_list.
Qed.

Lemma find_kernel_spec (m : BlocklyManager) (s : string) :
  find_value (listKernels m) (VString s) = true ↔
  ∃ key spec, kernelspecs (_sessionContext m) !! key = Some spec ∧
              KernelSpec.name spec = s ∧
              is_Some (generators (_registry m) !! KernelSpec.language spec).
Proof.
  rewrite find_value_spec. unfold listKernels. split.
  - intros (v & Hin & <-).
    apply list_elem_of_omap in Hin as ([key spec] & Hin & Hv).
    apply elem_of_map_to_list in Hin. simpl in Hv.
    destruct (generators (_registry m) !! KernelSpec.language spec) eqn:Hg;
      [|done].
    simplify_eq/=. exists key, spec. rewrite Hg. eauto.
  - intros (key & spec & Hspec & <- & [g Hg]).
    exists (KernelSpec.display_name spec, KernelSpec.name spec).
    split; [|done]. apply list_elem_of_omap. exists (key, spec).
    split; [by apply elem_of_map_to_list|]. simpl. by rewrite Hg.
Qed.

Lemma elem_of_snoc {A : Type} (l : list A) (x y : A) :
  y ∈ l ++ [x] ↔ y ∈ l ∨ y = x.
Proof. by rewrite elem_of_app, list_elem_of_singleton. Qed.


Ltac from_log H :=
  repeat (apply elem_of_snoc in H; destruct H as [H|H]); eauto.

Section panel_facts.
Variable F :
  option (list string) → list ToolboxItemInfo →
  list ToolboxItemInfo * completion nat.

Lemma setToolbox_fields name m :
  let r := setToolbox F name m in
  _sessionContext r.1 = _sessionContext m ∧
  _selectedKernel r.1 = _selectedKernel m ∧
  generators (_registry r.1) = generators (_registry m) ∧
  (∀ k, is_Some (toolboxes (_registry r.1) !! k) ↔
        is_Some (toolboxes (_registry m) !! k)).
Proof.
  unfold setToolbox. case_bool_decide; [|done].
  match goal with |- context [_filterToolbox F ?m1] =>
    pose proof (_filterToolbox_fields F m1) as (_ & _ & _ & Hk & _ & Hs & Hg & Ht);
    destruct (_filterToolbox F m1) as [m2 [[]|]] end; cbn in *; done.
Qed.

(** What [_load] does with a document, by case. *)
Lemma load_legacy p :
  _context_model p ≠ VNull →
  get (_context_model p) "format" = VUndefined →
  truthy (get (_context_model p) "blocks") = true →
  _load F p = (set_workspace (_context_model p) p, Normal tt).
Proof.
  intros Hnull Hf Hb. unfold _load.
  destruct (_context_model p); try done; rewrite Hf, Hb; done.
Qed.

Lemma load_format2 p :
  get (_context_model p) "format" = VNumber 2 →
  _load F p =
  let p1 := set_workspace (get (_context_model p) "workspace") p in
  let metadata := get (_context_model p) "metadata" in
  if truthy metadata then
    match load_toolbox F metadata p1 with
    | (p2, Normal _) => (load_kernel metadata p2, Normal tt)
    | (p2, Throw) => (p2, Throw)
    end
  else (p1, Normal tt).
Proof.
  intros Hf. unfold _load.
  destruct (_context_model p); try done; rewrite Hf; done.
Qed.

Lemma load_unsupported p :
  _context_model p ≠ VNull → _context_model p ≠ VUndefined →
  get (_context_model p) "format" ≠ VNumber 2 →
  (get (_context_model p) "format" = VUndefined →
   truthy (get (_context_model p) "blocks") = false) →
  _load F p =
  (show (unsupported_format (get (_context_model p) "format")) p, Normal tt).
Proof.
  intros Hnull Hundef Hf Hb. unfold _load.
  assert (Hbody :
    match get (_context_model p) "format" with
    | VUndefined =>
        if truthy (get (_context_model p) "blocks")
        then (set_workspace (_context_model p) p, Normal tt)
        else (show (unsupported_format (get (_context_model p) "format")) p,
              Normal tt)
    | VNumber 2 =>
        let p1 := set_workspace (get (_context_model p) "workspace") p in
        let metadata := get (_context_model p) "metadata" in
        if truthy metadata then
          match load_toolbox F metadata p1 with
          | (p2, Normal _) => (load_kernel metadata p2, Normal tt)
          | (p2, Throw) => (p2, Throw)
          end
        else (p1, Normal tt)
    | _ => (show (unsupported_format (get (_context_model p) "format")) p,
            Normal tt)
    end =
    (show (unsupported_format (get (_context_model p) "format")) p, Normal tt)).
  { destruct (get (_context_model p) "format") as [| |b|n|s|l|fs]; try done.
    - by rewrite Hb.
    - destruct n as [|[q|[q|q|]|]|q]; try done. }
  destruct (_context_model p); try done; exact Hbody.
Qed.

Lemma load_toolbox_cases metadata p :
  let tb := get metadata "toolbox" in
  let m := _manager p in
  let r := load_toolbox F metadata p in
  (truthy tb = false ∧ r = (p, Normal tt)) ∨
  (truthy tb = true ∧ find_value (listToolboxes m) tb = false ∧
   r = (show (unknown_toolbox tb) p, Normal tt)) ∨
  (∃ s, tb = VString s ∧ s ≠ "" ∧
        find_value (listToolboxes m) tb = true ∧
        r = (set_manager (setToolbox F s m).1 p, (setToolbox F s m).2)).
Proof.
  cbv zeta. unfold load_toolbox.
  destruct (truthy (get metadata "toolbox")) eqn:Ht; [|by left].
  right.
  destruct (get metadata "toolbox") as [| |b|n|s|l|fs] eqn:Htb;
    try (left; done).
  destruct (find_value (listToolboxes (_manager p)) (VString s)) eqn:Hf;
    [|left; done].
  right. exists s. split_and!; try done.
  intros ->. done.
Qed.

Lemma load_kernel_cases metadata p :
  let k := get metadata "kernel" in
  let m := _manager p in
  let r := load_kernel metadata p in
  (truthy k = false ∧ r = p) ∨
  (k = VString "No kernel" ∧ r = p) ∨
  (truthy k = true ∧ k ≠ VString "No kernel" ∧
   find_value (listKernels m) k = false ∧ r = show (unknown_kernel k) p) ∨
  (∃ s, k = VString s ∧ s ≠ "" ∧ s ≠ "No kernel" ∧
        find_value (listKernels m) k = true ∧
        r = set_manager (selectKernel s m) p).
Proof.
  cbv zeta. unfold load_kernel.
  destruct (truthy (get metadata "kernel")) eqn:Ht; [|by left].
  right.
  destruct (get metadata "kernel") as [| |b|n|s|l|fs] eqn:Hk;
    try (right; left; done).
  destruct (String.eqb s "No kernel") eqn:Hs.
  { apply String.eqb_eq in Hs as ->. by left. }
  apply String.eqb_neq in Hs. right.
  destruct (find_value (listKernels (_manager p)) (VString s)) eqn:Hf.
  - right. exists s. split_and!; try done. intros ->. done.
  - left. split_and!; try done. congruence.
Qed.

Lemma load_toolbox_workspace metadata p :
  layout_workspace (load_toolbox F metadata p).1 = layout_workspace p.
Proof.
  destruct (load_toolbox_cases metadata p)
    as [[_ ->]|[(_ & _ & ->)|(s & _ & _ & _ & ->)]]; done.
Qed.



Lemma load_toolbox_shown metadata p :
  shown (load_toolbox F metadata p).1 = shown p ∨
  shown (load_toolbox F metadata p).1
    = shown p ++ [unknown_toolbox (get metadata "toolbox")].
Proof.
  destruct (load_toolbox_cases metadata p)
    as [[_ ->]|[(_ & _ & ->)|(s & _ & _ & _ & ->)]]; eauto.
Qed.


Lemma load_kernel_fields metadata p :
  layout_workspace (load_kernel metadata p) = layout_workspace p ∧
  _toolbox (_manager (load_kernel metadata p)) = _toolbox (_manager p).
Proof.
  destruct (load_kernel_cases metadata p)
    as [[_ ->]|[[_ ->]|[(_ & _ & _ & ->)|(k & _ & _ & _ & _ & ->)]]]; done.
Qed.


Lemma load_kernel_shown metadata p :
  shown (load_kernel metadata p) = shown p ∨
  shown (load_kernel metadata p)
    = shown p ++ [unknown_kernel (get metadata "kernel")].
Proof.
  destruct (load_kernel_cases metadata p)
    as [[_ ->]|[[_ ->]|[(_ & _ & _ & ->)|(k & _ & _ & _ & _ & ->)]]]; eauto.
Qed.


Lemma load_toolbox_registered metadata p s :
  get metadata "toolbox" = VString s → s ≠ "" →
  is_Some (toolboxes (_registry (_manager p)) !! s) →
  load_toolbox F metadata p
    = (set_manager (setToolbox F s (_manager p)).1 p,
       (setToolbox F s (_manager p)).2) ∧
  _toolbox (setToolbox F s (_manager p)).1 = s.
Proof.
  intros Htb Hs Hreg.
  assert (Hfind : find_value (listToolboxes (_manager p))
                    (get metadata "toolbox") = true).
  { rewrite Htb. by apply find_toolbox_spec. }
  split.
  - destruct (load_toolbox_cases metadata p)
      as [[Ht _]|[(_ & Hf & _)|(s' & Hs' & _ & _ & Hr)]].
    + rewrite Htb in Ht. simpl in Ht.
      by apply negb_false_iff, String.eqb_eq in Ht.
    + congruence.
    + rewrite Htb in Hs'. by injection Hs' as <-.
  - destruct (decide (_toolbox (_manager p) = s)) as [<-|Hne].
    + by rewrite setToolbox_same.
    + destruct (setToolbox_other F s (_manager p) Hne) as [-> _].
      by destruct Hreg as [cs ->].
Qed.

Lemma load_kernel_listed metadata p k :
  get metadata "kernel" = VString k → k ≠ "" → k ≠ "No kernel" →
  find_value (listKernels (_manager p)) (VString k) = true →
  load_kernel metadata p = set_manager (selectKernel k (_manager p)) p.
Proof.
  intros Hk Hne Hns Hfind.
  destruct (load_kernel_cases metadata p)
    as [[Ht _]|[[Ht _]|[(_ & _ & Hf & _)|(k' & Hk' & _ & _ & _ & Hr)]]].
  - rewrite Hk in Ht. simpl in Ht.
    by apply negb_false_iff, String.eqb_eq in Ht.
  - rewrite Hk in Ht. by injection Ht.
  - rewrite Hk in Hf. congruence.
  - rewrite Hk in Hk'. by injection Hk' as <-.
Qed.

End panel_facts.




Lemma get_kernel_selected (m : BlocklyManager) :
  get_kernel m ≠ "No kernel" →
  ∃ spec, _selectedKernel m = Some spec ∧ KernelSpec.name spec = get_kernel m ∧
          KernelSpec.name spec ≠ "".
Proof.
  unfold get_kernel. destruct (_selectedKernel m) as [spec|]; [|done].
  case_bool_decide; [done|]. intros _. by exists spec.
Qed.

(** Claim C8, as the code has it.  A save always writes a document of
    format 2 whose metadata hold the current toolbox name and the current
    kernel name, or ["No kernel"].  Let the saved toolbox name be
    registered and not the empty string, and the saved kernel name be
    other than ["No kernel"] and be the key and the name of a catalogue
    entry whose language has a generator.  Then loading the document gives
    back the toolbox name and requests the kernel, and the session's
    confirmation of the request gives back the kernel name.  (The request
    follows the filter run on the toolbox, which always completes in the
    second revision.) *)
Theorem save_load_round_trip
    (F : option (list string) → list ToolboxItemInfo →
         list ToolboxItemInfo * completion nat)
    (p p0 : BlocklyPanel) (spec0 : KernelSpec.ISpecModel) :
  F = Part000._filterContents_c ∨ F = Manager._filterContents →
  let m := _manager p in
  let m0 := _manager p0 in
  let doc := _context_model (_onSave started p) in
  doc = VObject
          [("format", VNumber 2);
           ("workspace", layout_workspace p);
           ("metadata",
             VObject [("toolbox", VString (getToolbox m));
                      ("kernel", VString (get_kernel m))])]
  ∧
  (getToolbox m ≠ "" →
   is_Some (toolboxes (_registry m0) !! getToolbox m) →
   get_kernel m ≠ "No kernel" →
   kernelspecs (_sessionContext m0) !! get_kernel m = Some spec0 →
   KernelSpec.name spec0 = get_kernel m →
   is_Some (generators (_registry m0) !! KernelSpec.language spec0) →
   let r := _load F (fromJSON doc p0) in
   getToolbox (_manager r.1) = getToolbox m ∧
   (F = Part000._filterContents_c → r.2 = Normal tt) ∧
   (r.2 = Normal tt →
    changeKernel_calls (_sessionContext (_manager r.1))
      = changeKernel_calls (_sessionContext m0) ++ [get_kernel m] ∧
    get_kernel (session_confirms (get_kernel m) (_manager r.1))
      = get_kernel m)).
Proof.
  intros HF. cbv zeta. split; [reflexivity|].
  intros Hne Hreg Hsentinel Hspec0 Hname Hgen.
  destruct (get_kernel_selected _ Hsentinel) as (spec & Hsel & Hk & Hk1).
  set (doc := _context_model (_onSave started p)).
  rewrite (load_format2 F (fromJSON doc p0)) by reflexivity.
  cbv zeta. change (_context_model (fromJSON doc p0)) with doc.
  set (metadata := get doc "metadata").
  set (p1 := set_workspace (get doc "workspace") (fromJSON doc p0)).
  change (truthy metadata) with true. cbv iota.
  destruct (load_toolbox_registered F metadata p1 (getToolbox (_manager p)))
    as [-> Htool]; [reflexivity | done | done |].
  change (_manager p1) with (_manager p0) in *.
  pose proof (setToolbox_fields F (getToolbox (_manager p)) (_manager p0))
    as (Hsess & _ & Hgens & _).
  assert (Hcomp : F = Part000._filterContents_c →
                  (setToolbox F (getToolbox (_manager p)) (_manager p0)).2
                  = Normal tt).
  { intros ->.
    destruct (decide (_toolbox (_manager p0) = getToolbox (_manager p)))
      as [Heq|Hneq].
    - rewrite <- Heq. by rewrite setToolbox_same.
    - destruct (setToolbox_other Part000._filterContents_c _ _ Hneq)
        as [_ [[? _]|(_ & _ & cs & _ & Hthrow)]]; [done|].
      by destruct (Part000_filter_completes _ _ Hthrow). }
  destruct (setToolbox F (getToolbox (_manager p)) (_manager p0))
    as [m2 [[]|]] eqn:Hset; cbn [fst snd] in *.
  - rewrite (load_kernel_listed metadata (set_manager m2 p1)
               (get_kernel (_manager p))); [|reflexivity|congruence|done|].
    2:{ apply find_kernel_spec. cbn [_manager set_manager].
        exists (get_kernel (_manager p)), spec0. by rewrite Hsess, Hgens. }
    cbn [fst snd _manager set_manager]. split; [done|]. split; [done|].
    intros _. split; [cbn; by rewrite Hsess|].
    unfold session_confirms, _onKernelChanged, selectKernel.
    cbn [newValue _sessionContext with_session kernelspecs].
    rewrite Hsess, Hspec0.
    unfold get_kernel at 1. cbn [_selectedKernel emit with_kernel].
    rewrite Hname, <- Hk. by rewrite bool_decide_eq_false_2.
  - split; [done|]. split; [intros HP; by specialize (Hcomp HP)|done].
Qed.

Lemma save_load_round_trip_witness :
  let doc := _context_model (_onSave started (saving_panel "robot" python_spec)) in
  let r := _load Manager._filterContents (fromJSON doc loading_panel) in
  getToolbox (_manager r.1) = "robot" ∧
  changeKernel_calls (_sessionContext (_manager r.1)) = ["python3"] ∧
  get_kernel (session_confirms "python3" (_manager r.1)) = "python3".
Proof.
  destruct (save_load_round_trip Manager._filterContents
              (saving_panel "robot" python_spec) loading_panel python_spec)
    as [_ H]; [by right|].
  destruct H as (Ht & _ & Hk);
    [done | by eexists | done | reflexivity | reflexivity | by eexists |].
  destruct Hk as [Hcalls Hconf]; [reflexivity|].
  split; [exact Ht|]. split; [exact Hcalls | exact Hconf].
Defined.

(** Claim C8 as written fails in two corner cases.  A toolbox registered
    under the empty name is saved, but the load skips an empty name and
    the loading manager keeps its own toolbox.  A kernel whose spec is
    named ["No kernel"] is saved under that name, which the load takes
    for the absence of a kernel: nothing is requested, and a loading
    manager that has a kernel keeps it. *)
Lemma save_load_names_not_restored :
  (let p := saving_panel "" python_spec in
   let doc := _context_model (_onSave started p) in
   let r := _load Manager._filterContents (fromJSON doc loading_panel) in
   let r' := _load Part000._filterContents_c (fromJSON doc loading_panel) in
   toolboxes (_registry (_manager p)) !! getToolbox (_manager p) = Some [] ∧
   kernelspecs (_sessionContext (_manager p)) !! get_kernel (_manager p)
     = Some python_spec ∧
   generators (_registry (_manager p)) !! "python"
     = Some (mkGenerator "Python") ∧
   getToolbox (_manager p) = "" ∧
   getToolbox (_manager r.1) = "default" ∧
   getToolbox (_manager r'.1) = "default")
  ∧
  (let p := saving_panel "default" sentinel_spec in
   let p0 := set_manager (session_confirms "python3" (_manager loading_panel))
               loading_panel in
   let doc := _context_model (_onSave started p) in
   let r := _load Manager._filterContents (fromJSON doc p0) in
   kernelspecs (_sessionContext (_manager p)) !! get_kernel (_manager p)
     = Some sentinel_spec ∧
   generators (_registry (_manager p)) !! KernelSpec.language sentinel_spec
     = Some (mkGenerator "Python") ∧
   get_kernel (_manager p) = "No kernel" ∧
   get_kernel (_manager p0) = "python3" ∧
   changeKernel_calls (_sessionContext (_manager r.1)) = [] ∧
   get_kernel (_manager r.1) = "python3").
Proof. by vm_compute. Qed.

(** * Further properties of the filter *)

(** ** What a run keeps, and what it returns *)

Section forEach_map.
Context {A St B : Type} (g : A → B).

Lemma forEach_map_inv (f : St → A → A * St) l :
  Forall (λ x, ∀ s, g (f s x).1 = g x) l →
  ∀ s, List.map g (forEach f l s).1 = List.map g l.
Proof.
  induction 1 as [|x r Hx _ IH]; intros s; [done|].
  rewrite forEach_cons. cbn. by rewrite Hx, IH.
Qed.

Lemma forEachE_map_inv (f : St → A → A * completion St) l :
  Forall (λ x, ∀ s, g (f s x).1 = g x) l →
  ∀ s, List.map g (forEachE f l s).1 = List.map g l.
Proof.
  induction 1 as [|x r Hx _ IH]; intros s; [done|].
  rewrite forEachE_cons. destruct (f s x).2; cbn; by rewrite Hx, ?IH.
Qed.
End forEach_map.

Lemma skeleton_eq it cs' h d dr :
  List.map skeleton cs' = default [] (List.map skeleton <$> contents it) →
  is_Some (contents it) →
  skeleton (mkItem (kind it) (type it) (custom it) (Some cs') h d dr)
  = skeleton it.
Proof.
  intros Heq [cs Hcs]. destruct it as [k ty cu c0 h0 d0 dr0].
  simpl in *. subst c0. simpl in Heq. by rewrite Heq.
Qed.

Lemma skeleton_flags it h d dr :
  skeleton (mkItem (kind it) (type it) (custom it) (contents it) h d dr)
  = skeleton it.
Proof. by destruct it. Qed.

Lemma part000_skeleton_visit allow it : ∀ st,
  skeleton (Part000.visit allow st it).1 = skeleton it.
Proof.
  induction it as [it IH] using item_ind'. intros st.
  rewrite part000_visit_unfold.
  destruct (contents it) as [cs|] eqn:Hcs.
  - cbn zeta.
    assert (Hm : List.map skeleton
                   (forEach (Part000.visit allow) cs (Part000.mkCounters 0 0)).1
                 = List.map skeleton cs) by (by apply forEach_map_inv, IH).
    destruct (0 <? _)%nat; cbn [fst]; unfold set_hidden, with_contents;
      cbn [kind type custom contents hidden disabled disabledReasons];
      apply skeleton_eq; rewrite ?Hcs; eauto.
  - destruct (Part000.classify it) as [|c|[t|]| |]; try done.
    + destruct (Part000.allowed allow c); cbn [fst]; apply skeleton_flags.
    + destruct (Part000.allowed allow t); cbn [fst];
        unfold enable_block, disable_block, set_disabledReasons, set_disabled;
        cbn [kind type custom contents hidden disabled disabledReasons];
        apply skeleton_flags.
    + unfold Part000.visit_separator. destruct (_ =? _)%nat; cbn [fst];
        [apply skeleton_flags|done].
Qed.

Lemma manager_skeleton_visit allow it : ∀ v,
  skeleton (Manager.visit allow v it).1 = skeleton it.
Proof.
  induction it as [it IH] using item_ind'. intros v.
  destruct (Manager.classify it) as [|c|o| |] eqn:Hcl.
  - pose proof Hcl as [_ [cs Hcs]]%manager_classify_category.
    rewrite (manager_visit_category _ _ _ _ Hcl Hcs). cbn zeta.
    assert (Hm : List.map skeleton (forEachE (Manager.visit allow) cs 0).1
                 = List.map skeleton cs) by (apply forEachE_map_inv, IH, Hcs).
    destruct (forEachE (Manager.visit allow) cs 0).2 as [n|];
      [destruct (0 <? n)%nat|]; cbn [fst]; unfold set_hidden, with_contents;
      cbn [kind type custom contents hidden disabled disabledReasons];
      apply skeleton_eq; rewrite ?Hcs; eauto.
  - rewrite (manager_visit_dynamic _ _ _ _ Hcl).
    destruct (Manager.allowed allow c); apply skeleton_flags.
  - rewrite (manager_visit_block_eq _ _ _ _ Hcl).
    destruct (manager_visit_block_cases allow v it) as [->|[->| ->]];
      [done|..];
      unfold enable_block, disable_block, set_disabledReasons, set_disabled;
      cbn [kind type custom contents hidden disabled disabledReasons];
      apply skeleton_flags.
  - by destruct (manager_classify_not_separator it).
  - by rewrite (manager_visit_unknown _ _ _ Hcl).
Qed.

(** Property X1.  A run of the filter only writes [hidden], [disabled] and
    [disabledReasons]: it adds, removes and reorders no item, at any
    depth, and leaves [kind], [type] and [custom] as they were.  This holds
    in both revisions, and in [manager.ts] also for a run that throws. *)
Theorem filter_keeps_skeleton (allow : option (list string))
    (tree : list ToolboxItemInfo) :
  (List.map skeleton (Part000._filterContents allow tree).1
     = List.map skeleton tree ∧
   length (Part000._filterContents allow tree).1 = length tree)
  ∧
  (List.map skeleton (Manager._filterContents allow tree).1
     = List.map skeleton tree ∧
   length (Manager._filterContents allow tree).1 = length tree).
Proof.
  assert (H0 : List.map skeleton (Part000._filterContents allow tree).1
               = List.map skeleton tree).
  { rewrite part000_filter_fst. apply forEach_map_inv, Forall_forall.
    intros x _ s. apply part000_skeleton_visit. }
  assert (H1 : List.map skeleton (Manager._filterContents allow tree).1
               = List.map skeleton tree).
  { apply forEachE_map_inv, Forall_forall.
    intros x _ s. apply manager_skeleton_visit. }
  split; (split; [done|]).
  - by rewrite <- (length_map skeleton), H0, length_map.
  - by rewrite <- (length_map skeleton), H1, length_map.
Qed.

Lemma count_visible_le_length (b : ToolboxItemInfo → bool) l :
  (length (List.filter b l) ≤ length l)%nat.
Proof. induction l as [|x r IH]; simpl; [lia|]. destruct (b x); simpl; lia. Qed.

Lemma part000_filter_snd allow l :
  (Part000._filterContents allow l).2 =
  Part000.visible (forEach (Part000.visit allow) l (Part000.mkCounters 0 0)).2.
Proof.
  unfold Part000._filterContents.
  by destruct (forEach (Part000.visit allow) l (Part000.mkCounters 0 0)).
Qed.

(** Property X2.  The number [_filterContents] returns is the number of items of
    the array it was given that the run left visible (categories with
    [hidden = "false"], enabled blocks, enabled dynamic categories); it is
    at most the length of the array. *)
Theorem filter_returns_visible_count (allow : option (list string))
    (tree : list ToolboxItemInfo) :
  ((Part000._filterContents allow tree).2
     = Part000.count_visible (Part000._filterContents allow tree).1 ∧
   ((Part000._filterContents allow tree).2 ≤ length tree)%nat)
  ∧
  (∀ n, (Manager._filterContents allow tree).2 = Normal n →
        n = Manager.count_visible (Manager._filterContents allow tree).1 ∧
        (n ≤ length tree)%nat).
Proof.
  split.
  - assert (H : (Part000._filterContents allow tree).2
                = Part000.count_visible (Part000._filterContents allow tree).1).
    { rewrite part000_filter_snd, part000_filter_fst.
      by rewrite part000_forEach_visible. }
    split; [done|]. rewrite H. unfold Part000.count_visible.
    etransitivity; [apply count_visible_le_length|].
    by rewrite part000_filter_fst, forEach_length.
  - intros n Hn.
    destruct (manager_filter_normal _ _ _ Hn) as [Hm _].
    pose proof (manager_forEachE_counts _ _ _ _ Hn) as Hc. simpl in Hc.
    rewrite Hm. split; [done|]. subst n. unfold Manager.count_visible.
    etransitivity; [apply count_visible_le_length|].
    by rewrite length_fmap.
Qed.

Lemma filter_returns_visible_count_witness :
  (Part000._filterContents (Some ["c"]) example_toolbox).2 = 2 ∧
  (Manager._filterContents (Some ["c"]) example_toolbox).2 = Normal 2 ∧
  2 = Manager.count_visible
        (Manager._filterContents (Some ["c"]) example_toolbox).1.
Proof.
  destruct (filter_returns_visible_count (Some ["c"]) example_toolbox)
    as [[H0 _] H1].
  split; [by vm_compute|]. split; [by vm_compute|].
  apply (H1 2). by vm_compute.
Defined.

(** ** When the filter of [manager.ts] throws *)

Section forEachE_throw.
Context {A St : Type} (f : St → A → A * completion St).

Lemma forEachE_throws l :
  Exists (λ x, ∀ s, (f s x).2 = Throw) l →
  ∀ s, (forEachE f l s).2 = Throw.
Proof.
  induction 1 as [x r Hx|x r _ IH]; intros s; rewrite forEachE_cons.
  - by rewrite Hx.
  - destruct (f s x).2; [apply IH|done].
Qed.

Lemma forEachE_take_normal l : ∀ s i s',
  (forEachE f (take i l) s).2 = Normal s' →
  (forEachE f l s).1 = (forEachE f (take i l) s).1 ++ (forEachE f (drop i l) s').1
  ∧ (forEachE f l s).2 = (forEachE f (drop i l) s').2.
Proof.
  induction l as [|x r IH]; intros s i s' Hn.
  - rewrite take_nil in *. rewrite drop_nil. simpl in *. by simplify_eq.
  - destruct i as [|i]; [simpl in *; by simplify_eq|].
    rewrite firstn_cons in *. rewrite skipn_cons.
    rewrite forEachE_cons in Hn. rewrite !forEachE_cons.
    destruct (f s x).2 as [s1|]; [|done]. simpl in Hn.
    destruct (IH _ _ _ Hn) as [-> ->]. done.
Qed.

(** A loop that throws has a first element whose callback throws: the
    elements before it were visited, the elements after it were not. *)
Lemma forEachE_throw_split l : ∀ s,
  (forEachE f l s).2 = Throw →
  ∃ i x s', l !! i = Some x ∧
    (forEachE f (take i l) s).2 = Normal s' ∧ (f s' x).2 = Throw ∧
    (forEachE f l s).1
      = (forEachE f (take i l) s).1 ++ (f s' x).1 :: drop (S i) l.
Proof.
  induction l as [|x r IH]; intros s Ht; [done|].
  rewrite forEachE_cons in Ht. destruct (f s x).2 as [s1|] eqn:Hx.
  - destruct (IH _ Ht) as (i & y & s' & Hy & Hn & Hty & Heq).
    exists (S i), y, s'. rewrite firstn_cons, !forEachE_cons, Hx. simpl.
    by rewrite Hn, Heq.
  - exists 0, x, s. rewrite forEachE_cons, Hx. done.
Qed.
End forEachE_throw.

Lemma manager_blocks_typed_cases it :
  Manager.blocks_typed it = false →
  (∃ cs, Manager.classify it = Category ∧ contents it = Some cs ∧
         forallb Manager.blocks_typed cs = false) ∨
  (Manager.classify it = Block None ∧ type it = None).
Proof.
  intros Hb. destruct it as [k ty cu cs h d dr].
  unfold Manager.classify. simpl in *.
  destruct (Manager.kind_is _ "CATEGORY").
  - destruct cs as [cs|]; [|done]. left. by exists cs.
  - destruct (Manager.kind_is _ "BLOCK"); [|done].
    destruct ty; [done|]. by right.
Qed.

Lemma manager_visit_untyped_throws l it : ∀ v,
  Manager.blocks_typed it = false → (Manager.visit (Some l) v it).2 = Throw.
Proof.
  induction it as [it IH] using item_ind'. intros v Hb.
  destruct (manager_blocks_typed_cases it Hb)
    as [(cs & Hcl & Hcs & Hf)|[Hcl Hty]].
  - rewrite (manager_visit_category _ _ _ _ Hcl Hcs). cbn zeta.
    rewrite forEachE_throws; [done|].
    specialize (IH cs Hcs).
    apply Exists_exists.
    assert (He : ∃ x, x ∈ cs ∧ Manager.blocks_typed x = false).
    { clear -Hf. induction cs as [|x r IHr]; [done|]. simpl in Hf.
      apply andb_false_iff in Hf as [Hx|Hr].
      - exists x. split; [left|done].
      - destruct (IHr Hr) as (y & Hy & Hyb). exists y. split; [by right|done]. }
    destruct He as (x & Hx & Hxb). exists x. split; [done|].
    intros s. rewrite Forall_forall in IH. by apply IH.
  - rewrite (manager_visit_block_eq _ _ _ _ Hcl). unfold Manager.visit_block.
    by rewrite Hty.
Qed.

Lemma manager_filter_untyped_throws l tree : ∀ v,
  forallb Manager.blocks_typed tree = false →
  (forEachE (Manager.visit (Some l)) tree v).2 = Throw.
Proof.
  intros v Hf. apply forEachE_throws, Exists_exists.
  induction tree as [|x r IH]; [done|]. simpl in Hf.
  apply andb_false_iff in Hf as [Hx|Hr].
  - exists x. split; [left|]. intros s. by apply manager_visit_untyped_throws.
  - destruct (IH Hr) as (y & Hy & Hyt). exists y. split; [by right|done].
Qed.

Lemma manager_throws_iff allow tree :
  (Manager._filterContents allow tree).2 = Throw ↔
  (∃ l, allow = Some l) ∧ forallb Manager.blocks_typed tree = false.
Proof.
  split.
  - intros Ht. destruct allow as [l|].
    + split; [eauto|]. destruct (forallb _ tree) eqn:Hb; [|done].
      destruct (manager_filter_typed_completes (Some l) tree Hb) as [n Hn].
      congruence.
    + destruct (manager_filter_undefined_completes tree) as [n Hn]. congruence.
  - intros [[l ->] Hb]. by apply manager_filter_untyped_throws.
Qed.

(** Property X3.  The filter of [manager.ts] throws exactly when the allow-list is
    defined and the run reaches an object of kind block that has no
    [type]; with the undefined allow-list it completes on every tree. *)
Theorem manager_filter_throws_iff (allow : option (list string))
    (tree : list ToolboxItemInfo) :
  ((Manager._filterContents allow tree).2 = Throw ↔
   (∃ l, allow = Some l) ∧ forallb Manager.blocks_typed tree = false)
  ∧
  (∃ n, (Manager._filterContents None tree).2 = Normal n).
Proof.
  split; [apply manager_throws_iff|apply manager_filter_undefined_completes].
Qed.

(** Property X4.  A run of the filter of [manager.ts] that throws is not undone:
    the items before the first top-level item with an untyped block are
    marked as by a complete run, the items after it are not visited. *)
Theorem manager_filter_stops_at_throw (allow : option (list string))
    (tree : list ToolboxItemInfo) :
  (Manager._filterContents allow tree).2 = Throw →
  ∃ i x, tree !! i = Some x ∧ Manager.blocks_typed x = false ∧
    forallb Manager.blocks_typed (take i tree) = true ∧
    take i (Manager._filterContents allow tree).1
      = Manager.mark allow <$> take i tree ∧
    drop (S i) (Manager._filterContents allow tree).1 = drop (S i) tree.
Proof.
  intros Ht.
  destruct (proj1 (manager_throws_iff _ _) Ht) as [[l ->] _].
  destruct (forEachE_throw_split _ _ _ Ht) as (i & x & s' & Hx & Hn & Hxt & Heq).
  assert (Hlen : length (forEachE (Manager.visit (Some l)) (take i tree) 0).1
                 = i).
  { rewrite (manager_forEachE_normal_marks _ _ _ _ Hn), length_fmap.
    pose proof (lookup_lt_Some _ _ _ Hx). rewrite length_take.
    apply Nat.min_l, Nat.lt_le_incl, H. }
  exists i, x. split; [done|]. split_and!.
  - destruct (Manager.blocks_typed x) eqn:Hb; [|done].
    destruct (manager_visit_typed_completes (Some l) x Hb) as [k Hk].
    rewrite manager_visit_shift in Hxt. simpl in Hxt. by rewrite Hk in Hxt.
  - destruct (forallb _ (take i tree)) eqn:Hb; [done|].
    pose proof (manager_filter_untyped_throws l _ 0 Hb). congruence.
  - unfold Manager._filterContents. rewrite Heq.
    rewrite take_app_length'; [|done].
    by rewrite (manager_forEachE_normal_marks _ _ _ _ Hn).
  - unfold Manager._filterContents. rewrite Heq.
    rewrite cons_middle, app_assoc.
    rewrite drop_app_length'; [done|]. rewrite length_app, Hlen. simpl. lia.
Qed.

Lemma manager_filter_stops_at_throw_witness :
  let untyped := mkItem (Some "block") None None None None None None in
  let tree := [example_block "a"; untyped; example_block "b"] in
  ∃ i x, tree !! i = Some x ∧ Manager.blocks_typed x = false ∧
    forallb Manager.blocks_typed (take i tree) = true ∧
    take i (Manager._filterContents (Some ["a"]) tree).1
      = Manager.mark (Some ["a"]) <$> take i tree ∧
    drop (S i) (Manager._filterContents (Some ["a"]) tree).1 = drop (S i) tree.
Proof.
  intros untyped tree.
  apply (manager_filter_stops_at_throw (Some ["a"]) tree). reflexivity.
Defined.

(** ** A larger allow-list shows more *)

Lemma allow_le_includes a a' x :
  allow_le a a' →
  match a with Some l => includes l x | None => true end = true →
  match a' with Some l => includes l x | None => true end = true.
Proof.
  destruct a' as [l'|]; [|done]. destruct a as [l|]; [|done].
  simpl. rewrite !includes_true. intros Hs Hx. by apply Hs.
Qed.

Lemma count_filter_mono {A : Type} (b b' : A → bool) (l l' : list A) :
  Forall2 (λ x x', b x = true → b' x' = true) l l' →
  (length (List.filter b l) ≤ length (List.filter b' l'))%nat.
Proof.
  induction 1 as [|x x' r r' Hx _ IH]; simpl; [lia|].
  destruct (b x); [rewrite Hx by done|destruct (b' x')]; simpl; lia.
Qed.

Section part000_mono.
Import Part000.

Lemma part000_unit_visible_category allow st it cs :
  contents it = Some cs →
  unit_visible (visit allow st it).1 =
  (0 <? count_visible (forEach (visit allow) cs (mkCounters 0 0)).1)%nat.
Proof.
  intros Hcs. rewrite (part000_visit_category _ _ _ _ Hcs). cbn zeta.
  rewrite part000_forEach_visible. cbn [visible Nat.add].
  destruct (0 <? _)%nat; cbn [fst]; unfold unit_visible;
    (rewrite (proj2 (part000_classify_category _)) by (simpl; eauto));
    done.
Qed.

Lemma part000_unit_visible_block allow st it t :
  classify it = Block (Some t) →
  unit_visible (visit allow st it).1 = allowed allow t.
Proof.
  intros Hcl. unfold unit_visible, leaf_visible.
  rewrite part000_classify_visit, Hcl.
  rewrite (part000_visit_block _ _ _ _ Hcl). by destruct (allowed allow t).
Qed.

Lemma part000_unit_visible_dynamic allow st it c :
  classify it = DynamicCategory c →
  unit_visible (visit allow st it).1 = allowed allow c.
Proof.
  intros Hcl. unfold unit_visible, leaf_visible.
  rewrite part000_classify_visit, Hcl.
  rewrite (part000_visit_dynamic _ _ _ _ Hcl). by destruct (allowed allow c).
Qed.

Lemma part000_forEach_Forall2 {P : ToolboxItemInfo → ToolboxItemInfo → Prop}
    a a' l :
  Forall (λ x, ∀ st st', P (visit a st x).1 (visit a' st' x).1) l →
  ∀ s s', Forall2 P (forEach (visit a) l s).1 (forEach (visit a') l s').1.
Proof.
  induction 1 as [|x r Hx _ IH]; intros s s'; [constructor|].
  rewrite !forEach_cons. cbn [fst]. constructor; [apply Hx|apply IH].
Qed.

Lemma part000_visit_mono a a' it :
  allow_le a a' → ∀ st st',
  unit_visible (visit a st it).1 = true →
  unit_visible (visit a' st' it).1 = true.
Proof.
  intros Hle. induction it as [it IH] using item_ind'. intros st st'.
  destruct (contents it) as [cs|] eqn:Hcs.
  - rewrite !(part000_unit_visible_category _ _ _ cs) by done.
    rewrite !Nat.ltb_lt.
    pose proof (count_filter_mono unit_visible unit_visible _ _
      (part000_forEach_Forall2 a a' cs (IH cs eq_refl)
         (mkCounters 0 0) (mkCounters 0 0))).
    unfold count_visible. lia.
  - destruct (classify it) as [|c|[t|]| |] eqn:Hcl.
    + by apply part000_classify_not_category in Hcs.
    + rewrite !(part000_unit_visible_dynamic _ _ _ c) by done.
      apply (allow_le_includes a a' c Hle).
    + rewrite !(part000_unit_visible_block _ _ _ t) by done.
      apply (allow_le_includes a a' t Hle).
    + by apply part000_classify_block_typed in Hcl as [? ?].
    + rewrite part000_unit_visible_separator; [done|].
      by rewrite part000_classify_visit.
    + by rewrite !(part000_visit_unknown _ _ _ Hcl).
Qed.
End part000_mono.

Section manager_mono.
Import Manager.

Lemma manager_unit_visible_category allow it cs k :
  classify it = Category → contents it = Some cs →
  (visit allow 0 it).2 = Normal k →
  unit_visible (mark allow it) =
  (0 <? count_visible (mark allow <$> cs))%nat.
Proof.
  intros Hcl Hcs Hk.
  destruct (manager_contents_mark_category _ _ _ _ Hcl Hcs Hk)
    as (n & Hn & _ & Hh & _).
  pose proof (manager_forEachE_counts _ _ _ _ Hn) as Hc. simpl in Hc.
  assert (Hm : classify (mark allow it) = classify it)
    by apply manager_classify_visit.
  unfold unit_visible. rewrite Hm, Hcl, Hh, <- Hc.
  by destruct (0 <? n)%nat.
Qed.

Lemma manager_unit_visible_block allow it t k :
  classify it = Block (Some t) →
  (visit allow 0 it).2 = Normal k →
  unit_visible (mark allow it) = allowed allow t.
Proof.
  intros Hcl Hk.
  assert (Hc : classify (mark allow it) = classify it)
    by apply manager_classify_visit.
  unfold unit_visible, leaf_visible. rewrite Hc, Hcl.
  rewrite (manager_mark_block _ _ _ Hcl). by destruct (allowed allow t).
Qed.

Lemma manager_unit_visible_dynamic allow it c :
  classify it = DynamicCategory c →
  unit_visible (mark allow it) = allowed allow c.
Proof.
  intros Hcl.
  assert (Hc : classify (mark allow it) = classify it)
    by apply manager_classify_visit.
  unfold unit_visible, leaf_visible. rewrite Hc, Hcl. unfold mark.
  rewrite (manager_visit_dynamic _ _ _ _ Hcl). by destruct (allowed allow c).
Qed.

Lemma manager_mark_mono a a' it :
  allow_le a a' →
  (∃ k, (visit a 0 it).2 = Normal k) →
  (∃ k, (visit a' 0 it).2 = Normal k) →
  unit_visible (mark a it) = true → unit_visible (mark a' it) = true.
Proof.
  intros Hle. induction it as [it IH] using item_ind'. intros [k Hk] [k' Hk'].
  destruct (classify it) as [|c|[t|]| |] eqn:Hcl.
  - pose proof Hcl as [_ [cs Hcs]]%manager_classify_category.
    rewrite (manager_unit_visible_category _ _ _ _ Hcl Hcs Hk).
    rewrite (manager_unit_visible_category _ _ _ _ Hcl Hcs Hk').
    rewrite !Nat.ltb_lt.
    destruct (manager_contents_mark_category _ _ _ _ Hcl Hcs Hk)
      as (n & Hn & _).
    destruct (manager_contents_mark_category _ _ _ _ Hcl Hcs Hk')
      as (n' & Hn' & _).
    apply manager_forEachE_normal_all in Hn, Hn'.
    assert (HF : Forall2 (λ x x', unit_visible x = true → unit_visible x' = true)
                   (mark a <$> cs) (mark a' <$> cs)).
    { specialize (IH cs Hcs). clear -IH Hn Hn'.
      induction cs as [|x r IHr]; [constructor|].
      apply Forall_cons in IH as [Hx Hr], Hn as [Hnx Hnr], Hn' as [Hnx' Hnr'].
      rewrite !fmap_cons. constructor; [by apply Hx|by apply IHr]. }
    pose proof (count_filter_mono _ _ _ _ HF). unfold count_visible. lia.
  - rewrite !(manager_unit_visible_dynamic _ _ c) by done.
    apply (allow_le_includes a a' (toLowerCase c) Hle).
  - rewrite (manager_unit_visible_block _ _ t k) by done.
    rewrite (manager_unit_visible_block _ _ t k') by done.
    apply (allow_le_includes a a' (toLowerCase t) Hle).
  - assert (Hm : ∀ b, classify (mark b it) = classify it)
      by (intros; apply manager_classify_visit).
    unfold unit_visible, leaf_visible. rewrite !Hm, Hcl. unfold mark.
    rewrite !(manager_visit_block_eq _ _ _ _ Hcl).
    rewrite (manager_visit_block_eq a _ _ _ Hcl) in Hk.
    rewrite (manager_visit_block_eq a' _ _ _ Hcl) in Hk'.
    pose proof (manager_classify_block_type _ _ Hcl) as Hty.
    unfold visit_block in *. rewrite <- Hty in *.
    destruct a as [l|]; [done|]. destruct a' as [l'|]; [done|]. done.
  - by destruct (manager_classify_not_separator it).
  - unfold mark. by rewrite !(manager_visit_unknown _ _ _ Hcl).
Qed.
End manager_mono.

(** Property X5.  A more permissive allow-list shows at least as much: when every
    entry of the first allow-list is in the second (or the second is
    undefined), every block, dynamic category and category that the
    filter leaves visible under the first is left visible under the
    second, and the number returned does not decrease. *)
Theorem filter_monotone (a a' : option (list string))
    (tree : list ToolboxItemInfo) :
  allow_le a a' →
  ((∀ p x x',
      node_at Part000.children p (Part000._filterContents a tree).1 = Some x →
      node_at Part000.children p (Part000._filterContents a' tree).1 = Some x' →
      Part000.unit_visible x = true → Part000.unit_visible x' = true) ∧
   ((Part000._filterContents a tree).2 ≤ (Part000._filterContents a' tree).2)%nat)
  ∧
  (∀ n, (Manager._filterContents a tree).2 = Normal n →
     ∃ n', (Manager._filterContents a' tree).2 = Normal n' ∧ (n ≤ n')%nat ∧
     ∀ p x x',
      node_at Manager.children p (Manager._filterContents a tree).1 = Some x →
      node_at Manager.children p (Manager._filterContents a' tree).1 = Some x' →
      Manager.unit_visible x = true → Manager.unit_visible x' = true).
Proof.
  intros Hle. split; [split|].
  - intros p x x'. rewrite !part000_filter_fst, !part000_node_at_filter.
    destruct (node_at Part000.children p tree) as [it|]; [|done].
    intros [= <-] [= <-]. by apply part000_visit_mono.
  - rewrite !part000_filter_snd, !part000_forEach_visible. simpl.
    apply count_filter_mono, part000_forEach_Forall2, Forall_forall.
    intros x _ st st'. by apply part000_visit_mono.
  - intros n Hn.
    assert (Hc' : ∃ n', (Manager._filterContents a' tree).2 = Normal n').
    { destruct a' as [l'|]; [|apply manager_filter_undefined_completes].
      destruct a as [l|]; [|done].
      destruct (Manager._filterContents (Some l') tree).2 as [n'|] eqn:Ht;
        [eauto|].
      apply manager_throws_iff in Ht as [_ Hb].
      pose proof (manager_filter_untyped_throws l tree 0 Hb).
      unfold Manager._filterContents in Hn. congruence. }
    destruct Hc' as [n' Hn']. exists n'. split; [done|].
    destruct (manager_filter_normal _ _ _ Hn) as [Hm Hp].
    destruct (manager_filter_normal _ _ _ Hn') as [Hm' Hp'].
    pose proof (manager_forEachE_normal_all _ _ _ _ Hn) as Hall.
    pose proof (manager_forEachE_normal_all _ _ _ _ Hn') as Hall'.
    split.
    + rewrite (manager_forEachE_counts _ _ _ _ Hn).
      rewrite (manager_forEachE_counts _ _ _ _ Hn'). simpl.
      apply count_filter_mono.
      clear -Hall Hall' Hle. induction tree as [|x r IH]; [constructor|].
      apply Forall_cons in Hall as [Hx Hr], Hall' as [Hx' Hr'].
      rewrite !fmap_cons.
      constructor; [by apply manager_mark_mono|by apply IH].
    + intros p x x'. rewrite Hp, Hp'.
      destruct (node_at Manager.children p tree) as [it|] eqn:Hit; [|done].
      intros [= <-] [= <-].
      apply manager_mark_mono; [done|..].
      * by eapply manager_node_completes.
      * by eapply manager_node_completes.
Qed.

Lemma filter_monotone_witness :
  ((Part000._filterContents (Some ["a"]) example_toolbox).2
   ≤ (Part000._filterContents (Some ["a"; "c"]) example_toolbox).2)%nat ∧
  ∃ n', (Manager._filterContents None example_toolbox).2 = Normal n' ∧
        (2 ≤ n')%nat.
Proof.
  destruct (filter_monotone (Some ["a"]) (Some ["a"; "c"]) example_toolbox)
    as [[_ H0] _].
  { intros x Hx. apply list_elem_of_singleton in Hx as ->. left. }
  split; [exact H0|].
  destruct (filter_monotone (Some ["c"]) None example_toolbox I) as [_ H1].
  destruct (H1 2) as (n' & Hn' & Hle & _); [by vm_compute|].
  exists n'. split; [exact Hn'|exact Hle].
Defined.

(** ** A run after another run *)

Lemma forEachE_absorb {A St : Type} (f1 f2 : St → A → A * completion St) l :
  Forall (λ x, ∀ s s', f2 s (f1 s' x).1 = f2 s x) l →
  Forall (λ x, ∀ s, (f2 s x).2 ≠ Throw) l →
  ∀ s1 s2, forEachE f2 (forEachE f1 l s1).1 s2 = forEachE f2 l s2.
Proof.
  induction 1 as [|x r Hx _ IH]; intros Hn s1 s2; [done|].
  apply Forall_cons in Hn as [Hnx Hnr].
  rewrite (forEachE_cons f1).
  destruct (f1 s1 x).2 as [s|] eqn:H1; cbn [fst].
  - rewrite !forEachE_cons, Hx. specialize (Hnx s2).
    destruct (f2 s2 x).2; [|done]. by rewrite IH.
  - by rewrite !forEachE_cons, Hx.
Qed.

Section manager_absorb.
Import Manager.

Lemma manager_visit_absorb a1 a2 it :
  (∃ k, (visit a2 0 it).2 = Normal k) →
  ∀ v, visit a2 v (mark a1 it) = visit a2 v it.
Proof.
  induction it as [it IH] using item_ind'. intros [k Hk] v.
  destruct (classify it) as [|c|o| |] eqn:Hcl.
  - pose proof Hcl as [_ [cs Hcs]]%manager_classify_category.
    destruct (manager_contents_mark_category a2 it cs k Hcl Hcs Hk)
      as (n & Hn & _).
    pose proof (manager_forEachE_normal_all _ _ _ _ Hn) as Hall.
    assert (Habs : ∀ s1 s2,
      forEachE (visit a2) (forEachE (visit a1) cs s1).1 s2
      = forEachE (visit a2) cs s2).
    { specialize (IH cs Hcs). rewrite Forall_forall in *.
      apply forEachE_absorb; apply Forall_forall; intros x Hx s.
      - intros s'. rewrite manager_visit_fst. apply IH; [done|].
        by apply Hall.
      - destruct (Hall x Hx) as [kx Hkx].
        rewrite manager_visit_shift. simpl. by rewrite Hkx. }
    unfold mark. rewrite (manager_visit_category a1 _ _ _ Hcl Hcs). cbv zeta.
    rewrite (manager_visit_category a2 _ _ _ Hcl Hcs). cbv zeta.
    destruct (forEachE (visit a1) cs 0).2 as [n1|] eqn:Hn1;
      [destruct (0 <? n1)%nat|]; cbn [fst];
      (erewrite manager_visit_category;
         [|rewrite <- Hcl; apply manager_classify_same; simpl; try done;
           rewrite Hcs; split; eauto
          |reflexivity]);
      cbv zeta; rewrite Habs, Hn; destruct (0 <? n)%nat; reflexivity.
  - unfold mark. rewrite (manager_visit_dynamic a1 _ _ _ Hcl).
    rewrite (manager_visit_dynamic a2 _ _ _ Hcl).
    destruct (allowed a1 c); cbn [fst];
      erewrite manager_visit_dynamic
        by (rewrite <- Hcl; by apply manager_classify_same);
      destruct (allowed a2 c); reflexivity.
  - unfold mark. rewrite (manager_visit_block_eq a1 _ _ _ Hcl).
    rewrite (manager_visit_block_eq a2 _ _ _ Hcl) in Hk.
    rewrite (manager_visit_block_eq a2 _ _ _ Hcl).
    destruct (manager_visit_block_cases a1 0 it) as [->|[->| ->]];
      [rewrite (manager_visit_block_eq a2 _ _ _ Hcl)|..];
      try (erewrite manager_visit_block_eq
             by (rewrite <- Hcl; by apply manager_classify_same));
      unfold visit_block in *;
      cbn [type enable_block disable_block set_disabled set_disabledReasons];
      destruct a2 as [l2|]; try reflexivity;
      destruct (type it) as [t|]; try done;
      destruct (includes l2 (toLowerCase t)); reflexivity.
  - by destruct (manager_classify_not_separator it).
  - unfold mark. by rewrite (manager_visit_unknown a1 _ _ Hcl).
Qed.
End manager_absorb.

Lemma manager_filter_absorb a1 a2 tree :
  (∃ n, (Manager._filterContents a2 tree).2 = Normal n) →
  Manager._filterContents a2 (Manager._filterContents a1 tree).1
    = Manager._filterContents a2 tree.
Proof.
  intros [n Hn].
  pose proof (manager_forEachE_normal_all _ _ _ _ Hn) as Hall.
  rewrite Forall_forall in Hall.
  unfold Manager._filterContents.
  apply forEachE_absorb; apply Forall_forall; intros x Hx s.
  - intros s'. rewrite manager_visit_fst. apply manager_visit_absorb.
    by apply Hall.
  - destruct (Hall x Hx) as [kx Hkx].
    rewrite manager_visit_shift. simpl. by rewrite Hkx.
Qed.

(** Property X6.  In [manager.ts] the last run decides: a run that completes
    leaves the tree, and returns the number, that it would leave and
    return without the run before it, whatever that run's allow-list was
    and whether or not it completed. *)
Theorem manager_last_run_wins (a1 a2 : option (list string))
    (tree : list ToolboxItemInfo) :
  a2 = None ∨ forallb Manager.blocks_typed tree = true →
  Manager._filterContents a2 (Manager._filterContents a1 tree).1
    = Manager._filterContents a2 tree.
Proof.
  intros Hok. apply manager_filter_absorb.
  by apply manager_filter_completes.
Qed.

Lemma manager_last_run_wins_witness :
  Manager._filterContents None
    (Manager._filterContents (Some []) example_toolbox).1
  = Manager._filterContents None example_toolbox.
Proof. apply manager_last_run_wins. left. reflexivity. Defined.

Section forEach_absorb.
Context {A St : Type} (f1 f2 : St → A → A * St).

Lemma forEach_take l : ∀ s i,
  take i (forEach f1 l s).1 = (forEach f1 (take i l) s).1.
Proof.
  induction l as [|x r IH]; intros s i; [by destruct i|].
  destruct i as [|i]; [done|].
  rewrite firstn_cons, !forEach_cons. cbn [fst]. by rewrite firstn_cons, IH.
Qed.

Lemma forEach_snd_absorb l :
  Forall (λ x, ∀ s s', (f2 s (f1 s' x).1).2 = (f2 s x).2) l →
  ∀ s1 s2, (forEach f2 (forEach f1 l s1).1 s2).2 = (forEach f2 l s2).2.
Proof.
  induction 1 as [|x r Hx _ IH]; intros s1 s2; [done|].
  rewrite (forEach_cons f1). cbn [fst].
  rewrite !(forEach_cons f2). cbn [snd]. by rewrite Hx, IH.
Qed.
End forEach_absorb.

Section part000_rerun.
Import Part000.

Lemma part000_visit_snd_absorb a1 a2 it : ∀ st st1,
  (visit a2 st (visit a1 st1 it).1).2 = (visit a2 st it).2.
Proof.
  induction it as [it IH] using item_ind'. intros st st1.
  rewrite (part000_visit_unfold a2 st (visit a1 st1 it).1).
  rewrite part000_contents_visit, part000_classify_visit.
  rewrite (part000_visit_unfold a2 st it).
  destruct (contents it) as [cs|] eqn:Hcs; cbn [fmap option_fmap option_map].
  - cbv zeta.
    rewrite (forEach_snd_absorb (visit a1) (visit a2) cs) by (by apply IH).
    by destruct (0 <? _)%nat.
  - destruct (classify it) as [|c|[t|]| |]; try done.
    + by destruct (allowed a2 c).
    + by destruct (allowed a2 t).
    + unfold visit_separator. by destruct (_ =? _)%nat.
Qed.

Lemma part000_forEach_snd_absorb a1 a2 l s1 s2 :
  (forEach (visit a2) (forEach (visit a1) l s1).1 s2).2
  = (forEach (visit a2) l s2).2.
Proof.
  apply forEach_snd_absorb, Forall_forall. intros x _ s s'.
  apply part000_visit_snd_absorb.
Qed.

Lemma part000_state_at_absorb a1 a2 p : ∀ l s1 st,
  state_at a2 p (forEach (visit a1) l s1).1 st = state_at a2 p l st.
Proof.
  induction p as [|i q IH]; intros l s1 st; [done|].
  destruct q as [|j q].
  - cbn [state_at]. unfold state_before.
    by rewrite forEach_take, part000_forEach_snd_absorb.
  - cbn [state_at] in *. rewrite forEach_lookup.
    destruct (l !! i) as [x|]; [|done]. cbn [fmap option_fmap option_map].
    cbn [mbind option_bind]. unfold children at 1 3.
    rewrite part000_contents_visit.
    destruct (contents x) as [cs|]; [|done].
    cbn [fmap option_fmap option_map]. apply IH.
Qed.

Lemma part000_visit_fst_absorb a1 a2 it st st1 :
  let x1 := (visit a1 st1 it).1 in
  let x2 := (visit a2 st it).1 in
  let x12 := (visit a2 st x1).1 in
  match classify it with
  | Category => hidden x12 = hidden x2
  | Separator =>
      separator_hidden x12 = separator_hidden x1 || separator_hidden x2
  | _ => x12 = x2
  end.
Proof.
  cbv zeta.
  destruct (classify it) as [|c|[t|]| |] eqn:Hcl.
  - pose proof Hcl as [cs Hcs]%part000_classify_category.
    rewrite (part000_visit_unfold a2 st (visit a1 st1 it).1).
    rewrite part000_contents_visit, Hcs. cbn [fmap option_fmap option_map].
    rewrite (part000_visit_category a2 _ _ _ Hcs). cbv zeta.
    rewrite part000_forEach_snd_absorb.
    by destruct (0 <? _)%nat.
  - rewrite (part000_visit_dynamic a1 _ _ _ Hcl).
    rewrite (part000_visit_dynamic a2 _ _ _ Hcl).
    destruct (allowed a1 c); cbn [fst];
      erewrite part000_visit_dynamic
        by (rewrite <- Hcl; by apply part000_classify_same);
      by destruct (allowed a2 c).
  - rewrite (part000_visit_block a1 _ _ _ Hcl).
    rewrite (part000_visit_block a2 _ _ _ Hcl).
    destruct (allowed a1 t); cbn [fst];
      erewrite part000_visit_block
        by (rewrite <- Hcl; by apply part000_classify_same);
      by destruct (allowed a2 t).
  - by apply part000_classify_block_typed in Hcl as [? ?].
  - rewrite (part000_visit_sep a1 _ _ Hcl), (part000_visit_sep a2 _ _ Hcl).
    rewrite part000_visit_sep
      by (rewrite <- (part000_visit_sep a1), part000_classify_visit; done).
    unfold visit_separator, separator_hidden.
    destruct (lastSeparator st1 =? visible st1)%nat,
             (lastSeparator st =? visible st)%nat; cbn [fst hidden set_hidden];
      rewrite ?bool_decide_eq_true_2 by done; try done;
      by destruct (bool_decide (hidden it = Some (FBool true))).
  - by rewrite (part000_visit_unknown a1 _ _ Hcl).
Qed.
End part000_rerun.

(** Property X7.  In the revision with separator handling a run after another run
    counts as a run on the untouched tree does: it returns the same
    number, leaves every block, dynamic category and unhandled item
    exactly as the direct run leaves it and gives every category the
    [hidden] value of the direct run.  Only separators keep a trace of the
    earlier run: after both runs a separator is hidden when the earlier
    run left it hidden or the direct run hides it. *)
Theorem part000_run_after_run (a1 a2 : option (list string))
    (tree : list ToolboxItemInfo) :
  (Part000._filterContents a2 (Part000._filterContents a1 tree).1).2
    = (Part000._filterContents a2 tree).2
  ∧
  ∀ p it, node_at Part000.children p tree = Some it →
    ∃ x1 x2 x12,
      node_at Part000.children p (Part000._filterContents a1 tree).1 = Some x1 ∧
      node_at Part000.children p (Part000._filterContents a2 tree).1 = Some x2 ∧
      node_at Part000.children p
        (Part000._filterContents a2 (Part000._filterContents a1 tree).1).1
        = Some x12 ∧
      match Part000.classify it with
      | Category => hidden x12 = hidden x2
      | Separator =>
          Part000.separator_hidden x12
          = Part000.separator_hidden x1 || Part000.separator_hidden x2
      | _ => x12 = x2
      end.
Proof.
  split.
  - rewrite !part000_filter_snd, part000_filter_fst.
    by rewrite part000_forEach_snd_absorb.
  - intros p it Hp.
    rewrite !part000_filter_fst, !part000_node_at_filter, Hp.
    cbn [fmap option_fmap option_map].
    eexists _, _, _. split_and!; [reflexivity..|].
    rewrite part000_state_at_absorb. apply part000_visit_fst_absorb.
Qed.

Lemma part000_run_after_run_witness :
  ∃ x1 x2 x12,
    node_at Part000.children [1]
      (Part000._filterContents (Some []) example_toolbox).1 = Some x1 ∧
    node_at Part000.children [1]
      (Part000._filterContents None example_toolbox).1 = Some x2 ∧
    node_at Part000.children [1]
      (Part000._filterContents None
         (Part000._filterContents (Some []) example_toolbox).1).1 = Some x12 ∧
    Part000.separator_hidden x12
      = Part000.separator_hidden x1 || Part000.separator_hidden x2.
Proof.
  destruct (part000_run_after_run (Some []) None example_toolbox) as [_ H].
  apply (H [1] example_separator). reflexivity.
Defined.

(** * Further properties of the manager *)

Section manager_more.
Variable F :
  option (list string) → list ToolboxItemInfo →
  list ToolboxItemInfo * completion nat.

(** What [_filterToolbox] leaves in the manager. *)
Lemma _filterToolbox_eq m :
  _filterToolbox F m =
  match get_toolbox m with
  | Some cs =>
      (with_registry
         (mkRegistry
            (<[_toolbox m := (F (_allowedBlocks m) cs).1]>
               (toolboxes (_registry m)))
            (generators (_registry m))) m,
       match (F (_allowedBlocks m) cs).2 with
       | Normal _ => Normal tt
       | Throw => Throw
       end)
  | None => (m, Normal tt)
  end.
Proof. unfold _filterToolbox, get_toolbox. by destruct (_ !! _). Qed.

Lemma _filterToolbox_get m :
  get_toolbox (_filterToolbox F m).1
  = (λ cs, (F (_allowedBlocks m) cs).1) <$> get_toolbox m.
Proof.
  rewrite _filterToolbox_eq. destruct (get_toolbox m) as [cs|] eqn:Hcs.
  - unfold get_toolbox. cbn. by rewrite lookup_insert_eq.
  - exact Hcs.
Qed.

Lemma _filterToolbox_others m other :
  other ≠ _toolbox m →
  toolboxes (_registry (_filterToolbox F m).1) !! other
  = toolboxes (_registry m) !! other.
Proof.
  intros Hne. rewrite _filterToolbox_eq.
  destruct (get_toolbox m) as [cs|]; [|done].
  cbn. by rewrite lookup_insert_ne.
Qed.

Lemma _filterToolbox_description m :
  _description (_filterToolbox F m).1 = _description m.
Proof. rewrite _filterToolbox_eq. by destruct (get_toolbox m). Qed.

Lemma setToolbox_eq name m :
  _toolbox m ≠ name →
  let m1 := with_toolbox
              (match toolboxes (_registry m) !! name with
               | Some _ => name
               | None => "default"
               end) m in
  (setToolbox F name m).1 =
  match (_filterToolbox F m1).2 with
  | Normal _ => emit toolbox (_filterToolbox F m1).1
  | Throw => (_filterToolbox F m1).1
  end ∧
  (setToolbox F name m).2 = (_filterToolbox F m1).2.
Proof.
  intros Hne m1. unfold setToolbox. rewrite bool_decide_eq_true_2 by done.
  fold m1. by destruct (_filterToolbox F m1) as [m2 [[]|]].
Qed.

Lemma setAllowedBlocks_eq a m :
  let m1 := with_allowedBlocks a m in
  (setAllowedBlocks F a m).1 =
  match (_filterToolbox F m1).2 with
  | Normal _ => emit toolbox (_filterToolbox F m1).1
  | Throw => (_filterToolbox F m1).1
  end ∧
  (setAllowedBlocks F a m).2 = (_filterToolbox F m1).2.
Proof.
  intros m1. unfold setAllowedBlocks. fold m1.
  by destruct (_filterToolbox F m1) as [m2 [[]|]].
Qed.

(** The keys of the manager that hold the registry's and the session's
    catalogues, and the kernel: what a call to [setToolbox] or
    [setAllowedBlocks] leaves as it is. *)
Lemma setToolbox_frame name m :
  let m' := (setToolbox F name m).1 in
  _allowedBlocks m' = _allowedBlocks m ∧ _generator m' = _generator m ∧
  _selectedKernel m' = _selectedKernel m ∧
  _sessionContext m' = _sessionContext m ∧
  _description m' = _description m ∧
  generators (_registry m') = generators (_registry m).
Proof.
  destruct (decide (_toolbox m = name)) as [<-|Hne];
    [by rewrite setToolbox_same|].
  cbv zeta. rewrite (proj1 (setToolbox_eq name m Hne)).
  match goal with |- context [_filterToolbox F ?m1] =>
    pose proof (_filterToolbox_fields F m1) as (_ & _ & Ha & Hk & Hg & Hs & Hgs & _);
    pose proof (_filterToolbox_description m1) as Hd;
    destruct (_filterToolbox F m1) as [m2 [[]|]] end; cbn in *; done.
Qed.

Lemma setAllowedBlocks_frame a m :
  let m' := (setAllowedBlocks F a m).1 in
  _toolbox m' = _toolbox m ∧ _generator m' = _generator m ∧
  _selectedKernel m' = _selectedKernel m ∧
  _sessionContext m' = _sessionContext m ∧
  _description m' = _description m ∧
  generators (_registry m') = generators (_registry m) ∧
  (∀ k, is_Some (toolboxes (_registry m') !! k) ↔
        is_Some (toolboxes (_registry m) !! k)).
Proof.
  cbv zeta. rewrite (proj1 (setAllowedBlocks_eq a m)).
  match goal with |- context [_filterToolbox F ?m1] =>
    pose proof (_filterToolbox_fields F m1) as (Ht & _ & _ & Hk & Hg & Hs & Hgs & Hts);
    pose proof (_filterToolbox_description m1) as Hd;
    destruct (_filterToolbox F m1) as [m2 [[]|]] end; cbn in *; done.
Qed.

End manager_more.

(** Property X8.  [setToolbox] with a registered name other than the current one
    selects that toolbox and leaves, as the contents registered under
    that name, what the filter makes of them under the current allow-list;
    the allow-list, the kernel and the generator stay as they are.  It
    emits one ["toolbox"] signal when the filter completes, and none when
    the filter throws: the selection has changed by then. *)
Theorem setToolbox_registered
    (F : option (list string) → list ToolboxItemInfo →
         list ToolboxItemInfo * completion nat)
    (m : BlocklyManager) (name : string) (cs : list ToolboxItemInfo) :
  toolboxes (_registry m) !! name = Some cs → _toolbox m ≠ name →
  let out := F (_allowedBlocks m) cs in
  let r := setToolbox F name m in
  getToolbox r.1 = name ∧
  get_toolbox r.1 = Some out.1 ∧
  getAllowedBlocks r.1 = getAllowedBlocks m ∧
  _selectedKernel r.1 = _selectedKernel m ∧ _generator r.1 = _generator m ∧
  match out.2 with
  | Normal _ => r.2 = Normal tt ∧ _changed r.1 = _changed m ++ [toolbox]
  | Throw => r.2 = Throw ∧ _changed r.1 = _changed m
  end.
Proof.
  intros Hcs Hne out r.
  destruct (setToolbox_eq F name m Hne) as [H1 H2]. rewrite Hcs in H1, H2.
  set (m1 := with_toolbox name m) in *.
  assert (Hget : get_toolbox m1 = Some cs) by exact Hcs.
  pose proof (_filterToolbox_get F m1) as Hf. rewrite Hget in Hf.
  pose proof (_filterToolbox_fields F m1) as (Ht & Hc & Ha & Hk & Hg & _).
  assert (H2' : (_filterToolbox F m1).2
                = match out.2 with Normal _ => Normal tt | Throw => Throw end).
  { rewrite _filterToolbox_eq, Hget. done. }
  fold r in H1, H2. rewrite H2' in H1, H2.
  unfold getToolbox, getAllowedBlocks.
  destruct out.2 as [n|]; rewrite H1; cbn in *;
    split_and!; try done.
  by rewrite Hc.
Qed.

Lemma setToolbox_registered_witness :
  let m := mkManager None "default" (Some ["move"]) None robot_registry None
             robot_session [] in
  let r := setToolbox Manager._filterContents "robot" m in
  getToolbox r.1 = "robot" ∧
  get_toolbox r.1 = Some [enable_block (example_block "move")] ∧
  _changed r.1 = [toolbox].
Proof.
  intros m r.
  destruct (setToolbox_registered Manager._filterContents m "robot"
              [example_block "move"]) as (H1 & H2 & _ & _ & _ & H3);
    [reflexivity|discriminate|].
  split; [exact H1|]. split; [exact H2|]. exact (proj2 H3).
Defined.

(** Property X9.  [setAllowedBlocks] stores the new allow-list, keeps the active
    toolbox and leaves, as the contents registered under the active name,
    what the filter makes of them under the new allow-list; the kernel
    and the generator stay as they are.  It emits one ["toolbox"] signal,
    also when no toolbox is registered under the active name; when the
    filter throws it emits none, and the new allow-list stays stored. *)
Theorem setAllowedBlocks_refilters
    (F : option (list string) → list ToolboxItemInfo →
         list ToolboxItemInfo * completion nat)
    (m : BlocklyManager) (a : option (list string)) :
  let r := setAllowedBlocks F a m in
  getAllowedBlocks r.1 = a ∧ getToolbox r.1 = getToolbox m ∧
  get_toolbox r.1 = (λ cs, (F a cs).1) <$> get_toolbox m ∧
  _selectedKernel r.1 = _selectedKernel m ∧ _generator r.1 = _generator m ∧
  match (λ cs, (F a cs).2) <$> get_toolbox m with
  | Some Throw => r.2 = Throw ∧ _changed r.1 = _changed m
  | _ => r.2 = Normal tt ∧ _changed r.1 = _changed m ++ [toolbox]
  end.
Proof.
  intros r. destruct (setAllowedBlocks_eq F a m) as [H1 H2].
  set (m1 := with_allowedBlocks a m) in *.
  pose proof (_filterToolbox_get F m1) as Hf.
  pose proof (_filterToolbox_fields F m1) as (Ht & Hc & Ha & Hk & Hg & _).
  assert (H2' : (_filterToolbox F m1).2
                = match (λ cs, (F a cs).2) <$> get_toolbox m with
                  | Some Throw => Throw
                  | _ => Normal tt
                  end).
  { rewrite _filterToolbox_eq. change (get_toolbox m1) with (get_toolbox m).
    destruct (get_toolbox m) as [cs|]; [|done]. cbn.
    by destruct (F a cs).2. }
  fold r in H1, H2. rewrite H2' in H1, H2.
  change (get_toolbox m1) with (get_toolbox m) in Hf.
  unfold getToolbox, getAllowedBlocks.
  destruct (get_toolbox m) as [cs|]; cbn in *;
    [destruct (F a cs).2 as [n|]|]; rewrite H1; cbn in *;
    split_and!; try done; by rewrite Hc.
Qed.

(** ** The constructor, and what every sequence of calls keeps *)

Lemma filter_undefined_completes
    (F : option (list string) → list ToolboxItemInfo →
         list ToolboxItemInfo * completion nat) :
  F = Part000._filterContents_c ∨ F = Manager._filterContents →
  ∀ cs, ∃ n, (F None cs).2 = Normal n.
Proof.
  intros [-> | ->] cs; [by eexists|apply manager_filter_undefined_completes].
Qed.


Section manager_life.
Variable F :
  option (list string) → list ToolboxItemInfo →
  list ToolboxItemInfo * completion nat.

Lemma new_eq registry sessionContext :
  (∀ cs, ∃ n, (F None cs).2 = Normal n) →
  let m0 := mkManager None "default" None None registry None sessionContext []
  in
  new F registry sessionContext =
  (mkManager None "default" None (generators registry !! "python")
     (_registry (_filterToolbox F m0).1) None sessionContext [],
   Normal tt).
Proof.
  intros Hc m0. unfold new. fold m0. rewrite _filterToolbox_eq.
  destruct (get_toolbox m0) as [cs|]; [|done].
  destruct (Hc cs) as [n Hn]. cbn. by rewrite Hn.
Qed.

Lemma _onKernelChanged_frame args m :
  let m' := _onKernelChanged args m in
  _toolbox m' = _toolbox m ∧ _allowedBlocks m' = _allowedBlocks m ∧
  _registry m' = _registry m ∧ _sessionContext m' = _sessionContext m ∧
  _description m' = _description m.
Proof.
  unfold _onKernelChanged. destruct (newValue args) as [name|]; [|done].
  by destruct (kernelspecs (_sessionContext m) !! name).
Qed.

Lemma perform_catalogues c m :
  let m' := perform F c m in
  generators (_registry m') = generators (_registry m) ∧
  kernelspecs (_sessionContext m') = kernelspecs (_sessionContext m) ∧
  (∀ k, is_Some (toolboxes (_registry m') !! k) ↔
        is_Some (toolboxes (_registry m) !! k)).
Proof.
  destruct c as [name|a|name|d|args]; cbn [perform].
  - destruct (setToolbox_fields F name m) as (Hs & _ & Hg & Ht).
    cbv zeta. by rewrite Hs.
  - destruct (setAllowedBlocks_frame F a m) as (_ & _ & _ & Hs & _ & Hg & Ht).
    cbv zeta. by rewrite Hs.
  - done.
  - done.
  - destruct (_onKernelChanged_frame args m) as (_ & _ & Hr & Hs & _).
    cbv zeta. by rewrite Hr, Hs.
Qed.

Lemma perform_generator_bound c m :
  generator_bound m → generator_bound (perform F c m).
Proof.
  unfold generator_bound.
  destruct c as [name|a|name|d|args]; cbn [perform]; intros Hb.
  - destruct (setToolbox_frame F name m) as (_ & Hg & Hk & _ & _ & Hgs).
    cbv zeta in *. by rewrite Hg, Hk, Hgs.
  - destruct (setAllowedBlocks_frame F a m) as (_ & Hg & Hk & _ & _ & Hgs & _).
    cbv zeta in *. by rewrite Hg, Hk, Hgs.
  - done.
  - done.
  - unfold _onKernelChanged. destruct (newValue args) as [name|]; [|done].
    by destruct (kernelspecs (_sessionContext m) !! name).
Qed.

Lemma perform_all_snoc cs c m :
  perform_all F (cs ++ [c]) m = perform F c (perform_all F cs m).
Proof. unfold perform_all. by rewrite foldl_app. Qed.

(** An invariant of every call holds after every sequence of calls. *)
Lemma perform_all_ind (P : BlocklyManager → Prop) cs m :
  P m → (∀ c m, P m → P (perform F c m)) → P (perform_all F cs m).
Proof.
  intros H0 Hstep. induction cs as [|c cs IH] using rev_ind; [done|].
  rewrite perform_all_snoc. by apply Hstep.
Qed.

Lemma perform_registered c m :
  is_Some (toolboxes (_registry m) !! "default") → is_Some (get_toolbox m) →
  is_Some (get_toolbox (perform F c m)).
Proof.
  intros Hd Hm. pose proof (perform_catalogues c m) as (_ & _ & Hk).
  cbv zeta in Hk. unfold get_toolbox in *. apply Hk.
  destruct c as [name|a|name|d|args]; cbn [perform].
  - destruct (decide (_toolbox m = name)) as [<-|Hne];
      [by rewrite setToolbox_same|].
    destruct (setToolbox_other F name m Hne) as [-> _].
    destruct (toolboxes (_registry m) !! name) eqn:Hn; [by rewrite Hn|done].
  - destruct (setAllowedBlocks_frame F a m) as (-> & _). done.
  - done.
  - done.
  - destruct (_onKernelChanged_frame args m) as (-> & _). done.
Qed.

Hypothesis F_idem : ∀ a cs, (F a (F a cs).1).1 = (F a cs).1.



End manager_life.

(** Property X10.  The constructor completes in both revisions, whatever the
    registry holds: it runs the filter with the allow-list still
    undefined.  The new manager has the toolbox ["default"], also when no
    toolbox is registered under that name, the generator registered for
    ["python"], no kernel (so [kernel] is ["No kernel"] and [mimeType] is
    ["text/plain"]), no description, and has emitted nothing. *)
Theorem new_manager
    (F : option (list string) → list ToolboxItemInfo →
         list ToolboxItemInfo * completion nat)
    (registry : BlocklyRegistry) (sessionContext : ISessionContext)
    (getMimeTypeByLanguage : string → string) :
  F = Part000._filterContents_c ∨ F = Manager._filterContents →
  let r := new F registry sessionContext in
  r.2 = Normal tt ∧
  getToolbox r.1 = "default" ∧ getAllowedBlocks r.1 = None ∧
  getDescription r.1 = None ∧
  _generator r.1 = generators registry !! "python" ∧
  _selectedKernel r.1 = None ∧ get_kernel r.1 = "No kernel" ∧
  get_mimeType getMimeTypeByLanguage r.1 = "text/plain" ∧
  _changed r.1 = [] ∧ _sessionContext r.1 = sessionContext ∧
  get_toolbox r.1 = (λ cs, (F None cs).1) <$> (toolboxes registry !! "default") ∧
  (∀ other, other ≠ "default" →
     toolboxes (_registry r.1) !! other = toolboxes registry !! other) ∧
  generators (_registry r.1) = generators registry.
Proof.
  intros HF r. unfold r.
  rewrite (new_eq F registry sessionContext (filter_undefined_completes F HF)).
  set (m0 := mkManager None "default" None None registry None sessionContext []).
  cbn [fst snd]. split_and!; try done.
  - pose proof (_filterToolbox_get F m0) as Hg.
    destruct (_filterToolbox_fields F m0) as (Ht & _).
    unfold get_toolbox in *. cbn in *. by rewrite Ht in Hg.
  - intros other Ho. by apply (_filterToolbox_others F m0).
  - by destruct (_filterToolbox_fields F m0) as (_ & _ & _ & _ & _ & _ & Hg & _).
Qed.

Lemma new_manager_witness :
  let untyped := mkItem (Some "block") None None None None None None in
  let registry := mkRegistry (<["default" := [untyped]]> ∅) ∅ in
  let r := new Manager._filterContents registry example_session in
  r.2 = Normal tt ∧ _generator r.1 = None ∧
  get_toolbox r.1 = Some [enable_block untyped].
Proof.
  intros untyped registry r.
  destruct (new_manager Manager._filterContents registry example_session id)
    as (H1 & _ & _ & _ & H2 & _ & _ & _ & _ & _ & H3 & _); [by right|].
  split; [exact H1|]. split; [exact H2|exact H3].
Defined.

(** Property X11.  No call of the manager adds or removes a name: after every
    sequence of calls [listToolboxes] offers the toolboxes and
    [listKernels] the kernels that they offered before. *)
Theorem calls_keep_lists
    (F : option (list string) → list ToolboxItemInfo →
         list ToolboxItemInfo * completion nat)
    (calls : list call) (m : BlocklyManager) :
  (∀ entry, entry ∈ listToolboxes (perform_all F calls m) ↔
            entry ∈ listToolboxes m) ∧
  listKernels (perform_all F calls m) = listKernels m.
Proof.
  assert (H : generators (_registry (perform_all F calls m))
                = generators (_registry m) ∧
              kernelspecs (_sessionContext (perform_all F calls m))
                = kernelspecs (_sessionContext m) ∧
              (∀ k, is_Some (toolboxes (_registry (perform_all F calls m)) !! k) ↔
                    is_Some (toolboxes (_registry m) !! k))).
  { apply (perform_all_ind F (λ m',
      generators (_registry m') = generators (_registry m) ∧
      kernelspecs (_sessionContext m') = kernelspecs (_sessionContext m) ∧
      (∀ k, is_Some (toolboxes (_registry m') !! k) ↔
            is_Some (toolboxes (_registry m) !! k)))); [done|].
    intros c m' (Hg & Hs & Ht).
    destruct (perform_catalogues F c m') as (Hg' & Hs' & Ht'). cbv zeta in *.
    rewrite Hg', Hs'. split_and!; [done..|].
    intros k. by rewrite Ht'. }
  destruct H as (Hg & Hs & Ht). split.
  - assert (Hl : ∀ m' (entry : string * string), entry ∈ listToolboxes m' ↔
              entry.1 = entry.2 ∧ is_Some (toolboxes (_registry m') !! entry.2)).
    { intros m' [l v]. unfold listToolboxes. rewrite list_elem_of_fmap. split.
      - intros ([k cs] & [= -> ->] & Hin%elem_of_map_to_list). simpl. eauto.
      - simpl. intros [-> [cs Hcs]]. exists (v, cs).
        split; [done|by apply elem_of_map_to_list]. }
    intros entry. by rewrite !Hl, Ht.
  - unfold listKernels. by rewrite Hg, Hs.
Qed.

(** Property X12.  In both revisions, after the constructor and every sequence of
    calls, the generator is the one registered for the language of the
    selected kernel, and the one registered for ["python"] while no
    kernel is selected; it is absent when the registry has none for that
    language. *)
Theorem generator_follows_kernel
    (registry : BlocklyRegistry) (sessionContext : ISessionContext)
    (calls : list call) :
  generator_bound
    (manager_after Part000._filterContents_c registry sessionContext calls) ∧
  generator_bound
    (manager_after Manager._filterContents registry sessionContext calls).
Proof.
  split; unfold manager_after;
    (apply perform_all_ind; [|apply perform_generator_bound]);
    (rewrite new_eq by (apply filter_undefined_completes; eauto));
    unfold generator_bound; cbn;
    match goal with |- context [_filterToolbox ?F ?m0] =>
      by destruct (_filterToolbox_fields F m0)
           as (_ & _ & _ & _ & _ & _ & -> & _) end.
Qed.

(** Property X13.  When a toolbox is registered under ["default"], the active
    toolbox is a registered one after the constructor and every sequence
    of calls, in both revisions: [get toolbox] is never undefined. *)
Theorem active_toolbox_registered
    (F : option (list string) → list ToolboxItemInfo →
         list ToolboxItemInfo * completion nat)
    (registry : BlocklyRegistry) (sessionContext : ISessionContext)
    (calls : list call) :
  F = Part000._filterContents_c ∨ F = Manager._filterContents →
  is_Some (toolboxes registry !! "default") →
  is_Some (get_toolbox (manager_after F registry sessionContext calls)).
Proof.
  intros HF Hd. unfold manager_after.
  apply (perform_all_ind F (λ m,
    is_Some (toolboxes (_registry m) !! "default") ∧ is_Some (get_toolbox m))).
  - rewrite new_eq by (by apply filter_undefined_completes). cbn [fst].
    set (m0 := mkManager None "default" None None registry None
                 sessionContext []).
    destruct (_filterToolbox_fields F m0) as (_ & _ & _ & _ & _ & _ & _ & Hk).
    split; apply Hk; exact Hd.
  - intros c m [H1 H2]. split; [|by apply perform_registered].
    by apply (perform_catalogues F c m).
Qed.

Lemma active_toolbox_registered_witness :
  is_Some
    (get_toolbox
       (manager_after Manager._filterContents example_registry example_session
          [call_setToolbox "nonexistent"; call_setAllowedBlocks (Some [])])).
Proof.
  apply active_toolbox_registered; [by right|].
  exists example_toolbox. reflexivity.
Defined.









Lemma perform_signal
    (F : option (list string) → list ToolboxItemInfo →
         list ToolboxItemInfo * completion nat)
    (c : call) (m : BlocklyManager) :
  _changed (perform F c m) = _changed m ∨
  ∃ s, signal_of c = Some s ∧ _changed (perform F c m) = _changed m ++ [s].
Proof.
  destruct c as [name|a|name|d|args]; cbn [perform].
  - destruct (decide (_toolbox m = name)) as [<-|Hne];
      [left; by rewrite setToolbox_same|].
    destruct (setToolbox_other F name m Hne) as [_ [[_ ->]|(_ & -> & _)]];
      [right; by exists toolbox|by left].
  - rewrite (proj1 (setAllowedBlocks_eq F a m)).
    match goal with |- context [_filterToolbox F ?m1] =>
      pose proof (_filterToolbox_fields F m1) as (_ & Hc & _);
      destruct (_filterToolbox F m1) as [m2 [[]|]] end; cbn in *;
      rewrite Hc; [right; by exists toolbox|by left].
  - by left.
  - right. by exists description.
  - unfold _onKernelChanged. destruct (newValue args) as [name|]; [|by left].
    destruct (kernelspecs (_sessionContext m) !! name); [|by left].
    right. by exists kernel.
Qed.

(** Property X15.  A call emits at most one signal, of the kind that belongs to
    the call ([selectKernel] emits none), and never removes one: after a
    sequence of calls the signals emitted before are a prefix of the
    signals emitted, and at most one signal per call was added. *)
Theorem one_signal_per_call
    (F : option (list string) → list ToolboxItemInfo →
         list ToolboxItemInfo * completion nat)
    (m : BlocklyManager) :
  (∀ c, _changed (perform F c m) = _changed m ∨
        ∃ s, signal_of c = Some s ∧
             _changed (perform F c m) = _changed m ++ [s]) ∧
  (∀ calls,
     _changed m `prefix_of` _changed (perform_all F calls m) ∧
     (length (_changed (perform_all F calls m))
      ≤ length (_changed m) + length calls)%nat).
Proof.
  pose proof (perform_signal F) as Hstep.
  split; [intros c; apply Hstep|].
  intros calls. induction calls as [|c calls IH] using rev_ind.
  - split; [done|]. simpl. lia.
  - rewrite perform_all_snoc, length_app. simpl. destruct IH as [Hp Hl].
    destruct (Hstep c (perform_all F calls m)) as [->|(s & _ & ->)].
    + split; [done|lia].
    + split; [by apply prefix_app_r|]. rewrite length_app. simpl. lia.
Qed.

(** Property X16.  No call clears the selected kernel: once a kernel is selected,
    one is selected after every further sequence of calls, and the
    selected kernel is the one selected before or an entry of the
    session's catalogue. *)
Theorem selected_kernel_stays
    (F : option (list string) → list ToolboxItemInfo →
         list ToolboxItemInfo * completion nat)
    (calls : list call) (m : BlocklyManager) :
  (is_Some (_selectedKernel m) →
   is_Some (_selectedKernel (perform_all F calls m))) ∧
  (∀ k, _selectedKernel (perform_all F calls m) = Some k →
        _selectedKernel m = Some k ∨
        ∃ key, kernelspecs (_sessionContext m) !! key = Some k).
Proof.
  assert (Hstep : ∀ c m,
    (is_Some (_selectedKernel m) → is_Some (_selectedKernel (perform F c m))) ∧
    (∀ k, _selectedKernel (perform F c m) = Some k →
          _selectedKernel m = Some k ∨
          ∃ key, kernelspecs (_sessionContext m) !! key = Some k)).
  { clear m. intros c m. destruct c as [name|a|name|d|args]; cbn [perform].
    - destruct (setToolbox_frame F name m) as (_ & _ & Hk & _).
      cbv zeta in Hk. rewrite Hk. eauto.
    - destruct (setAllowedBlocks_frame F a m) as (_ & _ & Hk & _).
      cbv zeta in Hk. rewrite Hk. eauto.
    - cbn. eauto.
    - cbn. eauto.
    - unfold _onKernelChanged. destruct (newValue args) as [name|]; [|eauto].
      destruct (kernelspecs (_sessionContext m) !! name) as [spec|] eqn:Hs;
        [|eauto].
      cbn. split; [eauto|]. intros k [= <-]. right. eauto. }
  apply (perform_all_ind F (λ m',
    kernelspecs (_sessionContext m') = kernelspecs (_sessionContext m) ∧
    (is_Some (_selectedKernel m) → is_Some (_selectedKernel m')) ∧
    (∀ k, _selectedKernel m' = Some k →
          _selectedKernel m = Some k ∨
          ∃ key, kernelspecs (_sessionContext m) !! key = Some k))); [eauto|].
  intros c m' (Hs & H1 & H2). destruct (Hstep c m') as [H1' H2'].
  destruct (perform_catalogues F c m') as (_ & Hs' & _). cbv zeta in Hs'.
  split_and!.
  - by rewrite Hs'.
  - eauto.
  - intros k Hk. destruct (H2' k Hk) as [Hk'|[key Hkey]]; [eauto|].
    right. exists key. by rewrite <- Hs.
Qed.

Lemma selected_kernel_stays_witness :
  let m := _onKernelChanged (mkArgs None (Some "julia")) example_manager in
  is_Some (_selectedKernel
             (perform_all Manager._filterContents
                [signal_kernelChanged (mkArgs (Some "julia") None);
                 call_setToolbox "x";
                 signal_kernelChanged (mkArgs None (Some "ruby"))] m)).
Proof.
  intros m.
  apply (selected_kernel_stays Manager._filterContents _ m).
  exists julia_spec. reflexivity.
Defined.

(** Property X17.  [listToolboxes] has one entry for every registered toolbox and
    no other; the label and the value of an entry are both the name. *)
Theorem listToolboxes_entries (m : BlocklyManager) :
  (∀ label value,
     (label, value) ∈ listToolboxes m ↔
     label = value ∧ is_Some (toolboxes (_registry m) !! value)) ∧
  NoDup (listToolboxes m) ∧
  length (listToolboxes m) = size (toolboxes (_registry m)).
Proof.
  unfold listToolboxes. split_and!.
  - intros l v. rewrite list_elem_of_fmap. split.
    + intros ([k cs] & [= -> ->] & Hin%elem_of_map_to_list). simpl. eauto.
    + intros [-> [cs Hcs]]. exists (v, cs).
      split; [done|by apply elem_of_map_to_list].
  - assert (Heq : (λ kv : string * list ToolboxItemInfo, (kv.1, kv.1))
                    <$> map_to_list (toolboxes (_registry m))
                  = (λ k : string, (k, k))
                    <$> (map_to_list (toolboxes (_registry m))).*1).
    { by rewrite <- list_fmap_compose. }
    rewrite Heq. apply NoDup_fmap_2; [by intros k k' [= ->]|].
    apply NoDup_fst_map_to_list.
  - by rewrite length_fmap, length_map_to_list.
Qed.

Lemma omap_length_le {A B : Type} (f : A → option B) (l : list A) :
  (length (omap f l) ≤ length l)%nat.
Proof.
  induction l as [|x r IH]; [done|]. csimpl. destruct (f x); simpl; lia.
Qed.

(** Property X18.  [listKernels] offers exactly the kernel specs of the session's
    catalogue whose language has a registered generator: the label is the
    spec's display name, the value is the spec's [name] (not the key under
    which the catalogue holds it).  It is empty when no generator is
    registered. *)
Theorem listKernels_entries (m : BlocklyManager) :
  (∀ label value,
     (label, value) ∈ listKernels m ↔
     ∃ key spec, kernelspecs (_sessionContext m) !! key = Some spec ∧
       label = KernelSpec.display_name spec ∧ value = KernelSpec.name spec ∧
       is_Some (generators (_registry m) !! KernelSpec.language spec)) ∧
  (length (listKernels m) ≤ size (kernelspecs (_sessionContext m)))%nat ∧
  (generators (_registry m) = ∅ → listKernels m = []).
Proof.
  unfold listKernels. split_and!.
  - intros l v. rewrite list_elem_of_omap. split.
    + intros ([key spec] & Hin%elem_of_map_to_list & Hv). simpl in Hv.
      destruct (generators (_registry m) !! KernelSpec.language spec) eqn:Hg;
        [|done].
      simplify_eq/=. exists key, spec. rewrite Hg. eauto.
    + intros (key & spec & Hspec & -> & -> & [g Hg]). exists (key, spec).
      split; [by apply elem_of_map_to_list|]. simpl. by rewrite Hg.
  - rewrite <- length_map_to_list. apply omap_length_le.
  - intros Hg. induction (map_to_list _) as [|[key spec] r IH]; [done|].
    csimpl. rewrite IH, Hg. cbn [snd]. by rewrite lookup_empty.
Qed.

Lemma perform_description
    (F : option (list string) → list ToolboxItemInfo →
         list ToolboxItemInfo * completion nat)
    (c : call) (m : BlocklyManager) :
  (∀ d, c ≠ call_setDescription d) →
  _description (perform F c m) = _description m.
Proof.
  destruct c as [name|a|name|d|args]; cbn [perform]; intros Hc.
  - by destruct (setToolbox_frame F name m) as (_ & _ & _ & _ & Hd & _).
  - by destruct (setAllowedBlocks_frame F a m) as (_ & _ & _ & _ & Hd & _).
  - done.
  - by destruct (Hc d).
  - by destruct (_onKernelChanged_frame args m) as (_ & _ & _ & _ & Hd).
Qed.

(** Property X19.  [setDescription] stores the description and emits one
    ["description"] signal; it touches neither the toolbox nor the
    registry nor the kernel.  [getDescription] returns the stored
    description until the next [setDescription]: no other call changes
    it. *)
Theorem description_kept
    (F : option (list string) → list ToolboxItemInfo →
         list ToolboxItemInfo * completion nat)
    (d : string) (m : BlocklyManager) (calls : list call) :
  Forall (λ c, ∀ d', c ≠ call_setDescription d') calls →
  getDescription (perform_all F calls (setDescription d m)) = Some d ∧
  _changed (setDescription d m) = _changed m ++ [description] ∧
  _toolbox (setDescription d m) = _toolbox m ∧
  _registry (setDescription d m) = _registry m ∧
  _allowedBlocks (setDescription d m) = _allowedBlocks m ∧
  _selectedKernel (setDescription d m) = _selectedKernel m ∧
  _generator (setDescription d m) = _generator m.
Proof.
  intros Hcalls. split; [|split_and!; reflexivity]. unfold getDescription.
  induction calls as [|c calls IH] using rev_ind; [done|].
  apply Forall_app in Hcalls as [Hcalls Hc]. rewrite Forall_singleton in Hc.
  rewrite perform_all_snoc, perform_description by exact Hc. by apply IH.
Qed.

Lemma description_kept_witness :
  getDescription
    (perform_all Manager._filterContents
       [call_setToolbox "missing"; call_setAllowedBlocks (Some ["a"]);
        signal_kernelChanged (mkArgs None (Some "python3"))]
       (setDescription "# Exercise" example_manager))
  = Some "# Exercise".
Proof.
  apply (description_kept Manager._filterContents "# Exercise" example_manager).
  repeat constructor; discriminate.
Defined.

(** Property X20.  [mimeType] is ["text/plain"] while no kernel is selected.  A
    kernel-changed signal for a kernel of the catalogue makes it the mime
    type the service gives for the language of that kernel, also when no
    generator is registered for the language; no call other than that
    signal changes it. *)
Theorem mimeType_follows_kernel
    (F : option (list string) → list ToolboxItemInfo →
         list ToolboxItemInfo * completion nat)
    (getMimeTypeByLanguage : string → string) (m : BlocklyManager) :
  (_selectedKernel m = None →
   get_mimeType getMimeTypeByLanguage m = "text/plain") ∧
  (∀ args name spec,
     newValue args = Some name →
     kernelspecs (_sessionContext m) !! name = Some spec →
     get_mimeType getMimeTypeByLanguage (_onKernelChanged args m)
     = getMimeTypeByLanguage (KernelSpec.language spec)) ∧
  (∀ c, (∀ args, c ≠ signal_kernelChanged args) →
        get_mimeType getMimeTypeByLanguage (perform F c m)
        = get_mimeType getMimeTypeByLanguage m).
Proof.
  unfold get_mimeType. split_and!.
  - by intros ->.
  - intros args name spec Hn Hs. unfold _onKernelChanged. by rewrite Hn, Hs.
  - intros c Hc. destruct c as [name|a|name|d|args]; cbn [perform].
    + by destruct (setToolbox_frame F name m) as (_ & _ & -> & _).
    + by destruct (setAllowedBlocks_frame F a m) as (_ & _ & -> & _).
    + done.
    + done.
    + by destruct (Hc args).
Qed.

Lemma mimeType_follows_kernel_witness :
  get_mimeType (String.append "text/x-")
    (_onKernelChanged (mkArgs None (Some "julia")) example_manager)
  = "text/x-julia".
Proof.
  destruct (mimeType_follows_kernel Manager._filterContents
              (String.append "text/x-") example_manager)
    as (_ & H & _).
  apply (H (mkArgs None (Some "julia")) "julia" julia_spec); reflexivity.
Defined.

(** Property X24.  In [manager.ts] clearing the allow-list restores the active
    toolbox: [setAllowedBlocks(undefined)] completes, and leaves the
    contents of the active toolbox as it would have left them had no
    allow-list been set before, also when the earlier [setAllowedBlocks]
    threw. *)
Theorem clearing_allow_list_restores (m : BlocklyManager)
    (a : option (list string)) :
  let restricted := (setAllowedBlocks Manager._filterContents a m).1 in
  let r := setAllowedBlocks Manager._filterContents None restricted in
  r.2 = Normal tt ∧ getAllowedBlocks r.1 = None ∧
  get_toolbox r.1
  = get_toolbox (setAllowedBlocks Manager._filterContents None m).1 ∧
  get_toolbox r.1
  = (λ cs, (Manager._filterContents None cs).1) <$> get_toolbox m.
Proof.
  cbv zeta. set (F := Manager._filterContents).
  assert (Hget : ∀ b m', get_toolbox (setAllowedBlocks F b m').1
                 = (λ cs, (F b cs).1) <$> get_toolbox m').
  { intros b m'. rewrite (proj1 (setAllowedBlocks_eq F b m')).
    pose proof (_filterToolbox_get F (with_allowedBlocks b m')) as Hg.
    change (get_toolbox (with_allowedBlocks b m')) with (get_toolbox m') in Hg.
    cbn [_allowedBlocks with_allowedBlocks] in Hg.
    by destruct (_filterToolbox F (with_allowedBlocks b m')) as [m2 [[]|]]. }
  assert (Hcomp : ∀ m', (setAllowedBlocks F None m').2 = Normal tt).
  { intros m'. rewrite (proj2 (setAllowedBlocks_eq F None m')).
    rewrite _filterToolbox_eq.
    destruct (get_toolbox (with_allowedBlocks None m')) as [cs|]; [|done].
    cbn. subst F. by destruct (manager_filter_undefined_completes cs) as [n ->]. }
  assert (Hallow : ∀ b m', _allowedBlocks (setAllowedBlocks F b m').1 = b).
  { intros b m'. rewrite (proj1 (setAllowedBlocks_eq F b m')).
    pose proof (_filterToolbox_fields F (with_allowedBlocks b m'))
      as (_ & _ & Ha & _).
    by destruct (_filterToolbox F (with_allowedBlocks b m')) as [m2 [[]|]]. }
  split; [apply Hcomp|]. split; [apply Hallow|].
  rewrite !Hget. destruct (get_toolbox m) as [cs|]; [|done].
  cbn [fmap option_fmap option_map]. subst F.
  rewrite manager_filter_absorb by apply manager_filter_undefined_completes.
  done.
Qed.

(** * Further properties of the document mapper *)

Section panel_more.
Variable F :
  option (list string) → list ToolboxItemInfo →
  list ToolboxItemInfo * completion nat.

(** The document [_onSave] writes. *)
Lemma saved_document p :
  _context_model (_onSave started p) =
  VObject
    [("format", VNumber 2);
     ("workspace", layout_workspace p);
     ("metadata",
       VObject [("toolbox", VString (getToolbox (_manager p)));
                ("kernel", VString (get_kernel (_manager p)))])].
Proof. reflexivity. Qed.

(** Loading a document that [_onSave] wrote. *)
Lemma load_saved p p0 :
  let metadata :=
    VObject [("toolbox", VString (getToolbox (_manager p)));
             ("kernel", VString (get_kernel (_manager p)))] in
  let p1 := set_workspace (layout_workspace p)
              (fromJSON (_context_model (_onSave started p)) p0) in
  _load F (fromJSON (_context_model (_onSave started p)) p0) =
  match load_toolbox F metadata p1 with
  | (p2, Normal _) => (load_kernel metadata p2, Normal tt)
  | (p2, Throw) => (p2, Throw)
  end.
Proof. by rewrite load_format2. Qed.

Lemma load_toolbox_model metadata p :
  _context_model (load_toolbox F metadata p).1 = _context_model p.
Proof.
  destruct (load_toolbox_cases F metadata p)
    as [[_ ->]|[(_ & _ & ->)|(s & _ & _ & _ & ->)]]; done.
Qed.

Lemma load_kernel_model metadata p :
  _context_model (load_kernel metadata p) = _context_model p.
Proof.
  destruct (load_kernel_cases metadata p)
    as [[_ ->]|[[_ ->]|[(_ & _ & _ & ->)|(s & _ & _ & _ & _ & ->)]]]; done.
Qed.

(** What [_load] does, by case. *)
Lemma load_cases_object p :
  _context_model p ≠ VNull → _context_model p ≠ VUndefined →
  _load F p = (set_workspace (_context_model p) p, Normal tt) ∨
  _load F p
    = (show (unsupported_format (get (_context_model p) "format")) p,
       Normal tt) ∨
  _load F p = (set_workspace (get (_context_model p) "workspace") p, Normal tt) ∨
  (get (_context_model p) "format" = VNumber 2 ∧
   let p1 := set_workspace (get (_context_model p) "workspace") p in
   let metadata := get (_context_model p) "metadata" in
   _load F p =
   match load_toolbox F metadata p1 with
   | (p2, Normal _) => (load_kernel metadata p2, Normal tt)
   | (p2, Throw) => (p2, Throw)
   end).
Proof.
  intros Hn Hu.
  destruct (get (_context_model p) "format") as [| |b|n|s|l|fields] eqn:Hf.
  - destruct (truthy (get (_context_model p) "blocks")) eqn:Hb.
    + left. by apply load_legacy.
    + right; left. rewrite <- Hf. apply load_unsupported; try done.
      by rewrite Hf.
  - right; left. rewrite <- Hf. apply load_unsupported; try done;
      by rewrite Hf.
  - right; left. rewrite <- Hf. apply load_unsupported; try done;
      by rewrite Hf.
  - destruct (decide (n = 2%Z)) as [->|Hne].
    + rewrite load_format2 by done. cbv zeta.
      destruct (truthy (get (_context_model p) "metadata"));
        [do 3 right; by split|by do 2 right; left].
    + right; left. rewrite <- Hf. apply load_unsupported; try done;
        rewrite Hf; congruence.
  - right; left. rewrite <- Hf. apply load_unsupported; try done;
      by rewrite Hf.
  - right; left. rewrite <- Hf. apply load_unsupported; try done;
      by rewrite Hf.
  - right; left. rewrite <- Hf. apply load_unsupported; try done;
      by rewrite Hf.
Qed.

Lemma load_cases p :
  _load F p = (p, Throw) ∨
  _load F p = (set_workspace (_context_model p) p, Normal tt) ∨
  _load F p
    = (show (unsupported_format (get (_context_model p) "format")) p,
       Normal tt) ∨
  _load F p = (set_workspace (get (_context_model p) "workspace") p, Normal tt) ∨
  (get (_context_model p) "format" = VNumber 2 ∧
   let p1 := set_workspace (get (_context_model p) "workspace") p in
   let metadata := get (_context_model p) "metadata" in
   _load F p =
   match load_toolbox F metadata p1 with
   | (p2, Normal _) => (load_kernel metadata p2, Normal tt)
   | (p2, Throw) => (p2, Throw)
   end).
Proof.
  destruct (_context_model p) eqn:Hm;
    [left; unfold _load; by rewrite Hm..| | | | |];
    right; rewrite <- Hm; apply load_cases_object; by rewrite Hm.
Qed.

Lemma load_toolbox_manager metadata p :
  _manager (load_toolbox F metadata p).1 = _manager p ∨
  ∃ s, get metadata "toolbox" = VString s ∧
       load_toolbox F metadata p
       = (set_manager (setToolbox F s (_manager p)).1 p,
          (setToolbox F s (_manager p)).2).
Proof.
  destruct (load_toolbox_cases F metadata p)
    as [[_ ->]|[(_ & _ & ->)|(s & Hs & _ & _ & ->)]]; [by left..|].
  right. by exists s.
Qed.

Lemma load_kernel_manager metadata p :
  _manager (load_kernel metadata p) = _manager p ∨
  ∃ s, get metadata "kernel" = VString s ∧
       _manager (load_kernel metadata p) = selectKernel s (_manager p).
Proof.
  destruct (load_kernel_cases metadata p)
    as [[_ ->]|[[_ ->]|[(_ & _ & _ & ->)|(s & Hs & _ & _ & _ & ->)]]];
    [by left..|].
  right. by exists s.
Qed.

End panel_more.

(** Property X21.  Loading a document that [_onSave] wrote gives the layout the
    workspace that was saved, whatever the manager of the loading panel
    knows of the saved toolbox and kernel, and never reports an
    unsupported format: the only messages it can add are the two about an
    unknown toolbox and an unknown kernel.  [_onSave] acts on the state
    ['started'] only, and changes the document model only. *)
Theorem save_load_workspace
    (F : option (list string) → list ToolboxItemInfo →
         list ToolboxItemInfo * completion nat)
    (p p0 : BlocklyPanel) :
  let r := _load F (fromJSON (_context_model (_onSave started p)) p0) in
  layout_workspace r.1 = layout_workspace p ∧
  (∀ e, e ∈ shown r.1 →
     e ∈ shown p0 ∨
     e = unknown_toolbox (VString (getToolbox (_manager p))) ∨
     e = unknown_kernel (VString (get_kernel (_manager p)))) ∧
  _onSave completed p = p ∧ _onSave failed p = p ∧
  layout_workspace (_onSave started p) = layout_workspace p ∧
  _manager (_onSave started p) = _manager p ∧
  shown (_onSave started p) = shown p.
Proof.
  cbv zeta. rewrite load_saved.
  set (metadata := VObject _).
  set (p1 := set_workspace _ _).
  pose proof (load_toolbox_workspace F metadata p1) as Hw.
  pose proof (load_toolbox_shown F metadata p1) as Hs.
  destruct (load_toolbox F metadata p1) as [p2 [[]|]]; cbn [fst snd] in *.
  - destruct (load_kernel_fields metadata p2) as [Hw2 _].
    pose proof (load_kernel_shown metadata p2) as Hs2.
    split; [by rewrite Hw2, Hw|]. split; [|done].
    intros e He.
    destruct Hs2 as [Hs2|Hs2]; rewrite Hs2 in He;
      destruct Hs as [Hs|Hs]; rewrite Hs in He; from_log He.
  - split; [done|]. split; [|done].
    intros e He. destruct Hs as [Hs|Hs]; rewrite Hs in He; from_log He.
Qed.

(** Property X22.  Loading, on the same panel, the document that the panel has
    just saved completes in every case and is harmless: the toolbox is
    not selected again (no filter run, no signal), the workspace is the
    one that was saved, and the manager is left as it was, except that the
    session may have been asked for the kernel that is selected
    already. *)
Theorem reload_saved
    (F : option (list string) → list ToolboxItemInfo →
         list ToolboxItemInfo * completion nat)
    (p : BlocklyPanel) :
  let m := _manager p in
  let r := _load F (_onSave started p) in
  r.2 = Normal tt ∧ layout_workspace r.1 = layout_workspace p ∧
  (_manager r.1 = m ∨ _manager r.1 = selectKernel (get_kernel m) m).
Proof.
  cbv zeta.
  change (_onSave started p)
    with (fromJSON (_context_model (_onSave started p)) p).
  rewrite load_saved.
  set (metadata := VObject _).
  set (p1 := set_workspace _ _).
  assert (Hm1 : _manager p1 = _manager p) by done.
  assert (Hw1 : layout_workspace p1 = layout_workspace p) by done.
  assert (Ht : load_toolbox F metadata p1 = (p1, Normal tt) ∨
               load_toolbox F metadata p1
               = (show (unknown_toolbox (get metadata "toolbox")) p1, Normal tt)).
  { destruct (load_toolbox_cases F metadata p1)
      as [[_ ->]|[(_ & _ & ->)|(s & Hs & _ & _ & ->)]]; [by left|by right|].
    left. injection Hs as <-. rewrite Hm1. unfold getToolbox.
    rewrite setToolbox_same. reflexivity. }
  assert (Hk : ∀ p2, _manager p2 = _manager p →
            _manager (load_kernel metadata p2) = _manager p ∨
            _manager (load_kernel metadata p2)
            = selectKernel (get_kernel (_manager p)) (_manager p)).
  { intros p2 Hp2.
    destruct (load_kernel_manager metadata p2) as [->|(s & Hs & ->)];
      [by left|].
    right. injection Hs as <-. by rewrite Hp2. }
  destruct Ht as [-> | ->]; cbn [fst snd].
  - split; [done|].
    destruct (load_kernel_fields metadata p1) as [-> _].
    split; [done|]. by apply Hk.
  - split; [done|].
    destruct (load_kernel_fields metadata
                (show (unknown_toolbox (get metadata "toolbox")) p1)) as [-> _].
    split; [done|]. by apply Hk.
Qed.

(** Property X23.  [_load] never writes the document model, the allow-list, the
    description, the selected kernel or the generator: a kernel named by
    the document is requested from the session, not selected.  It emits
    at most one signal, a ["toolbox"] one, and shows at most two
    messages, after those shown before. *)
Theorem load_frame
    (F : option (list string) → list ToolboxItemInfo →
         list ToolboxItemInfo * completion nat)
    (p : BlocklyPanel) :
  let m := _manager p in
  let r := _load F p in
  let m' := _manager r.1 in
  _context_model r.1 = _context_model p ∧
  getAllowedBlocks m' = getAllowedBlocks m ∧
  getDescription m' = getDescription m ∧
  _selectedKernel m' = _selectedKernel m ∧ _generator m' = _generator m ∧
  (_changed m' = _changed m ∨ _changed m' = _changed m ++ [toolbox]) ∧
  ∃ more, shown r.1 = shown p ++ more ∧ (length more ≤ 2)%nat.
Proof.
  cbv zeta. unfold getAllowedBlocks, getDescription.
  assert (Hnil : ∀ q : BlocklyPanel, ∃ more,
            shown q = shown q ++ more ∧ (length more ≤ 2)%nat).
  { intros q. exists []. rewrite app_nil_r. simpl. split; [done|lia]. }
  destruct (load_cases F p) as [->|[->|[->|[->|[_ H]]]]];
    try (cbn; split_and!; try done; by left).
  { cbn. split_and!; try done; [by left|].
    eexists [_]. split; [done|]. simpl. lia. }
  cbv zeta in H. rewrite H. clear H.
  set (metadata := get (_context_model p) "metadata").
  set (p1 := set_workspace _ p).
  pose proof (load_toolbox_model F metadata p1) as Hmod.
  pose proof (load_toolbox_shown F metadata p1) as Hs.
  assert (Hm : let m2 := _manager (load_toolbox F metadata p1).1 in
               _allowedBlocks m2 = _allowedBlocks (_manager p) ∧
               _description m2 = _description (_manager p) ∧
               _selectedKernel m2 = _selectedKernel (_manager p) ∧
               _generator m2 = _generator (_manager p) ∧
               (_changed m2 = _changed (_manager p) ∨
                _changed m2 = _changed (_manager p) ++ [toolbox])).
  { destruct (load_toolbox_manager F metadata p1) as [->|(s & _ & ->)];
      cbn [fst _manager set_manager]; [split_and!; try done; by left|].
    destruct (setToolbox_frame F s (_manager p)) as (Ha & Hg & Hk & _ & Hd & _).
    split_and!; try done.
    destruct (perform_signal F (call_setToolbox s) (_manager p))
      as [Hc|(c & [= <-] & Hc)]; [by left|by right]. }
  cbv zeta in Hm. destruct Hm as (Ha & Hd & Hk & Hg & Hc).
  assert (Hk2 : ∀ p2, let m3 := _manager (load_kernel metadata p2) in
            _allowedBlocks m3 = _allowedBlocks (_manager p2) ∧
            _description m3 = _description (_manager p2) ∧
            _selectedKernel m3 = _selectedKernel (_manager p2) ∧
            _generator m3 = _generator (_manager p2) ∧
            _changed m3 = _changed (_manager p2)).
  { intros p2. cbv zeta.
    by destruct (load_kernel_manager metadata p2) as [->|(s & _ & ->)]. }
  destruct (load_toolbox F metadata p1) as [p2 [[]|]]; cbn [fst snd] in *.
  - destruct (Hk2 p2) as (Ha2 & Hd2 & Hks2 & Hg2 & Hc2).
    rewrite load_kernel_model, Ha2, Hd2, Hks2, Hg2, Hc2.
    split_and!; try done.
    pose proof (load_kernel_shown metadata p2) as Hs2.
    destruct Hs2 as [-> | ->]; destruct Hs as [-> | ->].
    + exists []. rewrite app_nil_r. simpl. split; [done|lia].
    + eexists [_]. split; [done|]. simpl. lia.
    + eexists [_]. split; [done|]. simpl. lia.
    + eexists [_; _]. rewrite <- app_assoc. split; [done|]. simpl. lia.
  - split_and!; try done.
    destruct Hs as [-> | ->].
    + exists []. rewrite app_nil_r. simpl. split; [done|lia].
    + eexists [_]. split; [done|]. simpl. lia.
Qed.

Lemma load_kernel_kept
    (F : option (list string) → list ToolboxItemInfo →
         list ToolboxItemInfo * completion nat)
    (p : BlocklyPanel) :
  _selectedKernel (_manager (_load F p).1) = _selectedKernel (_manager p).
Proof.
  destruct (load_cases F p) as [->|[->|[->|[->|[_ H]]]]]; try done.
  cbv zeta in H. rewrite H. clear H.
  set (metadata := get (_context_model p) "metadata").
  set (p1 := set_workspace _ p).
  assert (Hm : _selectedKernel (_manager (load_toolbox F metadata p1).1)
               = _selectedKernel (_manager p)).
  { destruct (load_toolbox_manager F metadata p1) as [->|(s & _ & ->)];
      [done|]. cbn [fst _manager set_manager].
    by destruct (setToolbox_frame F s (_manager p)) as (_ & _ & Hk & _). }
  destruct (load_toolbox F metadata p1) as [p2 [[]|]]; cbn [fst snd] in *;
    [|done].
  by destruct (load_kernel_manager metadata p2) as [->|(s & _ & ->)].
Qed.

Lemma load_toolbox_applied
    (F : option (list string) → list ToolboxItemInfo →
         list ToolboxItemInfo * completion nat)
    (p : BlocklyPanel) (name : string) :
  get (_context_model p) "format" = VNumber 2 →
  truthy (get (_context_model p) "metadata") = true →
  get (get (_context_model p) "metadata") "toolbox" = VString name →
  name ≠ "" → is_Some (toolboxes (_registry (_manager p)) !! name) →
  _toolbox (_manager (_load F p).1) = name.
Proof.
  intros Hf Hm Ht Hne Hr. rewrite load_format2 by done. cbv zeta.
  rewrite Hm.
  set (metadata := get (_context_model p) "metadata") in *.
  set (p1 := set_workspace _ p).
  destruct (load_toolbox_registered F metadata p1 name Ht Hne Hr) as [-> Hn].
  destruct (setToolbox F name (_manager p1)).2; cbn [fst snd].
  - by destruct (load_kernel_fields metadata
                   (set_manager (setToolbox F name (_manager p1)).1 p1))
      as [_ ->].
  - exact Hn.
Qed.

Lemma load_toolbox_not_applied
    (F : option (list string) → list ToolboxItemInfo →
         list ToolboxItemInfo * completion nat)
    (p : BlocklyPanel) :
  let metadata := get (_context_model p) "metadata" in
  get (_context_model p) "format" ≠ VNumber 2 ∨ truthy metadata = false ∨
  truthy (get metadata "toolbox") = false ∨
  find_value (listToolboxes (_manager p)) (get metadata "toolbox") = false →
  _toolbox (_manager (_load F p).1) = _toolbox (_manager p).
Proof.
  cbv zeta. intros Hc.
  destruct (load_cases F p) as [->|[->|[->|[->|[Hf H]]]]]; try done.
  cbv zeta in H. rewrite H. clear H.
  set (metadata := get (_context_model p) "metadata") in *.
  set (p1 := set_workspace _ p).
  assert (Hc' : truthy (get metadata "toolbox") = false ∨
                find_value (listToolboxes (_manager p1))
                  (get metadata "toolbox") = false).
  { destruct Hc as [Hc|[Hc|[Hc|Hc]]]; [done| |by left|by right].
    left. by destruct metadata. }
  assert (Ht : _toolbox (_manager (load_toolbox F metadata p1).1)
               = _toolbox (_manager p)).
  { destruct (load_toolbox_cases F metadata p1)
      as [[_ ->]|[(_ & _ & ->)|(name & Hn & Hne & Hfind & _)]]; [done..|].
    destruct Hc' as [Hc'|Hc']; [|congruence].
    rewrite Hn in Hc'. simpl in Hc'.
    apply negb_false_iff, String.eqb_eq in Hc'. done. }
  destruct (load_toolbox F metadata p1) as [p2 [[]|]]; cbn [fst snd] in *;
    [|done].
  by destruct (load_kernel_fields metadata p2) as [_ ->].
Qed.

(** Property X25.  Saving after loading writes a document of format 2 whose
    kernel is the kernel that was selected before the load: the load only
    asks the session for the document's kernel, so until the session
    confirms, a save writes the earlier one.  The toolbox it writes is the
    one named by the loaded document when that document is of format 2
    with truthy metadata and the name is not the empty string and is
    registered; in every other case (another format, no metadata, a falsy
    name, a name that is not among [listToolboxes]) it is the toolbox that
    was active before the load. *)
Theorem load_then_save
    (F : option (list string) → list ToolboxItemInfo →
         list ToolboxItemInfo * completion nat)
    (p : BlocklyPanel) :
  let doc := _context_model p in
  let metadata := get doc "metadata" in
  let m := _manager p in
  let doc' := _context_model (_onSave started (_load F p).1) in
  get doc' "format" = VNumber 2 ∧
  get (get doc' "metadata") "kernel" = VString (get_kernel m) ∧
  (∀ name, get doc "format" = VNumber 2 → truthy metadata = true →
     get metadata "toolbox" = VString name → name ≠ "" →
     is_Some (toolboxes (_registry m) !! name) →
     get (get doc' "metadata") "toolbox" = VString name) ∧
  (get doc "format" ≠ VNumber 2 ∨ truthy metadata = false ∨
   truthy (get metadata "toolbox") = false ∨
   find_value (listToolboxes m) (get metadata "toolbox") = false →
   get (get doc' "metadata") "toolbox" = VString (getToolbox m)).
Proof.
  cbv zeta. rewrite saved_document. split; [done|]. split_and!.
  - cbn. unfold get_kernel. by rewrite load_kernel_kept.
  - intros name Hf Hm Ht Hne Hr. cbn. unfold getToolbox.
    by rewrite (load_toolbox_applied F p name).
  - intros Hc. cbn. unfold getToolbox.
    by rewrite (load_toolbox_not_applied F p).
Qed.

Lemma load_then_save_witness :
  let p := mkPanel example_document
             (_onKernelChanged (mkArgs None (Some "python3")) example_manager)
             VUndefined [] in
  let doc' := _context_model
                (_onSave started (_load Manager._filterContents p).1) in
  get (get example_document "metadata") "kernel" = VString "julia" ∧
  get (get doc' "metadata") "kernel" = VString "python3" ∧
  get (get example_document "metadata") "toolbox" = VString "missing" ∧
  get (get doc' "metadata") "toolbox" = VString "default".
Proof.
  intros p doc'.
  destruct (load_then_save Manager._filterContents p) as (_ & Hk & _ & Ht).
  split; [reflexivity|]. split; [exact Hk|]. split; [reflexivity|].
  apply Ht. do 3 right. reflexivity.
Defined.
